(** * Auto Scheduler: ranking, first-fit allocation and the block store

    A shallow embedding of the scheduling core of [script.js] (the
    [autoscheduler.v1] application): the task ranker [sortTasks], the
    allocator [buildSchedule] with its closures [findGap] and
    [insertBlock], and the store operations [moveBlock],
    [toggleBlockDone] and [removeBlock]; and of the allocation loop of
    the older [generateSchedule], which works on a list of free
    intervals.  Around this core it covers the operations on tasks
    ([deleteTask], [toggleTaskDone], [clearToday]), the unplaced
    summary [computeUnplaced], the drag handlers, the handlers of the
    two forms, the printing and escaping helpers, and the reservation
    of the calendar events in the older version.

    Numbers are integers ([Z]).  JavaScript's [NaN] is kept apart in the
    type [num]; a function whose JavaScript result would carry a [NaN]
    into the arithmetic returns [None] here, so the statements below are
    about the inputs on which the program computes with integers.  The
    DOM, [localStorage] and the toasts are not modelled. *)

From Stdlib Require Import ZArith Lia List Ascii String Sorted Permutation.
From stdpp Require Import base option list gmap strings pretty.

Open Scope Z_scope.

(** ** JavaScript primitives used by the program *)

Module JS.

(** A JavaScript number as far as the program needs it. *)
Inductive num := NaN | Int (z : Z).

Definition int (n : num) : option Z :=
  match n with NaN => None | Int z => Some z end.

(** [s.split(sep)] for a separator of one character: never empty. *)
Fixpoint split (sep : ascii) (s : string) : list string :=
  match s with
  | EmptyString => [EmptyString]
  | String c s' =>
      match split sep s' with
      | [] => []
      | p :: ps =>
          if Ascii.eqb c sep then EmptyString :: p :: ps
          else String c p :: ps
      end
  end.

(** White space skipped by [parseInt] (the ASCII part of it). *)
Definition isWhite (c : ascii) : bool :=
  let n := nat_of_ascii c in
  ((9 <=? n) && (n <=? 13))%nat || (n =? 32)%nat.

Fixpoint trimStart (s : string) : string :=
  match s with
  | String c s' => if isWhite c then trimStart s' else s
  | EmptyString => s
  end.

Definition digitOf (c : ascii) : option Z :=
  let n := Z.of_nat (nat_of_ascii c) in
  if (48 <=? n) && (n <=? 57) then Some (n - 48) else None.

(** The longest prefix of decimal digits; [None] when there is none. *)
Fixpoint digits (acc : option Z) (s : string) : option Z :=
  match s with
  | String c s' =>
      match digitOf c with
      | Some d => digits (Some (10 * default 0 acc + d)) s'
      | None => acc
      end
  | EmptyString => acc
  end.

(** [parseInt(s, 10)]; [None] is [NaN]. *)
Definition parseInt (s : string) : option Z :=
  match trimStart s with
  | String "-"%char s' => Z.opp <$> digits None s'
  | String "+"%char s' => digits None s'
  | s' => digits None s'
  end.

(** [Math.round(d / 5)] for an integer [d]: [floor (d/5 + 1/2)]. *)
Definition roundDiv5 (d : Z) : Z := (2 * d + 5) / 10.

(** [Array.prototype.sort] is stable; for a comparator that is a total
    preorder every stable sort returns the same array.  It is computed
    here by insertion: an element goes in front of the first one it
    does not compare greater than.  Only the sign of [cmp] is used. *)
Section Sort.
Context {A : Type} (cmp : A → A → Z).

Fixpoint insertSorted (x : A) (l : list A) : list A :=
  match l with
  | [] => [x]
  | y :: l' => if cmp x y <=? 0 then x :: l else y :: insertSorted x l'
  end.

Definition sort (l : list A) : list A := foldr insertSorted [] l.
End Sort.

(** [Array.prototype.findIndex]; [None] is [-1]. *)
Fixpoint findIndex {A : Type} (p : A → bool) (l : list A) : option nat :=
  match l with
  | [] => None
  | x :: l' => if p x then Some O else S <$> findIndex p l'
  end.

End JS.

Import JS.

(** The host's [Date]: [hostDate y m d h mi] is the time value (epoch
    milliseconds, in the host's time zone) of
    [new Date(b.getFullYear(), b.getMonth(), b.getDate(), h, mi, 0, 0)]
    for [b = new Date(y, m, d, 0, 0, 0, 0)], with [m] a month index;
    [NaN] for an invalid date. *)
Class Host := { hostDate : Z → Z → Z → Z → Z → num }.

(** ** Data model *)

Module Task.
Record t := mk {
  id : string;
  title : string;
  duration : Z;
  priority : string;
  split : string;
  deadlineDate : string;
  deadlineTime : string;
  createdAt : Z;
  done : bool
}.
End Task.

(** A block of [dayBlocks] and of [state.scheduleByDate].  The working
    blocks of [buildSchedule] also carry [priority], [split] and
    [deadline]; nothing reads them and they are dropped when the
    schedule is stored. *)
Module Block.
Record t := mk {
  id : string;
  taskId : string;
  title : string;
  startMin : Z;
  endMin : Z;
  fixed : bool;
  done : bool
}.
End Block.

Module Settings.
Record t := mk {
  date : string;
  dayStart : string;
  dayEnd : string;
  buffer : Z;
  strategy : string;
  lunch : string
}.
End Settings.

(** The persistent [state] of the application. *)
Record State := mkState {
  settings : Settings.t;
  tasks : list Task.t;
  scheduleByDate : gmap string (list Block.t)
}.

(** An entry of [unplaced]: the task itself for a task that may not be
    split, [{...t, _remaining}] for one that may. *)
Record Unplaced := mkUnplaced {
  task : Task.t;
  _remaining : option Z
}.

(** A gap returned by [findGap]. *)
Record Gap := mkGap { s : Z; e : Z }.

(** The result of [getDayRange], in minutes since midnight. *)
Record DayRange := mkDayRange { startMin : Z; endMin : Z; buffer : Z }.

(** ** Utilities *)

(** [parseTimeToMin]: [None] is [null].  A string without a colon has
    [undefined] minutes, which [Number.isNaN] lets pass, and gives
    [NaN]. *)
Definition parseTimeToMin (hhmm : string) : option num :=
  if String.eqb hhmm "" then None
  else
    match map parseInt (split ":" hhmm) with
    | Some h :: Some m :: _ => Some (Int (h * 60 + m))
    | Some h :: [] => Some NaN
    | _ => None
    end.

(** [toLocalDate]: year, month index and day handed to [Date]; [None]
    stands for the invalid date of a missing or non-numeric part. *)
Definition toLocalDate (yyyy_mm_dd : string) : option (Z * Z * Z) :=
  match map parseInt (split "-" yyyy_mm_dd) with
  | Some y :: Some m :: Some d :: _ => Some (y, m - 1, d)
  | _ => None
  end.

(** [combineDateTime]: [None] is [null], otherwise the time value of the
    returned [Date]. *)
Definition combineDateTime `{Host} (yyyy_mm_dd hhmm : string) : option num :=
  if String.eqb yyyy_mm_dd "" then None
  else
    let base := toLocalDate yyyy_mm_dd in
    let at_ (h mi : Z) : num :=
      match base with
      | Some (y, m, d) => hostDate y m d h mi
      | None => NaN
      end in
    if String.eqb hhmm "" then Some (at_ 23 59)
    else
      match parseTimeToMin hhmm with
      | None => None
      | Some NaN => Some NaN
      | Some (Int t) => Some (at_ (t / 60) (Z.rem t 60))
      end.

(** ** Scheduling: settings *)

(** [priorityScore]: 3 for "高" (high), 2 for "中" (medium), 1 otherwise. *)
Definition priorityScore (p : string) : Z :=
  if String.eqb p "高" then 3 else if String.eqb p "中" then 2 else 1.

(** [getDayRange]; [None] when a bound of the day is [NaN]. *)
Definition getDayRange (st : State) : option DayRange :=
  startMin ← int (default (Int 420) (parseTimeToMin (Settings.dayStart (settings st))));
  endMin ← int (default (Int 1380) (parseTimeToMin (Settings.dayEnd (settings st))));
  let buffer := Settings.buffer (settings st) in
  Some (mkDayRange startMin endMin (if buffer =? 0 then 0 else buffer)).

(** [getLunchBlock]; the inner [None] is [null], the outer one a bound
    that is [NaN]. *)
Definition getLunchBlock (st : State) : option (option (Z * Z)) :=
  let lunch := Settings.lunch (settings st) in
  if String.eqb lunch "" || String.eqb lunch "none" then Some None
  else
    let parts := split "-" lunch in
    let s := hd_error parts ≫= parseTimeToMin in
    let e := parts !! 1%nat ≫= parseTimeToMin in
    match s, e with
    | Some s, Some e =>
        s ← int s; e ← int e;
        Some (if e <=? s then None else Some (s, e))
    | _, _ => Some None
    end.

(** [tasksToSchedule]: all the tasks that are not done. *)
Definition tasksToSchedule (st : State) (dateKey : string) : list Task.t :=
  List.filter (λ t, negb (Task.done t)) (tasks st).

(** ** Task ranker *)

(** A deadline key: a time value or [Number.POSITIVE_INFINITY]. *)
Inductive ext := Fin (z : Z) | PInf.

Definition ext_eqb (a b : ext) : bool :=
  match a, b with
  | Fin x, Fin y => x =? y
  | PInf, PInf => true
  | _, _ => false
  end.

(** The sign of [a - b] for [a !== b] (an infinite difference is given
    as [1] or [-1]). *)
Definition ext_sub (a b : ext) : Z :=
  match a, b with
  | Fin x, Fin y => x - y
  | PInf, Fin _ => 1
  | Fin _, PInf => -1
  | PInf, PInf => 0
  end.

(** An element [{ t, dlMs }] of [withKey]. *)
Record Keyed := mkKeyed { kt : Task.t; dlMs : ext }.

(** The comparator of the strategy "priority". *)
Definition byPriority (a b : Keyed) : Z :=
  let ps := priorityScore (Task.priority (kt b)) - priorityScore (Task.priority (kt a)) in
  if negb (ps =? 0) then ps
  else if negb (ext_eqb (dlMs a) (dlMs b)) then ext_sub (dlMs a) (dlMs b)
  else Task.createdAt (kt a) - Task.createdAt (kt b).

(** The comparator of every other strategy ("due"). *)
Definition byDue (a b : Keyed) : Z :=
  if negb (ext_eqb (dlMs a) (dlMs b)) then ext_sub (dlMs a) (dlMs b)
  else
    let ps := priorityScore (Task.priority (kt b)) - priorityScore (Task.priority (kt a)) in
    if negb (ps =? 0) then ps
    else Task.createdAt (kt a) - Task.createdAt (kt b).

(** The key of one task; [None] when the deadline is an invalid date. *)
Definition keyOf `{Host} (t : Task.t) : option Keyed :=
  match combineDateTime (Task.deadlineDate t) (Task.deadlineTime t) with
  | None => Some (mkKeyed t PInf)
  | Some dl => ms ← int dl; Some (mkKeyed t (Fin ms))
  end.

Definition comparator (strategy : string) : Keyed → Keyed → Z :=
  if String.eqb strategy "priority" then byPriority else byDue.

(** [state.settings.strategy || "due"]. *)
Definition strategyOf (st : State) : string :=
  let g := Settings.strategy (settings st) in
  if String.eqb g "" then "due" else g.

Definition sortTasks `{Host} (st : State) (arr : list Task.t) : option (list Task.t) :=
  withKey ← mapM keyOf arr;
  Some (kt <$> sort (comparator (strategyOf st)) withKey).

(** ** Allocator *)

(** The comparator [(a, b) => a.startMin - b.startMin]. *)
Definition cmpStart (a b : Block.t) : Z := Block.startMin a - Block.startMin b.

(** The fixed block pushed for the lunch window. *)
Definition lunchBlock (lunch : Z * Z) : Block.t :=
  Block.mk "lunch" "lunch" "休憩" (fst lunch) (snd lunch) true false.

(** [dayBlocks] before the tasks: the lunch block when there is one. *)
Definition fixedBlocks (lunch : option (Z * Z)) : list Block.t :=
  match lunch with Some l => [lunchBlock l] | None => [] end.

(** [dur]: [Math.max(5, Math.round(Number(t.duration) / 5) * 5)]. *)
Definition normDuration (t : Task.t) : Z :=
  Z.max 5 (roundDiv5 (Task.duration t) * 5).

Definition canSplit (t : Task.t) : bool := negb (String.eqb (Task.split t) "不可").

(** [chunk]: 60, 45 or 30 when [remaining] reaches it, else [remaining]. *)
Definition chunkOf (remaining : Z) : Z :=
  if 60 <=? remaining then 60
  else if 45 <=? remaining then 45
  else if 30 <=? remaining then 30
  else remaining.

(** The title of a chunk: [t.title + (dur !== chunk ? "（分割）" : "")]. *)
Definition chunkTitle (t : Task.t) (dur chunk : Z) : string :=
  let mark : string := if negb (dur =? chunk) then "（分割）" else "" in
  (Task.title t +:+ mark)%string.

(** The working state of the loop over the tasks: [dayBlocks],
    [unplaced], and the number of calls of [uid] made so far. *)
Record Alloc := mkAlloc {
  dayBlocks : list Block.t;
  unplaced : list Unplaced;
  uids : nat
}.

Section Day.
(** [uid k] is the string returned by the k-th call of [uid()]
    ([Math.random] and [Date.now]). *)
Context (day : DayRange) (uid : nat → string).

(** [insertBlock]: push, then sort by start. *)
Definition insertBlock (blocks : list Block.t) (blk : Block.t) : list Block.t :=
  sort cmpStart (blocks ++ [blk]).

(** The loop of [findGap] over the sorted blocks, from cursor [cur]. *)
Fixpoint scan (minDur cur : Z) (blocks : list Block.t) : option Gap :=
  match blocks with
  | [] =>
      if cur + minDur <=? endMin day then Some (mkGap cur (cur + minDur))
      else None
  | b :: rest =>
      if cur + minDur <=? Block.startMin b then Some (mkGap cur (cur + minDur))
      else scan minDur (Z.max cur (Block.endMin b + buffer day)) rest
  end.

(** [findGap]: the scan of a sorted copy of [dayBlocks] from day-start;
    [None] is [null]. *)
Definition findGap (blocks : list Block.t) (duration : Z) : option Gap :=
  scan duration (startMin day) (sort cmpStart blocks).

(** The block pushed for a task, with the k-th identifier. *)
Definition taskBlock (t : Task.t) (k : nat) (title : string) (gap : Gap) : Block.t :=
  Block.mk (uid k) (Task.id t) title (s gap) (e gap) false false.

(** The [while (remaining > 0)] loop; one unit of [fuel] per test of
    the condition, [None] when the fuel runs out. *)
Fixpoint chunkLoop (fuel : nat) (t : Task.t) (dur : Z)
    (blocks : list Block.t) (k : nat) (remaining : Z)
    : option (list Block.t * nat * Z) :=
  match fuel with
  | O => None
  | S fuel' =>
      if 0 <? remaining then
        let chunk := chunkOf remaining in
        match findGap blocks chunk with
        | None => Some (blocks, k, remaining)
        | Some gap =>
            chunkLoop fuel' t dur
              (insertBlock blocks (taskBlock t k (chunkTitle t dur chunk) gap))
              (S k) (remaining - chunk)
        end
      else Some (blocks, k, remaining)
  end.

(** Every turn takes at least one minute off [remaining], so this much
    fuel is never used up ([placeChunks_run] below). *)
Definition placeChunks (t : Task.t) (dur : Z) (blocks : list Block.t) (k : nat)
    : list Block.t * nat * Z :=
  default (blocks, k, dur) (chunkLoop (S (Z.to_nat dur)) t dur blocks k dur).

(** The body of [for (const t of tasks)]. *)
Definition placeTask (a : Alloc) (t : Task.t) : Alloc :=
  let dur := normDuration t in
  if negb (canSplit t) then
    match findGap (dayBlocks a) dur with
    | None => mkAlloc (dayBlocks a) (unplaced a ++ [mkUnplaced t None]) (uids a)
    | Some gap =>
        mkAlloc (insertBlock (dayBlocks a) (taskBlock t (uids a) (Task.title t) gap))
          (unplaced a) (S (uids a))
    end
  else
    let '(blocks, k, remaining) := placeChunks t dur (dayBlocks a) (uids a) in
    mkAlloc blocks
      (if 0 <? remaining then unplaced a ++ [mkUnplaced t (Some remaining)]
       else unplaced a)
      k.

(** The loop [for (const t of tasks)]. *)
Definition allocate (a : Alloc) (ts : list Task.t) : Alloc := foldl placeTask a ts.
End Day.

(** The value [{ placed, unplaced }] returned by [buildSchedule]. *)
Module Schedule.
Record t := mk { placed : list Block.t; unplaced : list Unplaced }.
End Schedule.

(** [buildSchedule]: the new state and the returned [{ placed, unplaced }]. *)
Definition buildSchedule `{Host} (uid : nat → string) (st : State) (dateKey : string)
    : option (State * Schedule.t) :=
  day ← getDayRange st;
  lunch ← getLunchBlock st;
  ts ← sortTasks st (tasksToSchedule st dateKey);
  let a := allocate day uid (mkAlloc (fixedBlocks lunch) [] 0) ts in
  Some (mkState (settings st) (tasks st) (<[dateKey := dayBlocks a]> (scheduleByDate st)),
        Schedule.mk (dayBlocks a) (unplaced a)).

(** ** The schedule store *)

(** [getScheduleForDate]: a copy of the day's blocks, sorted by start. *)
Definition getScheduleForDate (st : State) (dateKey : string) : list Block.t :=
  sort cmpStart (default [] (scheduleByDate st !! dateKey)).

Definition taskById (st : State) (id : string) : option Task.t :=
  List.find (λ t, String.eqb (Task.id t) id) (tasks st).

Definition setSchedule (st : State) (dateKey : string) (blocks : list Block.t) : State :=
  mkState (settings st) (tasks st) (<[dateKey := blocks]> (scheduleByDate st)).

Definition hasOverlap (st : State) (dateKey bid : string) (s e : Z) : bool :=
  existsb
    (λ b, negb (String.eqb (Block.id b) bid)
          && negb ((e <=? Block.startMin b) || (s >=? Block.endMin b)))
    (getScheduleForDate st dateKey).

Definition moved (b : Block.t) (s e : Z) : Block.t :=
  Block.mk (Block.id b) (Block.taskId b) (Block.title b) s e (Block.fixed b) (Block.done b).

(** [moveBlock]: the block found by [findIndex] is written in place and
    the sorted copy is stored back. *)
Definition moveBlock (st : State) (dateKey bid : string) (s e : Z) : State :=
  let blocks := getScheduleForDate st dateKey in
  match findIndex (λ b, String.eqb (Block.id b) bid) blocks with
  | None => st
  | Some idx =>
      match blocks !! idx with
      | None => st
      | Some b =>
          if Block.fixed b then st
          else if hasOverlap st dateKey bid s e then st
          else setSchedule st dateKey (sort cmpStart (<[idx := moved b s e]> blocks))
      end
  end.

Definition toggled (b : Block.t) : Block.t :=
  Block.mk (Block.id b) (Block.taskId b) (Block.title b) (Block.startMin b)
    (Block.endMin b) (Block.fixed b) (negb (Block.done b)).

Definition withDone (t : Task.t) (d : bool) : Task.t :=
  Task.mk (Task.id t) (Task.title t) (Task.duration t) (Task.priority t) (Task.split t)
    (Task.deadlineDate t) (Task.deadlineTime t) (Task.createdAt t) d.

(** [taskById(id).done = d], a write to the first task with that id. *)
Definition setTaskDone (ts : list Task.t) (id : string) (d : bool) : list Task.t :=
  match findIndex (λ t, String.eqb (Task.id t) id) ts with
  | Some i =>
      match ts !! i with
      | Some t => <[i := withDone t d]> ts
      | None => ts
      end
  | None => ts
  end.

Definition toggleBlockDone (st : State) (dateKey bid : string) : State :=
  let blocks := getScheduleForDate st dateKey in
  match findIndex (λ b, String.eqb (Block.id b) bid) blocks with
  | None => st
  | Some idx =>
      match blocks !! idx with
      | None => st
      | Some b0 =>
          let b := toggled b0 in
          let blocks := <[idx := b]> blocks in
          let ts :=
            if negb (String.eqb (Block.taskId b) "")
               && negb (String.eqb (Block.taskId b) "lunch")
            then
              let related :=
                List.filter (λ x, String.eqb (Block.taskId x) (Block.taskId b)) blocks in
              let allDone := (0 <? length related)%nat && forallb Block.done related in
              setTaskDone (tasks st) (Block.taskId b) allDone
            else tasks st in
          mkState (settings st) ts (<[dateKey := blocks]> (scheduleByDate st))
      end
  end.

Definition removeBlock (st : State) (dateKey bid : string) : State :=
  let blocks := getScheduleForDate st dateKey in
  match List.find (λ x, String.eqb (Block.id x) bid) blocks with
  | None => st
  | Some b =>
      if Block.fixed b then st
      else setSchedule st dateKey
             (List.filter (λ x, negb (String.eqb (Block.id x) bid)) blocks)
  end.

(** ** The interval-list allocator ([generateSchedule])

    The older allocation loop keeps a list of free intervals and cuts
    every placed block, with its buffer, out of it.  The model is that
    of the loop over the sorted tasks; a task keeps the fields the loop
    reads. *)

Module IntervalList.

Module Interval.
Record t := mk { start : Z; end_ : Z }.
End Interval.

Module Block.
Record t := mk {
  id : string;
  title : string;
  start : Z;
  end_ : Z;
  kind : string
}.
End Block.

Module Task.
Record t := mk {
  title : string;
  duration : Z;
  split : string;
  source : string;
  listTitle : string
}.
End Task.

(** The state of the loop over the sorted tasks: [freeIntervals],
    [blocks], [unplaced] (title and remaining minutes), and the number
    of calls of [generateId] made so far. *)
Record Plan := mkPlan {
  freeIntervals : list Interval.t;
  blocks : list Block.t;
  unplaced : list (string * Z);
  uids : nat
}.

Definition cmpInterval (a b : Interval.t) : Z := Interval.start a - Interval.start b.

Definition subtractOne (busy iv : Interval.t) : list Interval.t :=
  if (Interval.end_ busy <=? Interval.start iv) || (Interval.start busy >=? Interval.end_ iv)
  then [iv]
  else
    (if Interval.start busy >? Interval.start iv
     then [Interval.mk (Interval.start iv) (Interval.start busy)] else [])
    ++ (if Interval.end_ busy <? Interval.end_ iv
        then [Interval.mk (Interval.end_ busy) (Interval.end_ iv)] else []).

Definition subtractBusy (free : list Interval.t) (busy : Interval.t) : list Interval.t :=
  sort cmpInterval (free ≫= subtractOne busy).

Definition kindOf (t : Task.t) : string :=
  if String.eqb (Task.source t) "google" then "ToDo" else "タスク".

Definition titleOf (t : Task.t) : string :=
  if String.eqb (Task.source t) "google" && negb (String.eqb (Task.listTitle t) "")
  then (Task.title t +:+ "（" +:+ Task.listTitle t +:+ "）")%string
  else Task.title t.

Section Generate.
Context (bufferMin : Z) (generateId : nat → string).

Definition blockFor (t : Task.t) (k : nat) (blockStart blockEnd : Z) : Block.t :=
  Block.mk (generateId k) (titleOf t) blockStart blockEnd (kindOf t).

(** The loop over the free intervals for a task that may be split,
    with its index [i] set back after every placement; one unit of
    [fuel] per test of the loop condition. *)
Fixpoint splitLoop (fuel : nat) (t : Task.t) (free : list Interval.t)
    (newBlocks : list Block.t) (k : nat) (remaining : Z) (i : nat)
    : option (list Interval.t * list Block.t * nat * Z) :=
  match fuel with
  | O => None
  | S fuel' =>
      match free !! i with
      | Some iv =>
          if 0 <? remaining then
            let available := Interval.end_ iv - Interval.start iv in
            if available <=? 0 then splitLoop fuel' t free newBlocks k remaining (S i)
            else
              let use := Z.min available remaining in
              let blockStart := Interval.start iv in
              let blockEnd := Interval.start iv + use in
              let busy := Interval.mk blockStart (blockEnd + bufferMin) in
              splitLoop fuel' t (subtractBusy free busy)
                (newBlocks ++ [blockFor t k blockStart blockEnd]) (S k) (remaining - use) O
          else Some (free, newBlocks, k, remaining)
      | None => Some (free, newBlocks, k, remaining)
      end
  end.

(** The body of [for (const t of sortedTasks)]. *)
Definition allocateTask (fuel : nat) (p : Plan) (t : Task.t) : option Plan :=
  let remaining := Task.duration t in
  if String.eqb (Task.split t) "不可" then
    match List.find (λ iv, Interval.end_ iv - Interval.start iv >=? remaining)
            (freeIntervals p) with
    | Some iv =>
        let blockStart := Interval.start iv in
        let blockEnd := Interval.start iv + remaining in
        let busy := Interval.mk blockStart (blockEnd + bufferMin) in
        Some (mkPlan (subtractBusy (freeIntervals p) busy)
                (blocks p ++ [blockFor t (uids p) blockStart blockEnd])
                (unplaced p) (S (uids p)))
    | None =>
        Some (mkPlan (freeIntervals p) (blocks p)
                (unplaced p ++ [(Task.title t, remaining)]) (uids p))
    end
  else
    '(free, newBlocks, k, remaining) ←
      splitLoop fuel t (freeIntervals p) [] (uids p) remaining O;
    Some (mkPlan free (blocks p ++ newBlocks)
            (if 0 <? remaining then unplaced p ++ [(Task.title t, remaining)]
             else unplaced p)
            k).

Fixpoint allocateAll (fuel : nat) (p : Plan) (ts : list Task.t) : option Plan :=
  match ts with
  | [] => Some p
  | t :: ts' => p' ← allocateTask fuel p t; allocateAll fuel p' ts'
  end.
End Generate.

End IntervalList.

(** ** A concrete host and sample inputs *)

(** Days from 1970-01-01 to the first day of month index [m] of year [y]
    in the proleptic Gregorian calendar, plus [d - 1] ([MakeDay]). *)
Definition makeDay (y m d : Z) : Z :=
  let ym := y + m / 12 in
  let mn := m mod 12 + 1 in
  let y' := if mn <=? 2 then ym - 1 else ym in
  let era := y' / 400 in
  let yoe := y' - era * 400 in
  let mp := (mn + 9) mod 12 in
  let doy := (153 * mp + 2) / 5 in
  let doe := yoe * 365 + yoe / 4 - yoe / 100 + doy in
  era * 146097 + doe - 719468 + (d - 1).

(** A host in the UTC zone. *)
Definition utcDate (y m d h mi : Z) : num :=
  let y := if (0 <=? y) && (y <=? 99) then 1900 + y else y in
  let ms := makeDay y m d * 86400000 + h * 3600000 + mi * 60000 in
  if Z.abs ms <=? 8640000000000000 then Int ms else NaN.

Definition utcHost : Host := {| hostDate := utcDate |}.

(** Identifiers as two runs of [uid()] could return them. *)
Definition uidA (k : nat) : string := ("a" +:+ pretty k)%string.
Definition uidB (k : nat) : string := ("b" +:+ pretty k)%string.

Definition sampleTask (id : string) (duration : Z) (split : string) (createdAt : Z) : Task.t :=
  Task.mk id id duration "中" split "" "" createdAt false.

Definition sampleState (dayStart dayEnd : string) (buffer : Z) (lunch : string)
    (ts : list Task.t) : State :=
  mkState (Settings.mk "2026-01-15" dayStart dayEnd buffer "due" lunch) ts ∅.

(** ** Formatting and escaping *)

(** [String(n)] for an integer [n]: JavaScript prints every digit of an
    integer below [10^21], with a minus sign in front of a negative
    one. *)
Definition toString (n : Z) : string := pretty n.

(** [s.padStart(2, "0")]. *)
Definition padStart2 (s : string) : string :=
  match String.length s with
  | O => "00"
  | S O => ("0" +:+ s)%string
  | _ => s
  end.

Definition pad2 (n : Z) : string := padStart2 (toString n).

(** [minToHHMM]: [Math.floor(min / 60)], and [min % 60], the remainder
    that has the sign of [min]. *)
Definition minToHHMM (min : Z) : string :=
  (pad2 (min / 60) +:+ ":" +:+ pad2 (Z.rem min 60))%string.

Definition clamp (v a b : Z) : Z := Z.max a (Z.min b v).

(** [Math.round(x / d)] for integers [x] and [d > 0]:
    [floor (x/d + 1/2)]. *)
Definition roundDiv (x d : Z) : Z := (2 * x + d) / (2 * d).

(** The double quote. *)
Definition quote : ascii := "034"%char.

(** The replacement of one character by [escapeHTML].  The characters
    that are replaced are ASCII, so that working on the bytes of the
    UTF-8 form of the string gives the UTF-8 form of the result. *)
Definition entity (c : ascii) : string :=
  if Ascii.eqb c "&" then "&amp;"
  else if Ascii.eqb c "<" then "&lt;"
  else if Ascii.eqb c ">" then "&gt;"
  else if Ascii.eqb c quote then "&quot;"
  else if Ascii.eqb c "'" then "&#39;"
  else String c "".

(** [escapeHTML]: one pass of [replace] over the five characters. *)
Fixpoint escapeHTML (s : string) : string :=
  match s with
  | String c s' => (entity c +:+ escapeHTML s')%string
  | EmptyString => ""
  end.

(** [s.replaceAll(c, r)] for a pattern [c] of one character. *)
Fixpoint replaceAll (c : ascii) (r : string) (s : string) : string :=
  match s with
  | String x s' =>
      if Ascii.eqb x c then (r +:+ replaceAll c r s')%string
      else String x (replaceAll c r s')
  | EmptyString => ""
  end.

(** [escapeHtml_] of the older version: five passes, the ampersand
    first. *)
Definition escapeHtml_ (s : string) : string :=
  replaceAll "'" "&#39;"
    (replaceAll quote "&quot;"
       (replaceAll ">" "&gt;"
          (replaceAll "<" "&lt;"
             (replaceAll "&" "&amp;" s)))).

(** ** Further operations on the state *)

(** [v || d] for a string [v]. *)
Definition orElse (v d : string) : string := if String.eqb v "" then d else v.

(** [generate]: the schedule of the day of the settings. *)
Definition generate `{Host} (uid : nat → string) (st : State) : option (State * Schedule.t) :=
  buildSchedule uid st (Settings.date (settings st)).

(** The update of the [Map] [counts] for one block. *)
Definition addCount (counts : gmap string Z) (b : Block.t) : gmap string Z :=
  <[Block.taskId b :=
      default 0 (counts !! Block.taskId b) + (Block.endMin b - Block.startMin b)]> counts.

(** [computeUnplaced]: the pairs [{ t, need }]. *)
Definition computeUnplaced (st : State) (dateKey : string) : list (Task.t * Z) :=
  let placed :=
    List.filter (λ b, negb (String.eqb (Block.taskId b) "lunch"))
      (getScheduleForDate st dateKey) in
  let counts := foldl addCount ∅ placed in
  omap
    (λ t,
       if Task.done t then None
       else
         let placedMin := default 0 (counts !! Task.id t) in
         let need := Z.max 0 (roundDiv5 (Task.duration t) * 5 - placedMin) in
         if 0 <? need then Some (t, need) else None)
    (tasks st).

(** [addTask]: [state.tasks.unshift(t)]. *)
Definition addTask (st : State) (t : Task.t) : State :=
  mkState (settings st) (t :: tasks st) (scheduleByDate st).

(** [deleteTask]: the task goes, and its blocks on all dates. *)
Definition deleteTask (st : State) (id : string) : State :=
  mkState (settings st)
    (List.filter (λ t, negb (String.eqb (Task.id t) id)) (tasks st))
    (List.filter (λ b, negb (String.eqb (Block.taskId b) id)) <$> scheduleByDate st).

Definition withBlockDone (b : Block.t) (d : bool) : Block.t :=
  Block.mk (Block.id b) (Block.taskId b) (Block.title b) (Block.startMin b)
    (Block.endMin b) (Block.fixed b) d.

(** [toggleTaskDone]: the flag of the task found by [taskById] is
    flipped and copied to its blocks on all dates. *)
Definition toggleTaskDone (st : State) (id : string) : State :=
  match taskById st id with
  | None => st
  | Some t =>
      let d := negb (Task.done t) in
      mkState (settings st) (setTaskDone (tasks st) id d)
        ((λ bs : list Block.t,
            (λ b, if String.eqb (Block.taskId b) id then withBlockDone b d else b) <$> bs)
           <$> scheduleByDate st)
  end.

(** [clearToday]: only the lunch blocks of the day of the settings are
    kept. *)
Definition clearToday (st : State) : State :=
  let dateKey := Settings.date (settings st) in
  let keepLunch :=
    List.filter (λ b, String.eqb (Block.taskId b) "lunch")
      (default [] (scheduleByDate st !! dateKey)) in
  setSchedule st dateKey keepLunch.

(** ** Dragging a block *)

(** The object [drag] set by [onPointerDown]. *)
Module Drag.
Record t := mk {
  bid : string;
  dateKey : string;
  startY : Z;
  origStart : Z;
  dur : Z;
  startMin : Z;
  endMin : Z;
  pxPerMin : Z
}.
End Drag.

(** [onPointerDown] at the ordinate [clientY] (a whole number of
    pixels); [None] when nothing is dragged: the block is not in the
    schedule, or a bound of the day is [NaN], which makes every preview
    [NaN] and the release do nothing. *)
Definition onPointerDown (st : State) (dateKey bid : string) (clientY : Z)
    : option Drag.t :=
  b ← List.find (λ x, String.eqb (Block.id x) bid) (getScheduleForDate st dateKey);
  day ← getDayRange st;
  Some (Drag.mk bid dateKey clientY (Block.startMin b)
          (Block.endMin b - Block.startMin b) (startMin day) (endMin day) 2).

(** [onPointerMove]: the previewed start and end, on the 5-minute
    steps from the original start and clamped to the day. *)
Definition onPointerMove (d : Drag.t) (clientY : Z) : Z * Z :=
  let dy := clientY - Drag.startY d in
  let deltaMin := roundDiv dy (Drag.pxPerMin d * 5) * 5 in
  let newStart :=
    clamp (Drag.origStart d + deltaMin) (Drag.startMin d) (Drag.endMin d - Drag.dur d) in
  let newEnd := newStart + Drag.dur d in
  (newStart, newEnd).

(** [onPointerUp] with the last preview. *)
Definition onPointerUp (st : State) (d : Drag.t) (preview : Z * Z) : State :=
  moveBlock st (Drag.dateKey d) (Drag.bid d) preview.1 preview.2.

(** A whole gesture: press at [y0], move to [y1], release. *)
Definition dragBlock (st : State) (dateKey bid : string) (y0 y1 : Z) : State :=
  match onPointerDown st dateKey bid y0 with
  | None => st
  | Some d => onPointerUp st d (onPointerMove d y1)
  end.

(** ** The forms *)

(** The handler of the settings form, on the values of its fields
    ([buf] is the number in the buffer field, an integer; [today] is
    [formatJPDate(new Date())]).  A time without minutes is [NaN], which
    the test [eMin - sMin < 60] lets pass. *)
Definition submitSettings (st : State) (today date start end_ : string) (buf : Z)
    (strategy lunch : string) : State :=
  let d := orElse date today in
  let start := orElse start "07:00" in
  let end_ := orElse end_ "23:00" in
  let strategy := orElse strategy "due" in
  let lunch := orElse lunch "none" in
  match parseTimeToMin start, parseTimeToMin end_ with
  | Some sMin, Some eMin =>
      let tooShort :=
        match sMin, eMin with
        | Int s, Int e => e - s <? 60
        | _, _ => false
        end in
      if tooShort then st
      else mkState (Settings.mk d start end_ (clamp buf 0 60) strategy lunch)
             (tasks st) (scheduleByDate st)
  | _, _ => st
  end.

Definition retitled (b : Block.t) (title : string) : Block.t :=
  Block.mk (Block.id b) (Block.taskId b) title (Block.startMin b) (Block.endMin b)
    (Block.fixed b) (Block.done b).

(** The handler of the task form, on the values of its fields: [title]
    is the trimmed title, [duration] the number in the duration field
    (an integer), [editing] the id under edit or the empty string,
    [newId] and [now] the results of [uid()] and [Date.now()]. *)
Definition submitTask (newId : string) (now : Z) (st : State) (editing title : string)
    (duration : Z) (deadlineDate deadlineTime priority split : string) : State :=
  if String.eqb title "" then st
  else if (duration =? 0) || (duration <? 5) then st
  else
    let t :=
      Task.mk newId title (roundDiv5 duration * 5) (orElse priority "中")
        (orElse split "可") deadlineDate deadlineTime now false in
    if negb (String.eqb editing "") then
      match findIndex (λ x, String.eqb (Task.id x) editing) (tasks st) with
      | Some i =>
          match tasks st !! i with
          | Some old =>
              let old' :=
                Task.mk (Task.id old) (Task.title t) (Task.duration t) (Task.priority t)
                  (Task.split t) (Task.deadlineDate t) (Task.deadlineTime t)
                  (Task.createdAt old) false in
              mkState (settings st) (<[i := old']> (tasks st))
                ((λ bs : list Block.t,
                    (λ b, if String.eqb (Block.taskId b) (Task.id old)
                          then retitled b (Task.title old') else b) <$> bs)
                   <$> scheduleByDate st)
          | None => st
          end
      | None => st
      end
    else addTask st t.

(** ** The older version: calendar events and dragging on the timeline *)

(** An event of the calendar cache, with integer minutes. *)
Module Event.
Record t := mk { id : string; title : string; startMin : Z; endMin : Z }.
End Event.

(** The body of [for (const ev of googleEvents)]: the event is cut to
    the day, skipped when nothing is left, and its time taken out of
    the free intervals. *)
Definition reserveEvent (startDay endDay : Z) (generateId : nat → string)
    (p : IntervalList.Plan) (ev : Event.t) : IntervalList.Plan :=
  let busy :=
    IntervalList.Interval.mk (Z.max startDay (Event.startMin ev))
      (Z.min endDay (Event.endMin ev)) in
  if IntervalList.Interval.end_ busy <=? IntervalList.Interval.start busy then p
  else
    let fresh := String.eqb (Event.id ev) "" in
    IntervalList.mkPlan
      (IntervalList.subtractBusy (IntervalList.freeIntervals p) busy)
      (IntervalList.blocks p
         ++ [IntervalList.Block.mk
               ("E_" +:+ (if fresh then generateId (IntervalList.uids p) else Event.id ev))
               (orElse (Event.title ev) "(予定)")
               (IntervalList.Interval.start busy) (IntervalList.Interval.end_ busy) "予定"])
      (IntervalList.unplaced p)
      (if fresh then S (IntervalList.uids p) else IntervalList.uids p).

(** [generateSchedule] from the sorted tasks on: [Some None] is the
    refusal of a day that does not end after its start, the outer
    [None] the end of the fuel. *)
Definition generateSchedule (fuel : nat) (startDay endDay bufferMin : Z)
    (generateId : nat → string) (googleEvents : list Event.t)
    (sortedTasks : list IntervalList.Task.t) : option (option IntervalList.Plan) :=
  if endDay <=? startDay then Some None
  else
    let p0 :=
      IntervalList.mkPlan [IntervalList.Interval.mk startDay endDay] [] [] 0 in
    let p1 := foldl (reserveEvent startDay endDay generateId) p0 googleEvents in
    Some <$> IntervalList.allocateAll bufferMin generateId fuel p1 sortedTasks.

(** * Specification vocabulary and sample inputs *)

(** ** Orders and sums *)

(** [x] may come before [y] under the comparator [cmp]. *)
Definition cmpLe {A : Type} (cmp : A → A → Z) (x y : A) : Prop := cmp x y <= 0.

(** ** The gap finder *)

(** The specification's reading of the scan: a forward cursor that
    starts at day-start and, for each occupied region passed, advances
    to [max(cursor, occupied-end + buffer)]. *)
Definition advance (buffer cur : Z) (b : Block.t) : Z :=
  Z.max cur (Block.endMin b + buffer).

(** The cursor after the first [i] blocks, from the cursor [cur]. *)
Definition cursorFrom (buffer cur : Z) (blocks : list Block.t) (i : nat) : Z :=
  foldl (advance buffer) cur (take i blocks).

(** Position [i] fits a request of [n] minutes: the cursor plus [n] does
    not exceed the start of the next occupied region, or day-end once
    all regions are passed. *)
Definition fitsFrom (dayEnd buffer cur : Z) (blocks : list Block.t) (n : Z) (i : nat) : Prop :=
  match blocks !! i with
  | Some b => cursorFrom buffer cur blocks i + n <= Block.startMin b
  | None => cursorFrom buffer cur blocks i + n <= dayEnd
  end.

(** The same two notions for the scan that starts at day-start. *)
Definition cursorAt (day : DayRange) : list Block.t → nat → Z :=
  cursorFrom (buffer day) (startMin day).

Definition fitsAt (day : DayRange) : list Block.t → Z → nat → Prop :=
  fitsFrom (endMin day) (buffer day) (startMin day).

(** [i] is the first position that fits. *)
Definition firstFit (day : DayRange) (blocks : list Block.t) (n : Z) (i : nat) : Prop :=
  (i <= length blocks)%nat ∧ fitsAt day blocks n i ∧
  ∀ j, (j < i)%nat → ¬ fitsAt day blocks n j.

(** A position that fits before day-end, as the specification asks of
    every result: the position fits, and the request placed there ends
    by day-end. *)
Definition fitsBeforeEnd (day : DayRange) (blocks : list Block.t) (n : Z) (i : nat) : Prop :=
  fitsAt day blocks n i ∧ cursorAt day blocks i + n <= endMin day.

(** ** Invariants of the allocation loop *)

(** [R] holds between every element and every later one. *)
Fixpoint pairwise {A : Type} (R : A → A → Prop) (l : list A) : Prop :=
  match l with
  | [] => True
  | x :: l' => Forall (R x) l' ∧ pairwise R l'
  end.

(** Two blocks are apart: they do not overlap, and whichever of them is
    not fixed starts at least [buffer] after the other when it comes
    later. *)
Definition apart (buffer : Z) (X Y : Block.t) : Prop :=
  (Block.endMin X <= Block.startMin Y ∨ Block.endMin Y <= Block.startMin X)
  ∧ (Block.fixed Y = false →
     Block.endMin X + buffer <= Block.startMin Y ∨ Block.endMin Y <= Block.startMin X)
  ∧ (Block.fixed X = false →
     Block.endMin Y + buffer <= Block.startMin X ∨ Block.endMin X <= Block.startMin Y).

(** The invariant of [dayBlocks]: sorted by start, blocks of positive
    length that are pairwise apart, and every block that is not fixed
    starts at day-start or exactly [buffer] after the end of some
    block. *)
Record separated (day : DayRange) (blocks : list Block.t) : Prop := {
  sep_sorted : StronglySorted (λ a b, Block.startMin a <= Block.startMin b) blocks;
  sep_positive : ∀ X, X ∈ blocks → Block.startMin X < Block.endMin X;
  sep_apart : pairwise (apart (buffer day)) blocks;
  sep_anchor : ∀ Y, Y ∈ blocks → Block.fixed Y = false →
    Block.startMin Y = startMin day
    ∨ ∃ X, X ∈ blocks ∧ Block.startMin Y = Block.endMin X + buffer day
}.

(** Every block lies in the day window. *)
Definition inDay (day : DayRange) (blocks : list Block.t) : Prop :=
  ∀ b, b ∈ blocks →
    startMin day <= Block.startMin b ∧ Block.startMin b < Block.endMin b
    ∧ Block.endMin b <= endMin day.

(** ** Bounds *)

(** [ceil (remaining / 30)] for a non-negative [remaining]. *)
Definition chunkBound (remaining : Z) : Z := (Z.max 0 remaining + 29) / 30.

(** ** Minutes placed and minutes left *)

(** The sum of [f] over a list. *)
Definition sumZ {A : Type} (f : A → Z) (l : list A) : Z :=
  foldr (λ x acc, f x + acc) 0 l.

(** The minutes a block contributes to the task [tid]: its length when
    it was placed for that task. *)
Definition minutesFor (tid : string) (b : Block.t) : Z :=
  if String.eqb (Block.taskId b) tid && negb (Block.fixed b)
  then Block.endMin b - Block.startMin b else 0.

(** The minutes of the blocks placed for the task [tid]. *)
Definition placedMinutes (tid : string) (blocks : list Block.t) : Z :=
  sumZ (minutesFor tid) blocks.

(** The remainder an entry of [unplaced] records: [_remaining], or the
    whole duration of the task when the entry is the task itself. *)
Definition recorded (u : Unplaced) : Z :=
  default (Task.duration (task u)) (_remaining u).

(** The remainder recorded for the task [tid]; [0] without an entry. *)
Definition unplacedMinutes (tid : string) (us : list Unplaced) : Z :=
  sumZ (λ u, if String.eqb (Task.id (task u)) tid then recorded u else 0) us.

(** The duration of [t] when [t] is the task [tid]. *)
Definition durationFor (tid : string) (t : Task.t) : Z :=
  if String.eqb (Task.id t) tid then Task.duration t else 0.

(** ** Ranking orders *)

(** The orders of the specification, on keyed tasks: a deadline instant
    is earlier than another one, and [+infinity] (no deadline) is later
    than every instant. *)
Definition ext_lt (a b : ext) : Prop :=
  match a, b with
  | Fin x, Fin y => x < y
  | Fin _, PInf => True
  | PInf, _ => False
  end.

(** The priority score of a keyed task. *)
Definition score (k : Keyed) : Z := priorityScore (Task.priority (kt k)).

(** Deadline ascending, then priority descending, then creation time
    ascending. *)
Definition deadlineFirst (a b : Keyed) : Prop :=
  ext_lt (dlMs a) (dlMs b)
  ∨ (dlMs a = dlMs b
     ∧ (score a > score b
        ∨ (score a = score b ∧ Task.createdAt (kt a) <= Task.createdAt (kt b)))).

(** Priority descending, then deadline ascending, then creation time
    ascending. *)
Definition priorityFirst (a b : Keyed) : Prop :=
  score a > score b
  ∨ (score a = score b
     ∧ (ext_lt (dlMs a) (dlMs b)
        ∨ (dlMs a = dlMs b ∧ Task.createdAt (kt a) <= Task.createdAt (kt b)))).


(** ** Chunk sizes *)

(** The preference list of the specification. *)
Definition candidates (remaining : Z) : list Z := [60; 45; 30; remaining].

(** The first candidate that does not exceed [remaining]. *)
Definition preferred (remaining : Z) : option Z :=
  List.find (λ c, c <=? remaining) (candidates remaining).

(** The choice as the specification words it: the first candidate that
    does not exceed [remaining] and for which a gap exists. *)
Definition preferredWithGap (day : DayRange) (blocks : list Block.t) (remaining : Z)
    : option Z :=
  List.find (λ c, (c <=? remaining) && bool_decide (is_Some (findGap day blocks c)))
    (candidates remaining).

(** The chunk loop as a relation: while minutes remain, the chunk is
    [chunkOf remaining]; a gap for it is filled and the loop goes on,
    no gap for it ends the loop. *)
Inductive chunkRun (day : DayRange) (uid : nat → string) (t : Task.t) (dur : Z)
    : list Block.t → nat → Z → list Block.t → nat → Z → Prop :=
  | run_done blocks k remaining :
      remaining <= 0 → chunkRun day uid t dur blocks k remaining blocks k remaining
  | run_stop blocks k remaining :
      0 < remaining → findGap day blocks (chunkOf remaining) = None →
      chunkRun day uid t dur blocks k remaining blocks k remaining
  | run_place blocks k remaining gap blocks' k' remaining' :
      0 < remaining → findGap day blocks (chunkOf remaining) = Some gap →
      chunkRun day uid t dur
        (insertBlock blocks
           (taskBlock uid t k (chunkTitle t dur (chunkOf remaining)) gap))
        (S k) (remaining - chunkOf remaining) blocks' k' remaining' →
      chunkRun day uid t dur blocks k remaining blocks' k' remaining'.

(** ** Identifiers *)

(** A block without its identifier. *)
Definition anonymous (b : Block.t) : Block.t :=
  Block.mk "" (Block.taskId b) (Block.title b) (Block.startMin b) (Block.endMin b)
    (Block.fixed b) (Block.done b).

(** Two blocks agree in everything but the identifier. *)
Definition sameButId (b1 b2 : Block.t) : Prop := anonymous b1 = anonymous b2.

(** The loop state with anonymous blocks. *)
Definition anonymousAlloc (a : Alloc) : Alloc :=
  mkAlloc (anonymous <$> dayBlocks a) (unplaced a) (uids a).

(** The identifier source of the anonymous run. *)
Definition noUid (k : nat) : string := "".

(** ** Samples *)

(** Tasks with deadlines: none, a date alone, and a date with a time. *)
Definition dueTask (id priority date time : string) (createdAt : Z) : Task.t :=
  Task.mk id id 30 priority "可" date time createdAt false.

Definition rankSample : list Task.t :=
  [dueTask "A" "高" "" "" 1; dueTask "B" "低" "2026-01-16" "" 2;
   dueTask "C" "中" "2026-01-16" "12:00" 3; dueTask "D" "高" "2026-01-16" "12:00" 4].

(** A day that ends before the lunch window starts, without buffer, and
    two tasks that may not be split. *)
Definition pastEndSample : State :=
  sampleState "07:00" "11:00" 0 "12:00-13:00"
    [sampleTask "t1" 250 "不可" 1; sampleTask "t2" 30 "不可" 2].

(** A state whose store holds two task blocks and the lunch block. *)
Definition storeSample : State :=
  mkState (Settings.mk "2026-01-15" "09:00" "18:00" 10 "due" "12:00-13:00")
    [sampleTask "t1" 60 "不可" 1; sampleTask "t2" 60 "不可" 2]
    {[ "2026-01-15" :=
         [Block.mk "a0" "t1" "t1" 540 600 false false;
          Block.mk "a1" "t2" "t2" 610 670 false false;
          lunchBlock (720, 780)] ]}.

(** The length of a block of the interval-list allocator. *)
Definition slotMinutes (b : IntervalList.Block.t) : Z :=
  IntervalList.Block.end_ b - IntervalList.Block.start b.

(** ** Vocabulary of the further properties *)

(** Two blocks do not overlap (they may touch). *)
Definition noOverlap (X Y : Block.t) : Prop :=
  Block.endMin X <= Block.startMin Y ∨ Block.endMin Y <= Block.startMin X.

(** A start [p] at which [n] minutes could be placed: at or after
    day-start, ending by day-end, and for every block either [buffer]
    after its end or ending by its start. *)
Definition feasible (day : DayRange) (blocks : list Block.t) (n p : Z) : Prop :=
  startMin day <= p ∧ p + n <= endMin day
  ∧ ∀ b, b ∈ blocks → Block.endMin b + buffer day <= p ∨ p + n <= Block.startMin b.

(** The identifiers of the blocks: ["lunch"] or one of the identifiers
    drawn so far, and no two alike. *)
Definition idsBelow (uid : nat → string) (blocks : list Block.t) (k : nat) : Prop :=
  NoDup (Block.id <$> blocks)
  ∧ ∀ b, b ∈ blocks → Block.id b = "lunch" ∨ ∃ j, (j < k)%nat ∧ Block.id b = uid j.

(** The block [b] was placed for the task [t]: it names [t], it is at
    most as long as the rounded duration of [t], and it carries the
    title of [t], with the mark of a split unless it holds the whole
    duration. *)
Definition placedFor (t : Task.t) (b : Block.t) : Prop :=
  Block.taskId b = Task.id t
  ∧ 0 < Block.endMin b - Block.startMin b <= normDuration t
  ∧ Block.title b
    = (if Block.endMin b - Block.startMin b =? normDuration t then Task.title t
       else (Task.title t +:+ "（分割）")%string).

(** The entry [u] of [unplaced] as the loop writes it: the task itself
    for a task that may not be split, the task with the minutes left
    for one that may. *)
Definition leftFor (u : Unplaced) : Prop :=
  match _remaining u with
  | Some r => canSplit (task u) = true ∧ 0 < r <= normDuration (task u)
  | None => canSplit (task u) = false
  end.

(** The length of a block, in minutes. *)
Definition blockMinutes (b : Block.t) : Z := Block.endMin b - Block.startMin b.

(** The minutes a block contributes to the count of the task id [tid]
    in [computeUnplaced]. *)
Definition countedFor (tid : string) (b : Block.t) : Z :=
  if String.eqb (Block.taskId b) tid then blockMinutes b else 0.

(** The entry of the unplaced summary for a task, from the remainder
    [r] the allocator recorded for it. *)
Definition summaryEntry (us : list Unplaced) (t : Task.t) : option (Task.t * Z) :=
  if Task.done t then None
  else
    let r := unplacedMinutes (Task.id t) us in
    if 0 <? r then Some (t, r) else None.

(** A task on the 5-minute grid: what the task form stores. *)
Definition onGrid (t : Task.t) : Prop :=
  5 <= Task.duration t ∧ Task.duration t mod 5 = 0.

(** The character [c] occurs in the string. *)
Fixpoint occurs (c : ascii) (s : string) : Prop :=
  match s with
  | String x s' => x = c ∨ occurs c s'
  | EmptyString => False
  end.

(** A string of decimal digits. *)
Fixpoint allDigits (s : string) : Prop :=
  match s with
  | String c s' => is_Some (digitOf c) ∧ allDigits s'
  | EmptyString => True
  end.

(** ** Vocabulary of the interval-list allocator *)

(** The minute [x] lies in the interval. *)
Definition covers (iv : IntervalList.Interval.t) (x : Z) : Prop :=
  IntervalList.Interval.start iv <= x < IntervalList.Interval.end_ iv.

(** A block pushed for a calendar event. *)
Definition isEvent (b : IntervalList.Block.t) : bool :=
  String.eqb (IntervalList.Block.kind b) "予定".

(** The end of the time a block takes out of the free intervals: its
    end, plus the buffer for a block placed for a task. *)
Definition gapAfter (bufferMin : Z) (b : IntervalList.Block.t) : Z :=
  IntervalList.Block.end_ b + (if isEvent b then 0 else bufferMin).

(** A block [Y] placed for a task keeps clear of an earlier block [X]:
    it starts at or after the end of [X] plus the buffer of [X], or it
    ends by the start of [X]. *)
Definition keepsClear (bufferMin : Z) (X Y : IntervalList.Block.t) : Prop :=
  isEvent Y = false →
  gapAfter bufferMin X <= IntervalList.Block.start Y
  ∨ IntervalList.Block.end_ Y <= IntervalList.Block.start X.

(** A block of positive length inside the day. *)
Definition insideDay (startDay endDay : Z) (b : IntervalList.Block.t) : Prop :=
  startDay <= IntervalList.Block.start b
  ∧ IntervalList.Block.start b < IntervalList.Block.end_ b
  ∧ IntervalList.Block.end_ b <= endDay.

(** The invariant of the plan: the free intervals have a positive
    length and lie in the day, no free interval meets the time taken by
    a block, the blocks lie in the day, and every block placed for a
    task keeps clear of the blocks before it. *)
Record planOk (startDay endDay bufferMin : Z) (blocks : list IntervalList.Block.t)
    (free : list IntervalList.Interval.t) : Prop := {
  ok_free : ∀ iv, iv ∈ free →
    startDay <= IntervalList.Interval.start iv
    ∧ IntervalList.Interval.start iv < IntervalList.Interval.end_ iv
    ∧ IntervalList.Interval.end_ iv <= endDay;
  ok_taken : ∀ b iv, b ∈ blocks → iv ∈ free →
    gapAfter bufferMin b <= IntervalList.Interval.start iv
    ∨ IntervalList.Interval.end_ iv <= IntervalList.Block.start b;
  ok_inside : ∀ b, b ∈ blocks → insideDay startDay endDay b;
  ok_clear : pairwise (keepsClear bufferMin) blocks
}.

(** ** Room in the day *)

(** The room a task takes at most: its rounded duration and a buffer
    after each of its blocks (one block for a task that may not be
    split, at most [chunkBound] blocks for one that may). *)
Definition cost (buffer : Z) (t : Task.t) : Z :=
  normDuration t
  + buffer * (if canSplit t then chunkBound (normDuration t) else 1).

(** The rounded duration of [t] when [t] is the task [tid]: the minutes
    the allocator has to place for it. *)
Definition roundedFor (tid : string) (t : Task.t) : Z :=
  if String.eqb (Task.id t) tid then normDuration t else 0.

(** The minutes from day-start that the lunch block and its buffer
    close off. *)
Definition reserved (day : DayRange) (lunch : option (Z * Z)) : Z :=
  match lunch with
  | Some l => Z.max 0 (snd l + buffer day - startMin day)
  | None => 0
  end.

(** Every block ends, with its buffer, within the first [u] minutes of
    the day. *)
Definition packed (day : DayRange) (blocks : list Block.t) (u : Z) : Prop :=
  ∀ b, b ∈ blocks → Block.endMin b + buffer day <= startMin day + u.

(** * Properties *)

(** ** The stable sort *)

Section SortFacts.
Context {A : Type} (cmp : A → A → Z).

Hypothesis cmp_total : ∀ x y, cmpLe cmp x y ∨ cmpLe cmp y x.
Hypothesis cmp_trans : ∀ x y z, cmpLe cmp x y → cmpLe cmp y z → cmpLe cmp x z.

Lemma insertSorted_Permutation x l : insertSorted cmp x l ≡ₚ x :: l.
Proof.
  induction l as [|y l IH]; simpl; [done|].
  destruct (cmp x y <=? 0); [done|].
  rewrite IH. apply Permutation_swap.
Qed.

Lemma sort_Permutation l : sort cmp l ≡ₚ l.
Proof.
  induction l as [|x l IH]; simpl; [done|].
  by rewrite insertSorted_Permutation, IH.
Qed.

Lemma insertSorted_sorted x l :
  StronglySorted (cmpLe cmp) l → StronglySorted (cmpLe cmp) (insertSorted cmp x l).
Proof using cmp_total cmp_trans.
  induction 1 as [|y l Hl IH Hy]; simpl.
  - repeat constructor.
  - destruct (Z.leb_spec (cmp x y) 0) as [Hxy|Hxy].
    + constructor; [by constructor|].
      constructor; [done|].
      eapply Forall_impl; [exact Hy|]. intros z Hz. by eapply cmp_trans.
    + constructor; [done|].
      rewrite insertSorted_Permutation. constructor; [|done].
      destruct (cmp_total x y) as [H'|H']; [unfold cmpLe in H'; lia|done].
Qed.

Lemma sort_sorted l : StronglySorted (cmpLe cmp) (sort cmp l).
Proof using cmp_total cmp_trans.
  induction l as [|x l IH]; simpl; [constructor|by apply insertSorted_sorted].
Qed.

(** Sorting leaves a sorted array as it is: the sort is stable. *)
Lemma sort_sorted_id l : StronglySorted (cmpLe cmp) l → sort cmp l = l.
Proof.
  induction 1 as [|x l Hl IH Hx]; simpl; [done|].
  rewrite IH. destruct Hx as [|y l' Hxy _]; simpl; [done|].
  unfold cmpLe in Hxy. by destruct (Z.leb_spec (cmp x y) 0); [|lia].
Qed.

Lemma sort_idempotent l : sort cmp (sort cmp l) = sort cmp l.
Proof using cmp_total cmp_trans. apply sort_sorted_id, sort_sorted. Qed.
End SortFacts.

Lemma cmpStart_total (a b : Block.t) : cmpLe cmpStart a b ∨ cmpLe cmpStart b a.
Proof. unfold cmpLe, cmpStart. lia. Qed.

Lemma cmpStart_trans (a b c : Block.t) :
  cmpLe cmpStart a b → cmpLe cmpStart b c → cmpLe cmpStart a c.
Proof. unfold cmpLe, cmpStart. lia. Qed.

Lemma sort_cmpStart_sorted (l : list Block.t) :
  StronglySorted (λ a b, Block.startMin a <= Block.startMin b) (sort cmpStart l).
Proof.
  induction (sort_sorted cmpStart cmpStart_total cmpStart_trans l) as [|x l' _ IH Hx];
    constructor; [done|].
  eapply Forall_impl; [exact Hx|]. unfold cmpLe, cmpStart. intros; lia.
Qed.

(** ** The gap finder *)

Section ScanFacts.
Context (day : DayRange).

Lemma scan_Some n cur blocks g :
  scan day n cur blocks = Some g →
  ∃ i, (i <= length blocks)%nat
       ∧ fitsFrom (endMin day) (buffer day) cur blocks n i
       ∧ (∀ j, (j < i)%nat → ¬ fitsFrom (endMin day) (buffer day) cur blocks n j)
       ∧ g = mkGap (cursorFrom (buffer day) cur blocks i)
                   (cursorFrom (buffer day) cur blocks i + n).
Proof.
  revert cur. induction blocks as [|b rest IH]; intros cur; simpl.
  - destruct (Z.leb_spec (cur + n) (endMin day)) as [Hle|Hgt]; [|done].
    intros [= <-]. exists O. unfold fitsFrom, cursorFrom. simpl.
    split_and!; [lia|done|intros; lia|done].
  - destruct (Z.leb_spec (cur + n) (Block.startMin b)) as [Hle|Hgt].
    + intros [= <-]. exists O. unfold fitsFrom, cursorFrom. simpl.
      split_and!; [lia|done|intros; lia|done].
    + intros Hs. destruct (IH _ Hs) as (i & Hi & Hfit & Hmin & ->).
      exists (S i). split_and!; [simpl; lia|exact Hfit| |done].
      intros [|j] Hj.
      * unfold fitsFrom, cursorFrom. simpl. lia.
      * apply (Hmin j). lia.
Qed.

Lemma scan_None n cur blocks :
  scan day n cur blocks = None →
  ∀ i, (i <= length blocks)%nat → ¬ fitsFrom (endMin day) (buffer day) cur blocks n i.
Proof.
  revert cur. induction blocks as [|b rest IH]; intros cur; simpl.
  - destruct (Z.leb_spec (cur + n) (endMin day)) as [Hle|Hgt]; [done|].
    intros _ i Hi. unfold fitsFrom, cursorFrom. rewrite lookup_nil, take_nil. simpl. lia.
  - destruct (Z.leb_spec (cur + n) (Block.startMin b)) as [Hle|Hgt]; [done|].
    intros Hs [|i] Hi.
    + unfold fitsFrom, cursorFrom. simpl. lia.
    + apply (IH _ Hs i). lia.
Qed.
End ScanFacts.

(** The scan of [findGap], index by index: the blocks are taken in
    start order (a sorted permutation of the current blocks), the cursor
    starts at day-start and advances to [max(cursor, block-end + buffer)]
    past each block, the result is the cursor position of the first
    index where cursor + n does not exceed the next block's start (or
    day-end after the last block), and there is no result exactly when
    no index fits.  A fit in front of a block is not compared with
    day-end. *)
Lemma findGap_first_fit (day : DayRange) (blocks : list Block.t) (n : Z) :
  let sorted := sort cmpStart blocks in
  sorted ≡ₚ blocks
  ∧ StronglySorted (λ a b, Block.startMin a <= Block.startMin b) sorted
  ∧ cursorAt day sorted 0 = startMin day
  ∧ (∀ i b, sorted !! i = Some b →
       cursorAt day sorted (S i)
       = Z.max (cursorAt day sorted i) (Block.endMin b + buffer day))
  ∧ (∀ g, findGap day blocks n = Some g ↔
       ∃ i, firstFit day sorted n i
            ∧ g = mkGap (cursorAt day sorted i) (cursorAt day sorted i + n))
  ∧ (findGap day blocks n = None ↔
       ∀ i, (i <= length sorted)%nat → ¬ fitsAt day sorted n i).
Proof.
  intros sorted.
  assert (HS : ∀ g, findGap day blocks n = Some g →
            ∃ i, firstFit day sorted n i
                 ∧ g = mkGap (cursorAt day sorted i) (cursorAt day sorted i + n)).
  { intros g Hg. destruct (scan_Some day _ _ _ _ Hg) as (i & ? & ? & ? & ?).
    exists i. by split_and!. }
  assert (HN : findGap day blocks n = None →
            ∀ i, (i <= length sorted)%nat → ¬ fitsAt day sorted n i).
  { apply scan_None. }
  split; [apply sort_Permutation|].
  split; [apply sort_cmpStart_sorted|].
  split; [done|].
  split.
  { intros i b Hb. unfold cursorAt, cursorFrom.
    rewrite (take_S_r _ _ _ Hb), foldl_app. done. }
  split.
  - intros g. split; [apply HS|].
    intros (i & (Hi & Hfit & Hmin) & ->).
    destruct (findGap day blocks n) as [g'|] eqn:Hg.
    + destruct (HS g' eq_refl) as (i' & (Hi' & Hfit' & Hmin') & ->).
      destruct (Nat.lt_trichotomy i i') as [Hlt|[->|Hlt]]; [|done|].
      * destruct (Hmin' i Hlt Hfit).
      * destruct (Hmin i' Hlt Hfit').
    + destruct (HN eq_refl i Hi Hfit).
  - split; [apply HN|].
    intros Hno. destruct (findGap day blocks n) as [g|] eqn:Hg; [|done].
    destruct (HS g eq_refl) as (i & (Hi & Hfit & _) & _).
    destruct (Hno i Hi Hfit).
Qed.

(** C2, where the code departs from it.  The return inside the loop of
    [findGap] compares the cursor with the start of the next block only,
    never with day-end.  With the day 07:00-11:00, no buffer and the
    lunch block at 12:00-13:00, [findGap] answers a request of 250
    minutes with 07:00-11:10, which ends after day-end, and then a
    request of 30 minutes with 11:10-11:40, which starts after day-end,
    although no index of the scan fits before day-end and no start is
    feasible for 30 minutes; [buildSchedule] stores both blocks. *)
Theorem findGap_past_day_end :
  let day := mkDayRange 420 660 0 in
  let lunch := lunchBlock (720, 780) in
  let first := Block.mk "a0" "t1" "t1" 420 670 false false in
  getDayRange pastEndSample = Some day
  ∧ getLunchBlock pastEndSample = Some (Some (720, 780))
  ∧ findGap day [lunch] 250 = Some (mkGap 420 670)
  ∧ insertBlock [lunch] first = [first; lunch]
  ∧ findGap day [first; lunch] 30 = Some (mkGap 670 700)
  ∧ endMin day < 670
  ∧ (∀ i, ¬ fitsBeforeEnd day (sort cmpStart [lunch]) 250 i)
  ∧ (∀ i, ¬ fitsBeforeEnd day (sort cmpStart [first; lunch]) 30 i)
  ∧ (∀ p, ¬ feasible day [first; lunch] 30 p)
  ∧ (λ r, (λ b, (Block.taskId b, Block.startMin b, Block.endMin b)) <$> Schedule.placed r.2)
      <$> @buildSchedule utcHost uidA pastEndSample "2026-01-15"
    = Some [("t1", 420, 670); ("t2", 670, 700); ("lunch", 720, 780)]
  ∧ Schedule.unplaced <$> (snd <$> @buildSchedule utcHost uidA pastEndSample "2026-01-15")
    = Some [].
Proof.
  intros day lunch first.
  assert (Hone : sort cmpStart [lunch] = [lunch]) by reflexivity.
  assert (Htwo : sort cmpStart [first; lunch] = [first; lunch]) by reflexivity.
  split; [vm_compute; reflexivity|].
  split; [vm_compute; reflexivity|].
  split; [vm_compute; reflexivity|].
  split; [vm_compute; reflexivity|].
  split; [vm_compute; reflexivity|].
  split; [simpl; lia|].
  split.
  { rewrite Hone. subst day lunch. intros [|[|i]] [Hfit Hend]; revert Hfit Hend;
      unfold fitsAt, fitsFrom, cursorAt, cursorFrom; simpl;
      rewrite ?lookup_nil, ?take_nil; unfold advance, lunchBlock; simpl; lia. }
  split.
  { rewrite Htwo. subst day lunch first. intros [|[|[|i]]] [Hfit Hend]; revert Hfit Hend;
      unfold fitsAt, fitsFrom, cursorAt, cursorFrom; simpl;
      rewrite ?lookup_nil, ?take_nil; unfold advance, lunchBlock; simpl; lia. }
  split.
  { intros p (Hstart & Hend & Hall).
    destruct (Hall first ltac:(by left)) as [Hside|Hside];
      simpl in Hstart, Hend, Hside; lia. }
  split; vm_compute; reflexivity.
Qed.

(** What a returned gap satisfies, in terms of the set of blocks. *)
Section GapFacts.
Context (day : DayRange).

Lemma scan_gap n cur blocks g :
  StronglySorted (λ a b, Block.startMin a <= Block.startMin b) blocks →
  scan day n cur blocks = Some g →
  e g = s g + n ∧ cur <= s g
  ∧ (s g = cur ∨ ∃ X, X ∈ blocks ∧ s g = Block.endMin X + buffer day)
  ∧ (∀ X, X ∈ blocks → Block.endMin X + buffer day <= s g ∨ e g <= Block.startMin X)
  ∧ (e g <= endMin day ∨ ∃ X, X ∈ blocks ∧ e g <= Block.startMin X).
Proof.
  intros Hsorted. revert cur.
  induction Hsorted as [|b rest Hrest IH Hb]; intros cur; simpl.
  - destruct (Z.leb_spec (cur + n) (endMin day)); [|done].
    intros [= <-]. simpl. split_and!; [done|lia|by left| |by left].
    intros X HX. by apply elem_of_nil in HX.
  - destruct (Z.leb_spec (cur + n) (Block.startMin b)) as [Hle|Hgt].
    + intros [= <-]. simpl. split_and!; [done|lia|by left| |].
      * intros X [->|HX]%elem_of_cons; [by right|].
        right. rewrite Forall_forall in Hb. specialize (Hb X HX). lia.
      * right. exists b. split; [left|done].
    + intros Hs. destruct (IH _ Hs) as (He & Hcur & Hanchor & Hall & Hend).
      split_and!; [done|lia| | |].
      * destruct Hanchor as [Heq|(X & HX & Heq)].
        -- destruct (Z.max_spec cur (Block.endMin b + buffer day)) as [[_ Hm]|[_ Hm]].
           ++ right. exists b. split; [left|lia].
           ++ left. lia.
        -- right. exists X. split; [by right|done].
      * intros X [->|HX]%elem_of_cons; [left; lia|by apply Hall].
      * destruct Hend as [?|(X & HX & ?)]; [by left|].
        right. exists X. split; [by right|done].
Qed.

Lemma findGap_gap blocks n g :
  findGap day blocks n = Some g →
  e g = s g + n ∧ startMin day <= s g
  ∧ (s g = startMin day ∨ ∃ X, X ∈ blocks ∧ s g = Block.endMin X + buffer day)
  ∧ (∀ X, X ∈ blocks → Block.endMin X + buffer day <= s g ∨ e g <= Block.startMin X)
  ∧ (e g <= endMin day ∨ ∃ X, X ∈ blocks ∧ e g <= Block.startMin X).
Proof.
  intros Hg. apply scan_gap in Hg; [|apply sort_cmpStart_sorted].
  destruct Hg as (He & Hcur & Hanchor & Hall & Hend).
  pose proof (sort_Permutation cmpStart blocks) as Hp.
  split_and!; [done|done| | |].
  - destruct Hanchor as [?|(X & HX & ?)]; [by left|].
    right. exists X. by rewrite <- Hp.
  - intros X HX. apply Hall. by rewrite Hp.
  - destruct Hend as [?|(X & HX & ?)]; [by left|].
    right. exists X. by rewrite <- Hp.
Qed.
End GapFacts.

(** ** Invariants of the allocation loop *)

Lemma pairwise_Permutation {A : Type} (R : A → A → Prop) (l l' : list A) :
  (∀ x y, R x y → R y x) → l ≡ₚ l' → pairwise R l → pairwise R l'.
Proof.
  intros Hsym. induction 1 as [|x l l' Hp IH|x y l|l l' l'' _ IH1 _ IH2]; simpl.
  - done.
  - intros [Hx Hl]. split; [by rewrite <- Hp|by apply IH].
  - intros [Hy [Hx Hl]]. apply Forall_cons in Hy as [Hyx Hy].
    split_and!; [constructor; [by apply Hsym|done]|done|done].
  - intros. by apply IH2, IH1.
Qed.

Lemma pairwise_lookup {A : Type} (R : A → A → Prop) (l : list A) (i j : nat) (x y : A) :
  pairwise R l → (i < j)%nat → l !! i = Some x → l !! j = Some y → R x y.
Proof.
  revert i j. induction l as [|z l IH]; intros i j Hl Hij Hi Hj; [done|].
  destruct Hl as [Hz Hl]. destruct j as [|j]; [lia|]. simpl in Hj.
  destruct i as [|i]; simpl in Hi.
  - injection Hi as ->. rewrite Forall_forall in Hz.
    apply Hz. by eapply list_elem_of_lookup_2.
  - apply (IH i j); [done|lia|done|done].
Qed.

Lemma StronglySorted_weaken {A : Type} (R R' : A → A → Prop) (l : list A) :
  (∀ x y, R x y → R' x y) → StronglySorted R l → StronglySorted R' l.
Proof.
  intros HR. induction 1 as [|x l _ IH Hx]; constructor; [done|].
  eapply Forall_impl; [exact Hx|]. apply HR.
Qed.

Lemma StronglySorted_pairwise {A : Type} (R : A → A → Prop) (l : list A) :
  StronglySorted R l → pairwise R l.
Proof. induction 1; simpl; [done|by split]. Qed.

Lemma apart_sym buffer X Y : apart buffer X Y → apart buffer Y X.
Proof. unfold apart. intros (H1 & H2 & H3). split_and!; [lia|done|done]. Qed.

Section LoopFacts.
Context (day : DayRange) (uid : nat → string).

Lemma insertBlock_Permutation blocks blk : insertBlock blocks blk ≡ₚ blk :: blocks.
Proof.
  unfold insertBlock. rewrite sort_Permutation.
  by rewrite Permutation_app_comm.
Qed.

Lemma chunkOf_bounds remaining :
  0 < remaining → 0 < chunkOf remaining <= remaining.
Proof. unfold chunkOf. intros. repeat case_match; lia. Qed.

Lemma normDuration_pos t : 5 <= normDuration t.
Proof. unfold normDuration. lia. Qed.

(** A property of the block list that every placement of a found gap
    of positive length keeps is kept by the loops. *)
Section Preserved.
Context (P : list Block.t → Prop).
Hypothesis P_insert : ∀ blocks t k title n g,
  P blocks → 0 < n → findGap day blocks n = Some g →
  P (insertBlock blocks (taskBlock uid t k title g)).

Lemma chunkLoop_preserves fuel t dur blocks k remaining blocks' k' remaining' :
  P blocks →
  chunkLoop day uid fuel t dur blocks k remaining = Some (blocks', k', remaining') →
  P blocks'.
Proof using P_insert.
  revert blocks k remaining.
  induction fuel as [|fuel IH]; intros blocks k remaining HP; simpl; [done|].
  destruct (Z.ltb_spec 0 remaining) as [Hpos|Hle]; [|by intros [= <- _ _]].
  destruct (findGap day blocks (chunkOf remaining)) as [g|] eqn:Hg;
    [|by intros [= <- _ _]].
  apply IH. eapply P_insert; [done| |done]. by apply chunkOf_bounds.
Qed.

Lemma placeTask_preserves a t : P (dayBlocks a) → P (dayBlocks (placeTask day uid a t)).
Proof using P_insert.
  intros HP. unfold placeTask.
  destruct (canSplit t); simpl.
  - unfold placeChunks.
    destruct (chunkLoop _ _ _ _ _ _ _ _) as [[[blocks k] remaining]|] eqn:Hloop; simpl.
    + by eapply chunkLoop_preserves.
    + done.
  - destruct (findGap day (dayBlocks a) (normDuration t)) as [g|] eqn:Hg; simpl; [|done].
    eapply P_insert; [done| |done]. pose proof (normDuration_pos t). lia.
Qed.

Lemma allocate_preserves a ts : P (dayBlocks a) → P (dayBlocks (allocate day uid a ts)).
Proof using P_insert.
  revert a. induction ts as [|t ts IH]; intros a HP; simpl; [done|].
  by apply IH, placeTask_preserves.
Qed.
End Preserved.

Lemma separated_insert blocks t k title n g :
  0 <= buffer day →
  separated day blocks → 0 < n → findGap day blocks n = Some g →
  separated day (insertBlock blocks (taskBlock uid t k title g)).
Proof.
  intros Hbuf [Hsorted Hpos Hapart Hanchor] Hn Hg.
  destruct (findGap_gap day _ _ _ Hg) as (He & Hstart & Hanc & Hall & _).
  set (N := taskBlock uid t k title g).
  pose proof (insertBlock_Permutation blocks N) as Hp.
  split.
  - apply sort_cmpStart_sorted.
  - intros X. rewrite Hp. intros [->|HX]%elem_of_cons; [simpl; lia|by apply Hpos].
  - eapply pairwise_Permutation; [apply apart_sym|symmetry; exact Hp|].
    simpl. split; [|done].
    apply Forall_forall. intros X HX.
    pose proof (Hpos X HX) as HXpos.
    unfold apart; simpl.
    destruct (Hall X HX) as [Hbefore|Hafter].
    + split_and!; [right; lia|intros _; right; lia|intros _; left; lia].
    + split_and!; [left; lia| |intros _; right; lia].
      intros HXfree.
      destruct (Hanchor X HX HXfree) as [HXs|(Z & HZ & HXs)]; [lia|].
      pose proof (Hpos Z HZ). destruct (Hall Z HZ); lia.
  - intros Y. rewrite Hp. intros [->|HY]%elem_of_cons HYfree.
    + simpl. destruct Hanc as [?|(X & HX & ?)]; [by left|].
      right. exists X. rewrite Hp. split; [by right|done].
    + destruct (Hanchor Y HY HYfree) as [?|(X & HX & ?)]; [by left|].
      right. exists X. rewrite Hp. split; [by right|done].
Qed.

Lemma allocate_separated a ts :
  0 <= buffer day → separated day (dayBlocks a) →
  separated day (dayBlocks (allocate day uid a ts)).
Proof.
  intros Hbuf. apply allocate_preserves.
  intros. by eapply separated_insert.
Qed.
End LoopFacts.

(** ** The allocator as a whole *)

Lemma getDayRange_buffer st day :
  getDayRange st = Some day → buffer day = Settings.buffer (settings st).
Proof.
  unfold getDayRange. intros (a & _ & (b & _ & [= <-])%bind_Some)%bind_Some.
  simpl. destruct (Z.eqb_spec (Settings.buffer (settings st)) 0); lia.
Qed.

Lemma getLunchBlock_positive st l :
  getLunchBlock st = Some (Some l) → fst l < snd l.
Proof.
  unfold getLunchBlock.
  destruct (_ || _); [done|].
  destruct (hd_error _ ≫= _) as [a|]; [|done].
  destruct (_ !! _ ≫= _) as [b|]; [|done].
  intros (x & _ & (y & _ & Hl)%bind_Some)%bind_Some.
  destruct (Z.leb_spec y x); [done|]. by injection Hl as <-.
Qed.

Lemma buildSchedule_Some `{Host} uid st dateKey st' out :
  buildSchedule uid st dateKey = Some (st', out) →
  ∃ day lunch ts,
    getDayRange st = Some day ∧ getLunchBlock st = Some lunch
    ∧ sortTasks st (tasksToSchedule st dateKey) = Some ts
    ∧ out = (let a := allocate day uid (mkAlloc (fixedBlocks lunch) [] 0) ts in
             Schedule.mk (dayBlocks a) (unplaced a))
    ∧ st' = setSchedule st dateKey (Schedule.placed out).
Proof.
  unfold buildSchedule.
  intros (day & Hday & (lunch & Hlunch & (ts & Hts & [= <- <-])%bind_Some)%bind_Some)%bind_Some.
  by exists day, lunch, ts.
Qed.

Lemma fixedBlocks_separated day lunch :
  (∀ l, lunch = Some l → fst l < snd l) → separated day (fixedBlocks lunch).
Proof.
  intros Hl. destruct lunch as [l|]; simpl.
  - split.
    + repeat constructor.
    + intros X ->%list_elem_of_singleton. simpl. by apply Hl.
    + simpl. by split.
    + intros Y ->%list_elem_of_singleton. done.
  - split; [constructor|by intros X ?%elem_of_nil|done|by intros X ?%elem_of_nil].
Qed.

(** C1.  With a buffer that is not negative, the blocks of a schedule
    built by [buildSchedule] are pairwise disjoint (of two distinct
    blocks one ends at or before the other starts), and a block that is
    not fixed starts at least [buffer] minutes after the end of every
    block before it, in particular after the preceding non-fixed
    block. *)
Theorem buildSchedule_no_overlap `{Host} (uid : nat → string) (st st' : State)
    (dateKey : string) (out : Schedule.t) :
  0 <= Settings.buffer (settings st) →
  buildSchedule uid st dateKey = Some (st', out) →
  (∀ i j X Y, i ≠ j →
     Schedule.placed out !! i = Some X → Schedule.placed out !! j = Some Y →
     Block.endMin X <= Block.startMin Y ∨ Block.endMin Y <= Block.startMin X)
  ∧ (∀ i j X Y, (i < j)%nat →
       Schedule.placed out !! i = Some X → Schedule.placed out !! j = Some Y →
       Block.fixed Y = false →
       Block.endMin X + Settings.buffer (settings st) <= Block.startMin Y).
Proof.
  intros Hbuf (day & lunch & ts & Hday & Hlunch & _ & -> & _)%buildSchedule_Some.
  simpl. rewrite <- (getDayRange_buffer _ _ Hday) in *.
  assert (Hsep : separated day
            (dayBlocks (allocate day uid (mkAlloc (fixedBlocks lunch) [] 0) ts))).
  { apply allocate_separated; [done|]. simpl. apply fixedBlocks_separated.
    intros l ->. by eapply getLunchBlock_positive. }
  destruct Hsep as [Hsorted Hpos Hapart _].
  assert (Hlt : ∀ i j X Y, (i < j)%nat →
            dayBlocks (allocate day uid (mkAlloc (fixedBlocks lunch) [] 0) ts) !! i = Some X →
            dayBlocks (allocate day uid (mkAlloc (fixedBlocks lunch) [] 0) ts) !! j = Some Y →
            apart (buffer day) X Y ∧ Block.startMin X <= Block.startMin Y
            ∧ Block.startMin Y < Block.endMin Y).
  { intros i j X Y Hij HX HY. split_and!.
    - by eapply pairwise_lookup.
    - apply StronglySorted_pairwise in Hsorted.
      by apply (pairwise_lookup _ _ i j X Y Hsorted).
    - apply Hpos. by eapply list_elem_of_lookup_2. }
  split.
  - intros i j X Y Hij HX HY.
    destruct (Nat.lt_total i j) as [Hlt'|[->|Hlt']]; [|done|].
    + by destruct (Hlt i j X Y Hlt' HX HY) as ((? & _) & _).
    + destruct (Hlt j i Y X Hlt' HY HX) as ((? & _) & _). lia.
  - intros i j X Y Hij HX HY HYfree.
    destruct (Hlt i j X Y Hij HX HY) as ((_ & HB & _) & Hle & HYpos).
    destruct (HB HYfree); lia.
Qed.

Lemma buildSchedule_no_overlap_witness :
  let st := sampleState "09:00" "18:00" 10 "12:00-13:00"
              [sampleTask "t1" 200 "可" 1; sampleTask "t2" 60 "不可" 2] in
  ∃ st' out,
    0 <= Settings.buffer (settings st)
    ∧ @buildSchedule utcHost uidA st "2026-01-15" = Some (st', out)
    ∧ (∀ i j X Y, i ≠ j →
         Schedule.placed out !! i = Some X → Schedule.placed out !! j = Some Y →
         Block.endMin X <= Block.startMin Y ∨ Block.endMin Y <= Block.startMin X)
    ∧ (∀ i j X Y, (i < j)%nat →
         Schedule.placed out !! i = Some X → Schedule.placed out !! j = Some Y →
         Block.fixed Y = false →
         Block.endMin X + Settings.buffer (settings st) <= Block.startMin Y).
Proof.
  intros st. eexists _, _.
  assert (Hbuf : 0 <= Settings.buffer (settings st)) by (simpl; lia).
  split; [exact Hbuf|].
  refine ((λ Hb, conj Hb (@buildSchedule_no_overlap utcHost uidA st _ _ _ Hbuf Hb)) _).
  vm_compute. reflexivity.
Defined.

Lemma inDay_insert day uid blocks t k title n g :
  inDay day blocks → 0 < n → findGap day blocks n = Some g →
  inDay day (insertBlock blocks (taskBlock uid t k title g)).
Proof.
  intros Hin Hn Hg b.
  destruct (findGap_gap day _ _ _ Hg) as (He & Hstart & _ & _ & Hend).
  rewrite insertBlock_Permutation. intros [->|Hb]%elem_of_cons; [|by apply Hin].
  simpl. split_and!; [done|lia|].
  destruct Hend as [?|(X & HX & ?)]; [done|].
  destruct (Hin X HX) as (_ & ? & ?). lia.
Qed.

Lemma allocate_keeps day uid a ts b :
  b ∈ dayBlocks a → b ∈ dayBlocks (allocate day uid a ts).
Proof.
  apply (allocate_preserves day uid (λ blocks, b ∈ blocks)).
  intros blocks t k title n g Hb _ _. rewrite insertBlock_Permutation. by right.
Qed.

Lemma allocate_fixed day uid a ts b :
  b ∈ dayBlocks (allocate day uid a ts) → Block.fixed b = true → b ∈ dayBlocks a.
Proof.
  intros Hb Hfixed. revert b Hb Hfixed.
  apply (allocate_preserves day uid
           (λ blocks, ∀ b, b ∈ blocks → Block.fixed b = true → b ∈ dayBlocks a));
    [|done].
  intros blocks t k title n g Hblocks _ _ b.
  rewrite insertBlock_Permutation. intros [->|Hb]%elem_of_cons Hfixed; [done|].
  by apply Hblocks.
Qed.

Lemma allocate_after_start day uid a ts :
  (∀ b, b ∈ dayBlocks a → Block.fixed b = false →
     startMin day <= Block.startMin b < Block.endMin b) →
  ∀ b, b ∈ dayBlocks (allocate day uid a ts) → Block.fixed b = false →
    startMin day <= Block.startMin b < Block.endMin b.
Proof.
  apply (allocate_preserves day uid
           (λ blocks, ∀ b, b ∈ blocks → Block.fixed b = false →
              startMin day <= Block.startMin b < Block.endMin b)).
  intros blocks t k title n g Hblocks Hn Hg b.
  destruct (findGap_gap day _ _ _ Hg) as (He & Hstart & _).
  rewrite insertBlock_Permutation. intros [->|Hb]%elem_of_cons Hfree; [simpl; lia|].
  by apply Hblocks.
Qed.

(** C5, as the code has it.  In a schedule built by [buildSchedule]
    every block placed for a task satisfies dayStart <= start < end; the
    only fixed block is the lunch block, which is there whenever a lunch
    window is configured, with the configured bounds and start < end;
    and when no lunch window is configured, or the configured one lies
    inside the day window, every block, the lunch block included,
    satisfies dayStart <= start < end <= dayEnd. *)
Theorem buildSchedule_day_bound `{Host} (uid : nat → string) (st st' : State)
    (dateKey : string) (out : Schedule.t) (day : DayRange) :
  buildSchedule uid st dateKey = Some (st', out) →
  getDayRange st = Some day →
  (∀ b, b ∈ Schedule.placed out → Block.fixed b = false →
     startMin day <= Block.startMin b < Block.endMin b)
  ∧ (∀ b, b ∈ Schedule.placed out → Block.fixed b = true →
       ∃ l, getLunchBlock st = Some (Some l) ∧ b = lunchBlock l ∧ fst l < snd l)
  ∧ (∀ l, getLunchBlock st = Some (Some l) → lunchBlock l ∈ Schedule.placed out)
  ∧ ((∀ l, getLunchBlock st = Some (Some l) →
        startMin day <= fst l ∧ snd l <= endMin day) →
     ∀ b, b ∈ Schedule.placed out →
       startMin day <= Block.startMin b ∧ Block.startMin b < Block.endMin b
       ∧ Block.endMin b <= endMin day).
Proof.
  intros (day' & lunch & ts & Hday' & Hlunch & _ & -> & _)%buildSchedule_Some Hday.
  assert (day' = day) as -> by congruence. simpl.
  split_and!.
  - apply allocate_after_start. simpl. intros b Hb Hfree.
    destruct lunch as [l|]; simpl in Hb; [|by apply elem_of_nil in Hb].
    by apply list_elem_of_singleton in Hb as ->.
  - intros b Hb Hfixed. apply allocate_fixed in Hb; [|done]. simpl in Hb.
    destruct lunch as [l|]; simpl in Hb; [|by apply elem_of_nil in Hb].
    apply list_elem_of_singleton in Hb as ->.
    exists l. split_and!; [done|done|by eapply getLunchBlock_positive].
  - intros l Hl. rewrite Hlunch in Hl. injection Hl as ->.
    apply allocate_keeps. simpl. by left.
  - intros Hwin. apply (allocate_preserves day uid (inDay day)).
    + intros. by eapply inDay_insert.
    + simpl. intros b Hb. destruct lunch as [l|]; simpl in Hb.
      * apply list_elem_of_singleton in Hb as ->. simpl.
        pose proof (getLunchBlock_positive _ _ Hlunch).
        destruct (Hwin l Hlunch). lia.
      * by apply elem_of_nil in Hb.
Qed.

Lemma buildSchedule_day_bound_witness :
  let st := sampleState "09:00" "18:00" 10 "12:00-13:00"
              [sampleTask "t1" 200 "可" 1; sampleTask "t2" 60 "不可" 2] in
  ∃ st' out day,
    @buildSchedule utcHost uidA st "2026-01-15" = Some (st', out)
    ∧ getDayRange st = Some day
    ∧ (∀ l, getLunchBlock st = Some (Some l) → startMin day <= fst l ∧ snd l <= endMin day)
    ∧ ∀ b, b ∈ Schedule.placed out →
        startMin day <= Block.startMin b ∧ Block.startMin b < Block.endMin b
        ∧ Block.endMin b <= endMin day.
Proof.
  intros st.
  eassert (Hb : @buildSchedule utcHost uidA st "2026-01-15" = Some (_, _))
    by (vm_compute; reflexivity).
  eassert (Hd : getDayRange st = Some _) by (vm_compute; reflexivity).
  assert (Hw : ∀ l, getLunchBlock st = Some (Some l) → 540 <= fst l ∧ snd l <= 1080)
    by (intros l [= <-]; vm_compute; split; discriminate).
  eexists _, _, _.
  destruct (@buildSchedule_day_bound utcHost uidA st _ _ _ _ Hb Hd) as (_ & _ & _ & Hall).
  exact (conj Hb (conj Hd (conj Hw (Hall Hw)))).
Defined.

(** C5 as stated fails: the lunch block is stored with its configured
    bounds.  With the day 13:00-20:00 and lunch 12:00-13:00 the schedule
    holds the block 720-780, before day-start 780. *)
Lemma buildSchedule_day_bound_counterexample :
  let st := sampleState "13:00" "20:00" 10 "12:00-13:00" [sampleTask "t1" 60 "不可" 1] in
  ∃ st' out day b,
    @buildSchedule utcHost uidA st "2026-01-15" = Some (st', out)
    ∧ getDayRange st = Some day
    ∧ b ∈ Schedule.placed out
    ∧ ¬ (startMin day <= Block.startMin b ∧ Block.startMin b < Block.endMin b
         ∧ Block.endMin b <= endMin day).
Proof.
  intros st. eexists _, _, _, (lunchBlock (720, 780)).
  split; [vm_compute; reflexivity|].
  split; [vm_compute; reflexivity|].
  split; [left|].
  vm_compute. intros (Hle & _). by apply Hle.
Qed.

(** ** Termination of the chunk loop *)

Lemma chunkBound_step remaining :
  0 < remaining → chunkBound (remaining - chunkOf remaining) <= chunkBound remaining - 1.
Proof.
  intros Hpos. unfold chunkBound, chunkOf.
  repeat case_match; Z.to_euclidean_division_equations; lia.
Qed.

Lemma chunkBound_le remaining : 0 <= chunkBound remaining <= Z.max 0 remaining.
Proof. unfold chunkBound. Z.to_euclidean_division_equations; lia. Qed.

Lemma length_insertBlock blocks blk : length (insertBlock blocks blk) = S (length blocks).
Proof.
  unfold insertBlock.
  rewrite (Permutation_length (sort_Permutation cmpStart _)), length_app. simpl. lia.
Qed.

(** With more fuel than [chunkBound remaining] the loop returns, having
    placed at most [chunkBound remaining] blocks. *)
Lemma chunkLoop_returns day uid fuel t dur blocks k remaining :
  (Z.to_nat (chunkBound remaining) < fuel)%nat →
  ∃ blocks' k' remaining',
    chunkLoop day uid fuel t dur blocks k remaining = Some (blocks', k', remaining')
    ∧ (k <= k')%nat
    ∧ length blocks' = (length blocks + (k' - k))%nat
    ∧ Z.of_nat (k' - k) <= chunkBound remaining.
Proof.
  revert blocks k remaining.
  induction fuel as [|fuel IH]; intros blocks k remaining Hfuel; [lia|]. simpl.
  pose proof (chunkBound_le remaining) as Hb.
  destruct (Z.ltb_spec 0 remaining) as [Hpos|Hle].
  - destruct (findGap day blocks (chunkOf remaining)) as [g|] eqn:Hg.
    + pose proof (chunkBound_step remaining Hpos) as Hstep.
      pose proof (chunkBound_le (remaining - chunkOf remaining)) as Hb'.
      match goal with
      | |- context [chunkLoop _ _ _ _ _ ?b _ _] =>
          destruct (IH b (S k) (remaining - chunkOf remaining))
            as (blocks' & k' & remaining' & Hloop & Hk & Hlen & Hcount); [lia|]
      end.
      exists blocks', k', remaining'.
      rewrite length_insertBlock in Hlen.
      split_and!; [exact Hloop|lia|lia|lia].
    + exists blocks, k, remaining. split_and!; [done|lia|lia|lia].
  - exists blocks, k, remaining. split_and!; [done|lia|lia|lia].
Qed.

(** The fuel handed to the loop by [placeChunks] is enough. *)
Lemma placeChunks_run day uid t dur blocks k :
  chunkLoop day uid (S (Z.to_nat dur)) t dur blocks k dur
  = Some (placeChunks day uid t dur blocks k).
Proof.
  unfold placeChunks.
  destruct (chunkLoop_returns day uid (S (Z.to_nat dur)) t dur blocks k dur)
    as (blocks' & k' & remaining' & -> & _); [|done].
  pose proof (chunkBound_le dur). lia.
Qed.

(** More fuel does not change the result. *)
Lemma chunkLoop_fuel day uid fuel fuel' t dur blocks k remaining r :
  chunkLoop day uid fuel t dur blocks k remaining = Some r → (fuel <= fuel')%nat →
  chunkLoop day uid fuel' t dur blocks k remaining = Some r.
Proof.
  revert fuel' blocks k remaining.
  induction fuel as [|fuel IH]; intros fuel' blocks k remaining; simpl; [done|].
  intros Hloop Hle. destruct fuel' as [|fuel']; [lia|]. simpl.
  destruct (0 <? remaining); [|done].
  destruct (findGap day blocks (chunkOf remaining)); [|done].
  apply IH; [done|lia].
Qed.

(** ** Conservation of the minutes of a task *)

Lemma sumZ_app {A : Type} (f : A → Z) (l1 l2 : list A) :
  sumZ f (l1 ++ l2) = sumZ f l1 + sumZ f l2.
Proof. induction l1 as [|x l1 IH]; simpl; [done|]. rewrite IH. lia. Qed.

Lemma sumZ_Permutation {A : Type} (f : A → Z) (l1 l2 : list A) :
  l1 ≡ₚ l2 → sumZ f l1 = sumZ f l2.
Proof. induction 1; simpl; lia. Qed.

Lemma placedMinutes_insert tid blocks blk :
  placedMinutes tid (insertBlock blocks blk) = placedMinutes tid blocks + minutesFor tid blk.
Proof.
  unfold placedMinutes.
  rewrite (sumZ_Permutation _ _ _ (insertBlock_Permutation blocks blk)). simpl. lia.
Qed.

Lemma normDuration_grid t :
  0 < Task.duration t → Task.duration t mod 5 = 0 → normDuration t = Task.duration t.
Proof.
  unfold normDuration, roundDiv5. intros Hpos Hgrid.
  Z.to_euclidean_division_equations. lia.
Qed.

Lemma chunkLoop_minutes day uid fuel t dur blocks k remaining blocks' k' remaining' :
  chunkLoop day uid fuel t dur blocks k remaining = Some (blocks', k', remaining') →
  0 <= remaining →
  0 <= remaining' <= remaining
  ∧ ∀ tid, placedMinutes tid blocks'
           = placedMinutes tid blocks
             + (if String.eqb (Task.id t) tid then remaining - remaining' else 0).
Proof.
  revert blocks k remaining.
  induction fuel as [|fuel IH]; intros blocks k remaining; simpl; [done|].
  destruct (Z.ltb_spec 0 remaining) as [Hpos|Hle].
  - destruct (findGap day blocks (chunkOf remaining)) as [g|] eqn:Hg.
    + intros Hloop _. pose proof (chunkOf_bounds remaining Hpos) as Hc.
      apply IH in Hloop as [Hr Hsum]; [|lia].
      split; [lia|]. intros tid. rewrite Hsum, placedMinutes_insert.
      destruct (findGap_gap day _ _ _ Hg) as (He & _).
      unfold minutesFor. simpl. rewrite andb_true_r.
      destruct (String.eqb (Task.id t) tid); lia.
    + intros [= <- <- <-] _. split; [lia|].
      intros tid. destruct (String.eqb (Task.id t) tid); lia.
  - intros [= <- <- <-] ?. split; [lia|].
    intros tid. destruct (String.eqb (Task.id t) tid); lia.
Qed.

Lemma placeTask_minutes day uid a t tid :
  (Task.id t = tid → normDuration t = Task.duration t) →
  placedMinutes tid (dayBlocks (placeTask day uid a t))
  + unplacedMinutes tid (unplaced (placeTask day uid a t))
  = placedMinutes tid (dayBlocks a) + unplacedMinutes tid (unplaced a) + durationFor tid t.
Proof.
  intros Hgrid. unfold placeTask, durationFor.
  pose proof (normDuration_pos t) as Hdur.
  destruct (canSplit t); simpl.
  - pose proof (placeChunks_run day uid t (normDuration t) (dayBlocks a) (uids a)) as Hrun.
    destruct (placeChunks _ _ _ _ _ _) as [[blocks k] remaining].
    apply chunkLoop_minutes in Hrun as [Hr Hsum]; [|lia]. simpl.
    rewrite Hsum.
    destruct (Z.ltb_spec 0 remaining).
    + unfold unplacedMinutes. rewrite sumZ_app. simpl. unfold recorded. simpl.
      destruct (String.eqb_spec (Task.id t) tid) as [Heq|_]; [rewrite <- (Hgrid Heq)|]; lia.
    + destruct (String.eqb_spec (Task.id t) tid) as [Heq|_]; [rewrite <- (Hgrid Heq)|]; lia.
  - destruct (findGap day (dayBlocks a) (normDuration t)) as [g|] eqn:Hg; simpl.
    + rewrite placedMinutes_insert.
      destruct (findGap_gap day _ _ _ Hg) as (He & _).
      unfold minutesFor. simpl. rewrite andb_true_r.
      destruct (String.eqb_spec (Task.id t) tid) as [Heq|_]; [rewrite <- (Hgrid Heq)|]; lia.
    + unfold unplacedMinutes. rewrite sumZ_app. simpl. unfold recorded. simpl.
      destruct (String.eqb (Task.id t) tid); lia.
Qed.

Lemma allocate_minutes day uid a ts tid :
  (∀ t, t ∈ ts → Task.id t = tid → normDuration t = Task.duration t) →
  placedMinutes tid (dayBlocks (allocate day uid a ts))
  + unplacedMinutes tid (unplaced (allocate day uid a ts))
  = placedMinutes tid (dayBlocks a) + unplacedMinutes tid (unplaced a)
    + sumZ (durationFor tid) ts.
Proof.
  revert a. induction ts as [|t ts IH]; intros a Hgrid; simpl; [lia|].
  rewrite IH; [|intros; apply Hgrid; [by right|done]].
  rewrite placeTask_minutes; [lia|]. apply Hgrid. by left.
Qed.

Lemma sumZ_durationFor ts t :
  NoDup (Task.id <$> ts) → t ∈ ts → sumZ (durationFor (Task.id t)) ts = Task.duration t.
Proof.
  induction ts as [|t' ts IH]; simpl; [by intros _ ?%elem_of_nil|].
  intros [Hnotin Hnd]%NoDup_cons [->|Hin]%elem_of_cons.
  - unfold durationFor at 1. rewrite String.eqb_refl.
    assert (sumZ (durationFor (Task.id t')) ts = 0) as ->; [|lia].
    clear IH Hnd. induction ts as [|x ts IH]; simpl; [done|].
    rewrite IH; [|intros Hin; apply Hnotin; by right]. unfold durationFor.
    destruct (String.eqb_spec (Task.id x) (Task.id t')) as [Heq|_]; [|lia].
    exfalso. apply Hnotin. rewrite <- Heq. simpl. by left.
  - rewrite IH by done. unfold durationFor.
    destruct (String.eqb_spec (Task.id t') (Task.id t)) as [Heq|_]; [|lia].
    exfalso. apply Hnotin. rewrite Heq. by apply list_elem_of_fmap_2.
Qed.

(** ** The task ranker *)

Lemma ext_eqb_spec a b : reflect (a = b) (ext_eqb a b).
Proof.
  destruct a as [x|], b as [y|]; simpl; try (constructor; congruence).
  destruct (Z.eqb_spec x y); constructor; congruence.
Qed.

Lemma ext_sub_le a b : a ≠ b → ext_sub a b <= 0 ↔ ext_lt a b.
Proof.
  destruct a as [x|], b as [y|]; simpl; intros; [|done|done|done].
  assert (x ≠ y) by congruence. lia.
Qed.

Lemma ext_lt_irrefl a : ¬ ext_lt a a.
Proof. destruct a; simpl; lia. Qed.

Lemma ext_lt_trans a b c : ext_lt a b → ext_lt b c → ext_lt a c.
Proof. destruct a, b, c; simpl; try done. lia. Qed.

Lemma ext_lt_total a b : a = b ∨ ext_lt a b ∨ ext_lt b a.
Proof.
  destruct a as [x|], b as [y|]; simpl; auto.
  destruct (Z.lt_total x y) as [?|[->|?]]; auto.
Qed.

Lemma byDue_deadlineFirst a b : cmpLe byDue a b ↔ deadlineFirst a b.
Proof.
  unfold cmpLe, byDue, deadlineFirst, score. cbv zeta.
  pose proof (ext_lt_irrefl (dlMs b)) as Hirr.
  destruct (ext_eqb_spec (dlMs a) (dlMs b)) as [He|Hne]; simpl.
  - rewrite He.
    match goal with |- context [?x =? 0] => destruct (Z.eqb_spec x 0) end;
      simpl; intuition lia.
  - rewrite (ext_sub_le _ _ Hne). intuition congruence.
Qed.

Lemma byPriority_priorityFirst a b : cmpLe byPriority a b ↔ priorityFirst a b.
Proof.
  unfold cmpLe, byPriority, priorityFirst, score. cbv zeta.
  pose proof (ext_lt_irrefl (dlMs b)) as Hirr.
  match goal with |- context [?x =? 0] => destruct (Z.eqb_spec x 0) end;
    simpl; [|intuition lia].
  destruct (ext_eqb_spec (dlMs a) (dlMs b)) as [He|Hne]; simpl.
  - rewrite He. intuition lia.
  - rewrite (ext_sub_le _ _ Hne). intuition (try congruence; try lia).
Qed.

Lemma deadlineFirst_total a b : deadlineFirst a b ∨ deadlineFirst b a.
Proof.
  unfold deadlineFirst.
  destruct (ext_lt_total (dlMs a) (dlMs b)) as [He|[?|?]]; [|by left; left|by right; left].
  destruct (Z.lt_total (score a) (score b)) as [?|[?|?]];
  destruct (Z.le_ge_cases (Task.createdAt (kt a)) (Task.createdAt (kt b)));
    first [left; right; split; [done|]; lia | right; right; split; [done|]; lia].
Qed.

Lemma deadlineFirst_trans a b c : deadlineFirst a b → deadlineFirst b c → deadlineFirst a c.
Proof.
  unfold deadlineFirst.
  intros [Hab|[Hab Hab']] [Hbc|[Hbc Hbc']].
  - left. by eapply ext_lt_trans.
  - left. by rewrite <- Hbc.
  - left. by rewrite Hab.
  - right. split; [congruence|lia].
Qed.

Lemma priorityFirst_total a b : priorityFirst a b ∨ priorityFirst b a.
Proof.
  unfold priorityFirst.
  destruct (Z.lt_total (score a) (score b)) as [?|[Hs|?]]; [right; left; lia| |left; left; lia].
  destruct (ext_lt_total (dlMs a) (dlMs b)) as [He|[?|?]];
    [|left; right; split; [done|by left]|right; right; split; [done|by left]].
  destruct (Z.le_ge_cases (Task.createdAt (kt a)) (Task.createdAt (kt b)));
    [left|right]; right; (split; [done|]); right; (split; [done|]); lia.
Qed.

Lemma priorityFirst_trans a b c : priorityFirst a b → priorityFirst b c → priorityFirst a c.
Proof.
  unfold priorityFirst.
  intros [Hab|[Hab Hab']] [Hbc|[Hbc Hbc']]; [left; lia|left; lia|left; lia|].
  right. split; [lia|].
  destruct Hab' as [Hab'|[Hab' ?]], Hbc' as [Hbc'|[Hbc' ?]].
  - left. by eapply ext_lt_trans.
  - left. by rewrite <- Hbc'.
  - left. by rewrite Hab'.
  - right. split; [congruence|lia].
Qed.

Lemma comparator_total strategy a b :
  cmpLe (comparator strategy) a b ∨ cmpLe (comparator strategy) b a.
Proof.
  unfold comparator. destruct (String.eqb strategy "priority").
  - rewrite !byPriority_priorityFirst. apply priorityFirst_total.
  - rewrite !byDue_deadlineFirst. apply deadlineFirst_total.
Qed.

Lemma comparator_trans strategy a b c :
  cmpLe (comparator strategy) a b → cmpLe (comparator strategy) b c →
  cmpLe (comparator strategy) a c.
Proof.
  unfold comparator. destruct (String.eqb strategy "priority").
  - rewrite !byPriority_priorityFirst. apply priorityFirst_trans.
  - rewrite !byDue_deadlineFirst. apply deadlineFirst_trans.
Qed.

Lemma keyOf_kt `{Host} t k : keyOf t = Some k → kt k = t.
Proof.
  unfold keyOf. destruct (combineDateTime _ _) as [dl|]; [|by intros [= <-]].
  by intros (ms & _ & [= <-])%bind_Some.
Qed.

Lemma sortTasks_Some `{Host} st arr ts :
  sortTasks st arr = Some ts →
  ∃ withKey, mapM keyOf arr = Some withKey
             ∧ kt <$> withKey = arr
             ∧ Forall (λ k, keyOf (kt k) = Some k) withKey
             ∧ ts = kt <$> sort (comparator (strategyOf st)) withKey.
Proof.
  unfold sortTasks. intros (withKey & Hkeys & [= <-])%bind_Some.
  exists withKey. split_and!; [done| | |done].
  - eapply mapM_fmap_Some_inv; [done|]. intros. by eapply keyOf_kt.
  - apply mapM_Some_1 in Hkeys. clear -Hkeys.
    induction Hkeys as [|t k arr ks Hk _ IH]; constructor; [|done].
    by rewrite (keyOf_kt _ _ Hk).
Qed.

Lemma sortTasks_Permutation `{Host} st arr ts : sortTasks st arr = Some ts → ts ≡ₚ arr.
Proof.
  intros (withKey & _ & <- & _ & ->)%sortTasks_Some.
  by rewrite sort_Permutation.
Qed.




Example sortTasks_due_sample :
  (map Task.id <$> @sortTasks utcHost (sampleState "09:00" "18:00" 5 "none" []) rankSample)
  = Some ["D"; "C"; "B"; "A"].
Proof. vm_compute. reflexivity. Qed.

Example sortTasks_priority_sample :
  (map Task.id <$>
     @sortTasks utcHost
       (mkState (Settings.mk "2026-01-15" "09:00" "18:00" 5 "priority" "none") [] ∅)
       rankSample)
  = Some ["D"; "A"; "C"; "B"].
Proof. vm_compute. reflexivity. Qed.


Lemma NoDup_fmap_eq {A B : Type} (f : A → B) (l : list A) (x y : A) :
  NoDup (f <$> l) → x ∈ l → y ∈ l → f x = f y → x = y.
Proof.
  induction l as [|z l IH]; simpl; [by intros _ ?%elem_of_nil|].
  intros [Hz Hnd]%NoDup_cons [->|Hx]%elem_of_cons [->|Hy]%elem_of_cons Heq.
  - done.
  - destruct Hz. rewrite Heq. by apply list_elem_of_fmap_2.
  - destruct Hz. rewrite <- Heq. by apply list_elem_of_fmap_2.
  - by apply IH.
Qed.

Lemma placedMinutes_fixedBlocks tid lunch : placedMinutes tid (fixedBlocks lunch) = 0.
Proof.
  destruct lunch as [l|]; [|done].
  unfold placedMinutes, minutesFor. simpl. rewrite andb_false_r. done.
Qed.

Lemma buildSchedule_minutes `{Host} (uid : nat → string) (st st' : State)
    (dateKey : string) (out : Schedule.t) (t : Task.t) :
  buildSchedule uid st dateKey = Some (st', out) →
  NoDup (Task.id <$> tasksToSchedule st dateKey) →
  t ∈ tasksToSchedule st dateKey →
  0 < Task.duration t → Task.duration t mod 5 = 0 →
  placedMinutes (Task.id t) (Schedule.placed out)
  + unplacedMinutes (Task.id t) (Schedule.unplaced out)
  = Task.duration t.
Proof.
  intros (day & lunch & ts & _ & _ & Hts & -> & _)%buildSchedule_Some Hnd Ht Hpos Hgrid.
  apply sortTasks_Permutation in Hts. simpl.
  rewrite <- Hts in Hnd, Ht.
  rewrite allocate_minutes.
  - simpl. rewrite placedMinutes_fixedBlocks, sumZ_durationFor by done.
    unfold unplacedMinutes. simpl. lia.
  - intros t' Ht' Hid.
    assert (t' = t) as -> by (by eapply (NoDup_fmap_eq Task.id ts)).
    by apply normDuration_grid.
Qed.

(** ** Bounds on the work of the allocator *)

Lemma placeTask_bounds day uid a t :
  (length (unplaced (placeTask day uid a t)) <= S (length (unplaced a)))%nat
  ∧ Z.of_nat (length (dayBlocks (placeTask day uid a t)))
    <= Z.of_nat (length (dayBlocks a)) + chunkBound (normDuration t).
Proof.
  unfold placeTask. pose proof (normDuration_pos t) as Hdur.
  assert (1 <= chunkBound (normDuration t))
    by (unfold chunkBound; Z.to_euclidean_division_equations; lia).
  destruct (canSplit t); simpl.
  - pose proof (placeChunks_run day uid t (normDuration t) (dayBlocks a) (uids a)) as Hrun.
    destruct (chunkLoop_returns day uid (S (Z.to_nat (normDuration t))) t (normDuration t)
                (dayBlocks a) (uids a) (normDuration t))
      as (blocks' & k' & remaining' & Hloop & Hk & Hlen & Hcount).
    { pose proof (chunkBound_le (normDuration t)). lia. }
    rewrite Hloop in Hrun. injection Hrun as <-. simpl.
    split; [|lia]. destruct (0 <? remaining'); [rewrite length_app; simpl|]; lia.
  - destruct (findGap day (dayBlocks a) (normDuration t)); simpl.
    + rewrite length_insertBlock. lia.
    + rewrite length_app. simpl. lia.
Qed.

(** ** The choice of the chunk size *)

Lemma chunkOf_preferred remaining : preferred remaining = Some (chunkOf remaining).
Proof.
  unfold preferred, candidates, chunkOf. simpl.
  repeat case_match; try done; lia.
Qed.

Lemma chunkLoop_chunkRun day uid fuel t dur blocks k remaining blocks' k' remaining' :
  chunkLoop day uid fuel t dur blocks k remaining = Some (blocks', k', remaining') →
  chunkRun day uid t dur blocks k remaining blocks' k' remaining'.
Proof.
  revert blocks k remaining.
  induction fuel as [|fuel IH]; intros blocks k remaining; simpl; [done|].
  destruct (Z.ltb_spec 0 remaining) as [Hpos|Hle].
  - destruct (findGap day blocks (chunkOf remaining)) as [g|] eqn:Hg.
    + intros Hloop. eapply run_place; [done|done|by apply IH].
    + intros [= <- <- <-]. by apply run_stop.
  - intros [= <- <- <-]. by apply run_done.
Qed.

Lemma chunkRun_end day uid t dur blocks k remaining blocks' k' remaining' :
  chunkRun day uid t dur blocks k remaining blocks' k' remaining' →
  0 < remaining' → findGap day blocks' (chunkOf remaining') = None.
Proof. induction 1; intros; [lia|done|auto]. Qed.

(** C3, as the code has it.  For a task that may be split the chunk is
    the first of 60, 45, 30 and [remaining] that does not exceed
    [remaining], whether or not a gap exists for it; a gap for it is
    filled and the loop goes on with the rest, no gap for it ends the
    loop at once, and the task is then entered in [unplaced] with the
    minutes left, which happens exactly when minutes are left.  With
    gaps of 50 and 60 minutes around a fixed block and no buffer, a task
    of 100 minutes is placed as three blocks of 60, 30 and 10 minutes
    and nothing remains. *)
Theorem placeTask_chunk_choice (day : DayRange) (uid : nat → string) (a : Alloc)
    (t : Task.t) :
  canSplit t = true →
  (∀ remaining, preferred remaining = Some (chunkOf remaining))
  ∧ (∃ remaining',
       chunkRun day uid t (normDuration t) (dayBlocks a) (uids a) (normDuration t)
         (dayBlocks (placeTask day uid a t)) (uids (placeTask day uid a t)) remaining'
       ∧ 0 <= remaining'
       ∧ (0 < remaining' →
            findGap day (dayBlocks (placeTask day uid a t)) (chunkOf remaining') = None
            ∧ unplaced (placeTask day uid a t)
              = unplaced a ++ [mkUnplaced t (Some remaining')])
       ∧ (remaining' = 0 → unplaced (placeTask day uid a t) = unplaced a))
  ∧ (let st := sampleState "00:00" "02:00" 0 "00:50-01:00" [sampleTask "t1" 100 "可" 1] in
     ∃ st' out,
       @buildSchedule utcHost uid st "2026-01-15" = Some (st', out)
       ∧ ((λ b, (Block.taskId b, Block.startMin b, Block.endMin b)) <$> Schedule.placed out)
         = [("t1", 0, 30); ("t1", 30, 40); ("lunch", 50, 60); ("t1", 60, 120)]
       ∧ Schedule.unplaced out = []).
Proof.
  intros Hsplit. split; [apply chunkOf_preferred|]. split.
  - unfold placeTask. rewrite Hsplit. simpl.
    pose proof (placeChunks_run day uid t (normDuration t) (dayBlocks a) (uids a)) as Hrun.
    destruct (placeChunks _ _ _ _ _ _) as [[blocks k] remaining].
    pose proof (normDuration_pos t).
    destruct (chunkLoop_minutes _ _ _ _ _ _ _ _ _ _ _ Hrun) as [Hr _]; [lia|].
    apply chunkLoop_chunkRun in Hrun.
    exists remaining. simpl. split_and!; [done|lia| |].
    + intros Hpos. split; [by eapply chunkRun_end|].
      by destruct (Z.ltb_spec 0 remaining); [|lia].
    + intros ->. done.
  - eexists _, _. split; [vm_compute; reflexivity|]. by vm_compute.
Qed.

Lemma placeTask_chunk_choice_witness :
  let day := mkDayRange 0 120 0 in
  let a := mkAlloc (fixedBlocks (Some (50, 60))) [] 0 in
  let t := sampleTask "t1" 100 "可" 1 in
  canSplit t = true
  ∧ (∀ remaining, preferred remaining = Some (chunkOf remaining))
  ∧ (∃ remaining',
       chunkRun day uidA t (normDuration t) (dayBlocks a) (uids a) (normDuration t)
         (dayBlocks (placeTask day uidA a t)) (uids (placeTask day uidA a t)) remaining'
       ∧ 0 <= remaining'
       ∧ (0 < remaining' →
            findGap day (dayBlocks (placeTask day uidA a t)) (chunkOf remaining') = None
            ∧ unplaced (placeTask day uidA a t)
              = unplaced a ++ [mkUnplaced t (Some remaining')])
       ∧ (remaining' = 0 → unplaced (placeTask day uidA a t) = unplaced a))
  ∧ (let st := sampleState "00:00" "02:00" 0 "00:50-01:00" [sampleTask "t1" 100 "可" 1] in
     ∃ st' out,
       @buildSchedule utcHost uidA st "2026-01-15" = Some (st', out)
       ∧ ((λ b, (Block.taskId b, Block.startMin b, Block.endMin b)) <$> Schedule.placed out)
         = [("t1", 0, 30); ("t1", 30, 40); ("lunch", 50, 60); ("t1", 60, 120)]
       ∧ Schedule.unplaced out = []).
Proof.
  intros day a t.
  assert (Hsplit : canSplit t = true) by reflexivity.
  exact (conj Hsplit (placeTask_chunk_choice day uidA a t Hsplit)).
Defined.

(** C3 as stated fails.  With free gaps of 50 and 60 minutes around a
    fixed block the task of 100 minutes is placed as three blocks, not
    two; and in a day of 40 minutes a task of 50 minutes is entered in
    [unplaced] whole although the candidate 30 has a gap: the loop does
    not fall back to a smaller candidate. *)
Lemma placeTask_chunk_choice_counterexample :
  (let st := sampleState "00:00" "02:00" 0 "00:50-01:00" [sampleTask "t1" 100 "可" 1] in
   ∃ st' out,
     @buildSchedule utcHost uidA st "2026-01-15" = Some (st', out)
     ∧ (Block.taskId <$> Schedule.placed out) = ["t1"; "t1"; "lunch"; "t1"]
     ∧ length (List.filter (λ b, negb (Block.fixed b)) (Schedule.placed out)) ≠ 2%nat)
  ∧ (let t := sampleTask "t1" 50 "可" 1 in
     let st := sampleState "00:00" "00:40" 0 "none" [t] in
     ∃ st' out day,
       @buildSchedule utcHost uidA st "2026-01-15" = Some (st', out)
       ∧ getDayRange st = Some day
       ∧ preferredWithGap day [] (normDuration t) = Some 30
       ∧ Schedule.placed out = []
       ∧ Schedule.unplaced out = [mkUnplaced t (Some 50)]).
Proof.
  split.
  - intros st. eexists _, _. split; [vm_compute; reflexivity|]. by vm_compute.
  - intros t st. eexists _, _, _.
    split; [vm_compute; reflexivity|]. split; [vm_compute; reflexivity|]. by vm_compute.
Qed.

(** ** Determinism up to the identifiers *)

Lemma insertSorted_fmap {A B : Type} (f : A → B) (cmp : A → A → Z) (cmp' : B → B → Z)
    (x : A) (l : list A) :
  (∀ x y, cmp' (f x) (f y) = cmp x y) →
  f <$> insertSorted cmp x l = insertSorted cmp' (f x) (f <$> l).
Proof.
  intros Hf. induction l as [|y l IH]; simpl; [done|].
  rewrite Hf. destruct (cmp x y <=? 0); simpl; [done|]. f_equal. exact IH.
Qed.

Lemma sort_fmap {A B : Type} (f : A → B) (cmp : A → A → Z) (cmp' : B → B → Z) l :
  (∀ x y, cmp' (f x) (f y) = cmp x y) →
  f <$> sort cmp l = sort cmp' (f <$> l).
Proof.
  intros Hf. induction l as [|x l IH]; [done|].
  change (sort cmp (x :: l)) with (insertSorted cmp x (sort cmp l)).
  rewrite (insertSorted_fmap f cmp cmp') by done. by rewrite IH.
Qed.

Lemma scan_anonymous day n cur blocks :
  scan day n cur (anonymous <$> blocks) = scan day n cur blocks.
Proof.
  revert cur. induction blocks as [|b blocks IH]; intros cur; simpl; [done|].
  by rewrite IH.
Qed.

Lemma findGap_anonymous day blocks n :
  findGap day (anonymous <$> blocks) n = findGap day blocks n.
Proof.
  unfold findGap. rewrite <- (sort_fmap anonymous cmpStart cmpStart) by done.
  apply scan_anonymous.
Qed.

Lemma insertBlock_anonymous blocks blk :
  anonymous <$> insertBlock blocks blk = insertBlock (anonymous <$> blocks) (anonymous blk).
Proof.
  unfold insertBlock. rewrite (sort_fmap anonymous cmpStart cmpStart) by done.
  by rewrite fmap_app.
Qed.

Lemma chunkLoop_anonymous day uid fuel t dur blocks k remaining :
  chunkLoop day noUid fuel t dur (anonymous <$> blocks) k remaining
  = (λ r : list Block.t * nat * Z, (anonymous <$> r.1.1, r.1.2, r.2))
      <$> chunkLoop day uid fuel t dur blocks k remaining.
Proof.
  revert blocks k remaining.
  induction fuel as [|fuel IH]; intros blocks k remaining; simpl; [done|].
  destruct (0 <? remaining); [|done].
  rewrite findGap_anonymous.
  destruct (findGap day blocks (chunkOf remaining)) as [g|]; [|done].
  rewrite <- IH. by rewrite insertBlock_anonymous.
Qed.

Lemma placeTask_anonymous day uid a t :
  placeTask day noUid (anonymousAlloc a) t = anonymousAlloc (placeTask day uid a t).
Proof.
  unfold placeTask, placeChunks, anonymousAlloc. cbn [dayBlocks unplaced uids].
  destruct (canSplit t); cbn [negb].
  - rewrite (chunkLoop_anonymous day uid).
    destruct (chunkLoop day uid _ _ _ _ _ _) as [[[blocks k] remaining]|];
      cbn [fmap option_fmap option_map default fst snd dayBlocks unplaced uids].
    + by destruct (0 <? remaining).
    + by destruct (0 <? normDuration t).
  - rewrite findGap_anonymous.
    destruct (findGap day (dayBlocks a) (normDuration t)) as [g|];
      cbn [dayBlocks unplaced uids]; [|done].
    by rewrite insertBlock_anonymous.
Qed.

Lemma allocate_anonymous day uid a ts :
  allocate day noUid (anonymousAlloc a) ts = anonymousAlloc (allocate day uid a ts).
Proof.
  revert a. induction ts as [|t ts IH]; intros a; simpl; [done|].
  by rewrite (placeTask_anonymous day uid), IH.
Qed.

(** C8, as the code has it.  Two runs of [buildSchedule] on the same
    state, whatever [uid()] returns in each, both succeed or both fail,
    and when they succeed they give block lists that agree block by
    block in everything but the identifier (task, title, start, end,
    fixed and done flags), and the same [unplaced] list. *)
Theorem buildSchedule_deterministic `{Host} (uid1 uid2 : nat → string) (st : State)
    (dateKey : string) :
  option_Forall2
    (λ r1 r2, Forall2 sameButId (Schedule.placed r1.2) (Schedule.placed r2.2)
              ∧ Schedule.unplaced r1.2 = Schedule.unplaced r2.2)
    (buildSchedule uid1 st dateKey) (buildSchedule uid2 st dateKey).
Proof.
  unfold buildSchedule.
  destruct (getDayRange st) as [day|]; simpl; [|constructor].
  destruct (getLunchBlock st) as [lunch|]; simpl; [|constructor].
  destruct (sortTasks st _) as [ts|]; simpl; [|constructor].
  constructor. simpl.
  pose proof (allocate_anonymous day uid1 (mkAlloc (fixedBlocks lunch) [] 0) ts) as H1.
  pose proof (allocate_anonymous day uid2 (mkAlloc (fixedBlocks lunch) [] 0) ts) as H2.
  rewrite H1 in H2. unfold anonymousAlloc in H2. injection H2 as Hblocks Hun Huids.
  split; [|done].
  clear -Hblocks. revert Hblocks.
  generalize (dayBlocks (allocate day uid1 (mkAlloc (fixedBlocks lunch) [] 0) ts)).
  generalize (dayBlocks (allocate day uid2 (mkAlloc (fixedBlocks lunch) [] 0) ts)).
  intros l2 l1. revert l2.
  induction l1 as [|b1 l1 IH]; intros [|b2 l2]; try done.
  rewrite !fmap_cons. intros Heq.
  constructor; [unfold sameButId; congruence|apply IH; congruence].
Qed.

(** C8 as stated fails: the identifiers of the placed blocks are what
    [uid()] returns, so two runs that draw different identifiers give
    different block lists. *)
Lemma buildSchedule_deterministic_counterexample :
  let st := sampleState "09:00" "12:00" 0 "none" [sampleTask "t1" 90 "不可" 1] in
  ∃ st1 out1 st2 out2,
    @buildSchedule utcHost uidA st "2026-01-15" = Some (st1, out1)
    ∧ @buildSchedule utcHost uidB st "2026-01-15" = Some (st2, out2)
    ∧ (Block.id <$> Schedule.placed out1) = ["a0"]
    ∧ (Block.id <$> Schedule.placed out2) = ["b0"]
    ∧ Schedule.placed out1 ≠ Schedule.placed out2.
Proof.
  intros st. eexists _, _, _, _.
  split; [vm_compute; reflexivity|]. split; [vm_compute; reflexivity|].
  split; [by vm_compute|]. split; [by vm_compute|]. by vm_compute.
Qed.

(** ** The store operations *)

Lemma findIndex_first {A : Type} (p : A → bool) (l : list A) (i : nat) (x : A) :
  l !! i = Some x → p x = true →
  (∀ j y, (j < i)%nat → l !! j = Some y → p y = false) →
  findIndex p l = Some i.
Proof.
  revert i. induction l as [|z l IH]; intros i Hi Hp Hfirst; [done|]. simpl.
  destruct i as [|i]; simpl in Hi.
  - injection Hi as ->. by rewrite Hp.
  - rewrite (Hfirst O z) by (done || lia).
    rewrite (IH i); [done|done|done|].
    intros j y Hj Hy. apply (Hfirst (S j) y); [lia|done].
Qed.

Lemma NoDup_lookup_fmap {A B : Type} (f : A → B) (l : list A) (i j : nat) (x y : A) :
  NoDup (f <$> l) → l !! i = Some x → l !! j = Some y → f x = f y → i = j.
Proof.
  intros Hnd Hi Hj Heq.
  eapply (NoDup_lookup _ i j (f x) Hnd); rewrite list_lookup_fmap.
  - by rewrite Hi.
  - by rewrite Hj, Heq.
Qed.

Lemma findIndex_id blocks idx b :
  NoDup (Block.id <$> blocks) → blocks !! idx = Some b →
  findIndex (λ x, String.eqb (Block.id x) (Block.id b)) blocks = Some idx.
Proof.
  intros Hnd Hb. eapply findIndex_first; [done|apply String.eqb_refl|].
  intros j y Hj Hy. apply String.eqb_neq. intros Heq.
  pose proof (NoDup_lookup_fmap Block.id blocks j idx y b Hnd Hy Hb Heq). lia.
Qed.



Lemma hasOverlap_true st dateKey bid s e :
  hasOverlap st dateKey bid s e = true ↔
  ∃ b', b' ∈ getScheduleForDate st dateKey ∧ Block.id b' ≠ bid
        ∧ ¬ (e <= Block.startMin b' ∨ Block.endMin b' <= s).
Proof.
  unfold hasOverlap. rewrite existsb_exists. split.
  - intros (b' & Hin & Hb'). exists b'. rewrite list_elem_of_In. split; [done|].
    apply andb_true_iff in Hb' as [Hid Hov].
    apply negb_true_iff in Hid, Hov. apply String.eqb_neq in Hid.
    apply orb_false_iff in Hov as [H1 H2]. split; [done|]. lia.
  - intros (b' & Hin & Hid & Hov). exists b'. rewrite <- list_elem_of_In. split; [done|].
    apply andb_true_iff. rewrite !negb_true_iff. split; [by apply String.eqb_neq|].
    apply orb_false_iff. lia.
Qed.

(** The day read back after a sorted list was stored for it. *)
Lemma getScheduleForDate_set st dateKey l :
  getScheduleForDate (setSchedule st dateKey (sort cmpStart l)) dateKey = sort cmpStart l.
Proof.
  unfold getScheduleForDate, setSchedule; simpl. rewrite lookup_insert_eq. simpl.
  apply sort_idempotent; [apply cmpStart_total|apply cmpStart_trans].
Qed.

Lemma insert_Permutation_delete {A : Type} (l : list A) (i : nat) (x y : A) :
  l !! i = Some y → <[i := x]> l ≡ₚ x :: delete i l.
Proof.
  intros Hi. rewrite insert_take_drop by by eapply lookup_lt_Some.
  rewrite delete_take_drop. by rewrite Permutation_middle.
Qed.

(** C7.  For a block of the day's schedule that is not fixed (ids being
    unique): when the candidate [s, e) overlaps no other block of the
    day, fixed or not, touching allowed and no buffer asked for, the day
    read back after [moveBlock] holds the block with its start and end
    replaced by [s] and [e] and every other block as it was, sorted by
    start, and the other days, the tasks and the settings are
    untouched; when the candidate overlaps some other block,
    [moveBlock] returns the state unchanged.  The move is accepted
    exactly in the first case. *)
Theorem moveBlock_accepts_iff_free (st : State) (dateKey : string) (s e : Z)
    (idx : nat) (b : Block.t) :
  NoDup (Block.id <$> getScheduleForDate st dateKey) →
  getScheduleForDate st dateKey !! idx = Some b →
  Block.fixed b = false →
  ((∀ j b', j ≠ idx → getScheduleForDate st dateKey !! j = Some b' →
      e <= Block.startMin b' ∨ Block.endMin b' <= s) →
   getScheduleForDate (moveBlock st dateKey (Block.id b) s e) dateKey
   = sort cmpStart (<[idx := moved b s e]> (getScheduleForDate st dateKey))
   ∧ getScheduleForDate (moveBlock st dateKey (Block.id b) s e) dateKey
     ≡ₚ moved b s e :: delete idx (getScheduleForDate st dateKey)
   ∧ scheduleByDate (moveBlock st dateKey (Block.id b) s e) !! dateKey
     = Some (sort cmpStart (<[idx := moved b s e]> (getScheduleForDate st dateKey)))
   ∧ (∀ other, other ≠ dateKey →
        scheduleByDate (moveBlock st dateKey (Block.id b) s e) !! other
        = scheduleByDate st !! other)
   ∧ tasks (moveBlock st dateKey (Block.id b) s e) = tasks st
   ∧ settings (moveBlock st dateKey (Block.id b) s e) = settings st)
  ∧ ((∃ j b', j ≠ idx ∧ getScheduleForDate st dateKey !! j = Some b'
              ∧ ¬ (e <= Block.startMin b' ∨ Block.endMin b' <= s)) →
     moveBlock st dateKey (Block.id b) s e = st)
  ∧ ((∀ j b', j ≠ idx → getScheduleForDate st dateKey !! j = Some b' →
        e <= Block.startMin b' ∨ Block.endMin b' <= s)
     ∨ (∃ j b', j ≠ idx ∧ getScheduleForDate st dateKey !! j = Some b'
                ∧ ¬ (e <= Block.startMin b' ∨ Block.endMin b' <= s)))
  ∧ Block.startMin (moved b s e) = s ∧ Block.endMin (moved b s e) = e
  ∧ (Block.id (moved b s e), Block.taskId (moved b s e), Block.title (moved b s e),
     Block.fixed (moved b s e), Block.done (moved b s e))
    = (Block.id b, Block.taskId b, Block.title b, Block.fixed b, Block.done b).
Proof.
  intros Hnd Hb Hfree.
  assert (Hmove : moveBlock st dateKey (Block.id b) s e
            = if hasOverlap st dateKey (Block.id b) s e then st
              else setSchedule st dateKey
                     (sort cmpStart (<[idx := moved b s e]> (getScheduleForDate st dateKey)))).
  { unfold moveBlock. rewrite (findIndex_id _ idx b Hnd Hb), Hb, Hfree. done. }
  assert (Hyes : (∃ j b', j ≠ idx ∧ getScheduleForDate st dateKey !! j = Some b'
                          ∧ ¬ (e <= Block.startMin b' ∨ Block.endMin b' <= s))
                 ↔ hasOverlap st dateKey (Block.id b) s e = true).
  { rewrite hasOverlap_true. split.
    - intros (j & b' & Hj & Hb' & Hov). exists b'.
      split_and!; [by eapply list_elem_of_lookup_2| |done].
      intros Heq. apply Hj.
      by eapply (NoDup_lookup_fmap Block.id _ j idx b' b Hnd).
    - intros (b' & [j Hj]%list_elem_of_lookup_1 & Hid & Hov). exists j, b'.
      split_and!; [|done|done].
      intros ->. rewrite Hb in Hj. by injection Hj as ->. }
  split; [|split; [|split; [|done]]].
  - intros Hno.
    assert (Hov : hasOverlap st dateKey (Block.id b) s e = false).
    { destruct (Bool.bool_dec (hasOverlap st dateKey (Block.id b) s e) true) as [Hov|Hov];
        [|by apply not_true_is_false].
      apply Hyes in Hov as (j & b' & Hj & Hb' & Hov). destruct Hov. by apply (Hno j). }
    rewrite Hmove, Hov.
    assert (Hread : getScheduleForDate
                      (setSchedule st dateKey
                         (sort cmpStart
                            (<[idx := moved b s e]> (getScheduleForDate st dateKey))))
                      dateKey
                    = sort cmpStart (<[idx := moved b s e]> (getScheduleForDate st dateKey)))
      by apply getScheduleForDate_set.
    split; [exact Hread|]. split.
    { rewrite Hread, sort_Permutation. by eapply insert_Permutation_delete. }
    simpl. split; [by rewrite lookup_insert_eq|]. split; [|done].
    intros other Hother. by rewrite lookup_insert_ne.
  - intros Hov%Hyes. by rewrite Hmove, Hov.
  - destruct (Bool.bool_dec (hasOverlap st dateKey (Block.id b) s e) true) as [Hov|Hov].
    + right. by apply Hyes.
    + left. intros j b' Hj Hb'.
      destruct (decide (e <= Block.startMin b' ∨ Block.endMin b' <= s)) as [|Hn]; [done|].
      destruct Hov. apply Hyes. by exists j, b'.
Qed.

Lemma moveBlock_accepts_iff_free_witness :
  let b := Block.mk "a1" "t2" "t2" 610 670 false false in
  NoDup (Block.id <$> getScheduleForDate storeSample "2026-01-15")
  ∧ getScheduleForDate storeSample "2026-01-15" !! 1%nat = Some b
  ∧ Block.fixed b = false
  ∧ getScheduleForDate (moveBlock storeSample "2026-01-15" "a1" 600 660) "2026-01-15"
    = [Block.mk "a0" "t1" "t1" 540 600 false false;
       Block.mk "a1" "t2" "t2" 600 660 false false;
       lunchBlock (720, 780)]
  ∧ getScheduleForDate (moveBlock storeSample "2026-01-15" "a1" 590 650) "2026-01-15"
    = getScheduleForDate storeSample "2026-01-15"
  ∧ moveBlock storeSample "2026-01-15" "a1" 590 650 = storeSample.
Proof.
  intros b.
  assert (Hnd : NoDup (Block.id <$> getScheduleForDate storeSample "2026-01-15"))
    by (apply (bool_decide_unpack _); vm_compute; reflexivity).
  assert (Hb : getScheduleForDate storeSample "2026-01-15" !! 1%nat = Some b)
    by reflexivity.
  assert (Hfree : Block.fixed b = false) by reflexivity.
  assert (Hreject : moveBlock storeSample "2026-01-15" "a1" 590 650 = storeSample).
  { destruct (moveBlock_accepts_iff_free storeSample "2026-01-15" 590 650 1 b Hnd Hb Hfree)
      as (_ & Hreject & _).
    apply (Hreject : _ → moveBlock storeSample "2026-01-15" "a1" 590 650 = _).
    exists O, (Block.mk "a0" "t1" "t1" 540 600 false false).
    split_and!; [done|reflexivity|simpl; lia]. }
  split_and!; [exact Hnd|exact Hb|exact Hfree| | |exact Hreject].
  - destruct (moveBlock_accepts_iff_free storeSample "2026-01-15" 600 660 1 b Hnd Hb Hfree)
      as (Haccept & _).
    destruct Haccept as (Hread & _).
    + intros [|[|[|j]]] b' Hj Hl; vm_compute in Hl; try done;
        injection Hl as <-; simpl; lia.
    + exact (eq_trans Hread eq_refl).
  - exact (f_equal (λ st, getScheduleForDate st "2026-01-15") Hreject).
Defined.






(** ** The interval-list allocator *)

Section IntervalListFacts.
Import IntervalList.
Context (bufferMin : Z) (generateId : nat → string).

(** What the split loop returns: the minutes of the new blocks and the
    minutes left add up, and every new block takes at least a minute. *)
Lemma splitLoop_minutes fuel t free newBlocks k remaining i free' newBlocks' k' remaining' :
  splitLoop bufferMin generateId fuel t free newBlocks k remaining i
  = Some (free', newBlocks', k', remaining') →
  0 <= remaining →
  0 <= remaining' <= remaining
  ∧ (∃ added, newBlocks' = newBlocks ++ added
              ∧ sumZ slotMinutes added = remaining - remaining'
              ∧ Z.of_nat (length added) <= remaining - remaining'
              ∧ k' = (k + length added)%nat
              ∧ Forall (λ b, 1 <= slotMinutes b) added).
Proof.
  revert free newBlocks k remaining i.
  induction fuel as [|fuel IH]; intros free newBlocks k remaining i; simpl; [done|].
  assert (Hstay : 0 <= remaining →
            0 <= remaining <= remaining
            ∧ ∃ added, newBlocks = newBlocks ++ added
                       ∧ sumZ slotMinutes added = remaining - remaining
                       ∧ Z.of_nat (length added) <= remaining - remaining
                       ∧ k = (k + length added)%nat
                       ∧ Forall (λ b, 1 <= slotMinutes b) added).
  { intros. split; [lia|]. exists []. rewrite app_nil_r. simpl.
    split_and!; lia || done || constructor. }
  destruct (free !! i) as [iv|]; [|by intros [= <- <- <- <-]].
  destruct (Z.ltb_spec 0 remaining) as [Hpos|Hle]; [|by intros [= <- <- <- <-]].
  destruct (Z.leb_spec (Interval.end_ iv - Interval.start iv) 0) as [Hav|Hav].
  - apply IH.
  - intros Hloop _.
    apply IH in Hloop as (Hr & added & -> & Hsum & Hlen & -> & Hmin); [|lia].
    split; [lia|].
    exists (blockFor generateId t k (Interval.start iv)
              (Interval.start iv
               + Z.min (Interval.end_ iv - Interval.start iv) remaining) :: added).
    rewrite <- app_assoc. simpl. unfold slotMinutes at 1. simpl.
    split_and!; [done|lia|lia|lia|].
    constructor; [unfold slotMinutes; simpl; lia|done].
Qed.

(** The split loop returns: [remaining] falls at every placement and
    the index rises between placements. *)
Lemma splitLoop_returns t (n : nat) :
  ∀ remaining, (Z.to_nat remaining <= n)%nat →
  ∀ (m : nat) free i, (length free - i <= m)%nat →
  ∀ newBlocks k,
  ∃ fuel r, ∀ fuel', (fuel <= fuel')%nat →
    splitLoop bufferMin generateId fuel' t free newBlocks k remaining i = Some r.
Proof.
  induction n as [|n IHn]; intros remaining Hn.
  - intros m free i _ newBlocks k. exists 1%nat, (free, newBlocks, k, remaining).
    intros [|fuel'] Hfuel; [lia|]. simpl.
    destruct (free !! i); [|done]. by destruct (Z.ltb_spec 0 remaining); [lia|].
  - induction m as [|m IHm]; intros free i Hm newBlocks k.
    + exists 1%nat, (free, newBlocks, k, remaining).
      intros [|fuel'] Hfuel; [lia|]. simpl.
      rewrite (lookup_ge_None_2 free i) by lia. done.
    + destruct (free !! i) as [iv|] eqn:Hiv.
      2:{ exists 1%nat, (free, newBlocks, k, remaining).
          intros [|fuel'] Hfuel; [lia|]. simpl. by rewrite Hiv. }
      destruct (Z.ltb_spec 0 remaining) as [Hpos|Hle].
      2:{ exists 1%nat, (free, newBlocks, k, remaining).
          intros [|fuel'] Hfuel; [lia|]. simpl. rewrite Hiv.
          by destruct (Z.ltb_spec 0 remaining); [lia|]. }
      apply lookup_lt_Some in Hiv as Hlt.
      destruct (Z.leb_spec (Interval.end_ iv - Interval.start iv) 0) as [Hav|Hav].
      * destruct (IHm free (S i) ltac:(lia) newBlocks k) as (fuel & r & Hr).
        exists (S fuel), r. intros [|fuel'] Hfuel; [lia|]. simpl. rewrite Hiv.
        destruct (Z.ltb_spec 0 remaining); [|lia].
        destruct (Z.leb_spec (Interval.end_ iv - Interval.start iv) 0); [|lia].
        apply Hr. lia.
      * set (use := Z.min (Interval.end_ iv - Interval.start iv) remaining).
        set (free' := subtractBusy free
                        (Interval.mk (Interval.start iv)
                           (Interval.start iv + use + bufferMin))).
        destruct (IHn (remaining - use) ltac:(lia) (length free') free' O ltac:(lia)
                    (newBlocks ++ [blockFor generateId t k (Interval.start iv)
                                     (Interval.start iv + use)]) (S k))
          as (fuel & r & Hr).
        exists (S fuel), r. intros [|fuel'] Hfuel; [lia|]. simpl. rewrite Hiv.
        destruct (Z.ltb_spec 0 remaining); [|lia].
        destruct (Z.leb_spec (Interval.end_ iv - Interval.start iv) 0); [lia|].
        apply Hr. lia.
Qed.

Lemma allocateTask_minutes fuel p t p' :
  allocateTask bufferMin generateId fuel p t = Some p' →
  0 < Task.duration t →
  ∃ added us,
    blocks p' = blocks p ++ added ∧ unplaced p' = unplaced p ++ us
    ∧ sumZ slotMinutes added + sumZ snd us = Task.duration t
    ∧ (length us <= 1)%nat
    ∧ Z.of_nat (length added) <= Task.duration t
    ∧ Forall (λ b, 1 <= slotMinutes b) added.
Proof.
  unfold allocateTask. intros Hp Hpos.
  destruct (String.eqb (Task.split t) "不可").
  - destruct (List.find _ (freeIntervals p)) as [iv|]; injection Hp as <-; simpl.
    + eexists [_], []. rewrite app_nil_r.
      split_and!; [done|done|unfold slotMinutes, blockFor; simpl; lia|simpl; lia|simpl; lia|].
      repeat constructor. unfold slotMinutes, blockFor; simpl; lia.
    + exists [], [(Task.title t, Task.duration t)]. rewrite app_nil_r. simpl.
      split_and!; [done|done|lia|lia|lia|constructor].
  - apply bind_Some in Hp as ([[[free newBlocks] k] remaining] & Hloop & [= <-]).
    apply splitLoop_minutes in Hloop as (Hr & added & -> & Hsum & Hlen & _ & Hmin); [|lia].
    simpl. exists added.
    destruct (Z.ltb_spec 0 remaining).
    + exists [(Task.title t, remaining)]. simpl. split_and!; [done|done|lia|lia|lia|done].
    + exists []. rewrite app_nil_r. simpl. split_and!; [done|done|lia|lia|lia|done].
Qed.

Lemma allocateTask_returns p t :
  ∃ fuel p', ∀ fuel', (fuel <= fuel')%nat →
    allocateTask bufferMin generateId fuel' p t = Some p'.
Proof.
  unfold allocateTask. destruct (String.eqb (Task.split t) "不可").
  - destruct (List.find _ (freeIntervals p)); by eexists O, _.
  - destruct (splitLoop_returns t (Z.to_nat (Task.duration t)) (Task.duration t)
                ltac:(lia) (length (freeIntervals p)) (freeIntervals p) O ltac:(lia)
                [] (uids p))
      as (fuel & [[[free newBlocks] k] remaining] & Hr).
    eexists fuel, _. intros fuel' Hfuel. by rewrite (Hr fuel' Hfuel).
Qed.

Lemma allocateAll_returns p ts :
  ∃ fuel p', ∀ fuel', (fuel <= fuel')%nat →
    allocateAll bufferMin generateId fuel' p ts = Some p'.
Proof.
  revert p. induction ts as [|t ts IH]; intros p; simpl; [by exists O, p|].
  destruct (allocateTask_returns p t) as (fuel1 & p1 & H1).
  destruct (IH p1) as (fuel2 & p2 & H2).
  exists (fuel1 `max` fuel2)%nat, p2. intros fuel' Hfuel.
  rewrite (H1 fuel') by lia. simpl. apply H2. lia.
Qed.
End IntervalListFacts.

(** ** Conservation and termination, for both allocators *)

(** C6.  For a task handed to the allocator, the lengths of the blocks
    placed for it and the remainder recorded for it in [unplaced]
    (nothing when it has no entry there) add up to its duration.  In
    [buildSchedule] the task is one that is not done, with an id no
    other such task has and a duration on the 5-minute grid, its blocks
    are those carrying its id, and the remainder of an entry is its
    [_remaining], or the whole duration when the entry is the task
    itself (a task that may not be split).  In [generateSchedule] the
    pass of a task of positive duration appends blocks and at most one
    entry of [unplaced], and their minutes add up to the duration. *)
Theorem allocator_conservation `{Host} :
  (∀ (uid : nat → string) (st st' : State) (dateKey : string) (out : Schedule.t)
     (t : Task.t),
     buildSchedule uid st dateKey = Some (st', out) →
     NoDup (Task.id <$> tasksToSchedule st dateKey) →
     t ∈ tasksToSchedule st dateKey →
     0 < Task.duration t → Task.duration t mod 5 = 0 →
     placedMinutes (Task.id t) (Schedule.placed out)
     + unplacedMinutes (Task.id t) (Schedule.unplaced out)
     = Task.duration t)
  ∧ (∀ (bufferMin : Z) (generateId : nat → string) (fuel : nat)
       (p p' : IntervalList.Plan) (t : IntervalList.Task.t),
       IntervalList.allocateTask bufferMin generateId fuel p t = Some p' →
       0 < IntervalList.Task.duration t →
       ∃ added us,
         IntervalList.blocks p' = IntervalList.blocks p ++ added
         ∧ IntervalList.unplaced p' = IntervalList.unplaced p ++ us
         ∧ (length us <= 1)%nat
         ∧ sumZ slotMinutes added + sumZ snd us = IntervalList.Task.duration t).
Proof.
  split.
  - intros. by eapply buildSchedule_minutes.
  - intros bufferMin generateId fuel p p' t Hp Hpos.
    destruct (allocateTask_minutes _ _ _ _ _ _ Hp Hpos)
      as (added & us & Hb & Hu & Hsum & Hlen & _).
    by exists added, us.
Qed.

Lemma allocator_conservation_witness :
  let t1 := sampleTask "t1" 200 "可" 1 in
  let st := sampleState "09:00" "12:00" 10 "10:00-11:00" [t1; sampleTask "t2" 60 "不可" 2] in
  let t := IntervalList.Task.mk "t" 100 "可" "" "" in
  let p := IntervalList.mkPlan
             [IntervalList.Interval.mk 540 590; IntervalList.Interval.mk 600 630] [] [] 0 in
  (∃ st' out,
     @buildSchedule utcHost uidA st "2026-01-15" = Some (st', out)
     ∧ NoDup (Task.id <$> tasksToSchedule st "2026-01-15")
     ∧ t1 ∈ tasksToSchedule st "2026-01-15"
     ∧ 0 < Task.duration t1 ∧ Task.duration t1 mod 5 = 0
     ∧ placedMinutes (Task.id t1) (Schedule.placed out)
       + unplacedMinutes (Task.id t1) (Schedule.unplaced out)
       = Task.duration t1)
  ∧ (∃ p',
       IntervalList.allocateTask 10 uidA 5 p t = Some p'
       ∧ 0 < IntervalList.Task.duration t
       ∧ ∃ added us,
           IntervalList.blocks p' = IntervalList.blocks p ++ added
           ∧ IntervalList.unplaced p' = IntervalList.unplaced p ++ us
           ∧ (length us <= 1)%nat
           ∧ sumZ slotMinutes added + sumZ snd us = IntervalList.Task.duration t).
Proof.
  intros t1 st t p. split.
  - eassert (Hb : @buildSchedule utcHost uidA st "2026-01-15" = Some (_, _))
      by (vm_compute; reflexivity).
    assert (Hnd : NoDup (Task.id <$> tasksToSchedule st "2026-01-15"))
      by (apply (bool_decide_unpack _); vm_compute; reflexivity).
    assert (Ht : t1 ∈ tasksToSchedule st "2026-01-15") by (simpl; left).
    assert (Hpos : 0 < Task.duration t1) by (simpl; lia).
    assert (Hgrid : Task.duration t1 mod 5 = 0) by reflexivity.
    eexists _, _.
    exact (conj Hb (conj Hnd (conj Ht (conj Hpos (conj Hgrid
      (proj1 (@allocator_conservation utcHost) uidA st _ _ _ t1 Hb Hnd Ht Hpos Hgrid)))))).
  - eassert (Hp : IntervalList.allocateTask 10 uidA 5 p t = Some _)
      by (vm_compute; reflexivity).
    assert (Hpos : 0 < IntervalList.Task.duration t) by (simpl; lia).
    eexists.
    exact (conj Hp (conj Hpos
      (proj2 (@allocator_conservation utcHost) 10 uidA 5%nat p _ t Hp Hpos))).
Defined.

(** C10, as the code has it.  Both allocators return on every input.
    In [buildSchedule] the chunk loop of a task returns for every amount
    of fuel above [ceil (duration / 30)], always with the same result,
    having placed at most [ceil (duration / 30)] chunks, and the loop
    over the tasks makes one pass per task, which adds at most one entry
    to [unplaced] and at most [ceil (duration / 30)] blocks.  In
    [generateSchedule] the loop over the tasks returns once the fuel is
    large enough, and the pass of a task of positive duration places at
    most [duration] blocks, each at least a minute long. *)
Theorem allocator_terminates (day : DayRange) (uid : nat → string) :
  (∀ t dur blocks k,
     ∃ blocks' k' remaining',
       (∀ fuel, (Z.to_nat (chunkBound dur) < fuel)%nat →
          chunkLoop day uid fuel t dur blocks k dur = Some (blocks', k', remaining'))
       ∧ placeChunks day uid t dur blocks k = (blocks', k', remaining')
       ∧ (k <= k')%nat
       ∧ length blocks' = (length blocks + (k' - k))%nat
       ∧ Z.of_nat (k' - k) <= chunkBound dur
       ∧ chunkBound dur = (Z.max 0 dur + 29) / 30)
  ∧ (∀ a ts,
       (length (unplaced (allocate day uid a ts)) <= length (unplaced a) + length ts)%nat
       ∧ Z.of_nat (length (dayBlocks (allocate day uid a ts)))
         <= Z.of_nat (length (dayBlocks a)) + sumZ (λ t, chunkBound (normDuration t)) ts)
  ∧ (∀ bufferMin p ts,
       ∃ fuel p', ∀ fuel', (fuel <= fuel')%nat →
         IntervalList.allocateAll bufferMin uid fuel' p ts = Some p')
  ∧ (∀ bufferMin fuel p p' t,
       IntervalList.allocateTask bufferMin uid fuel p t = Some p' →
       0 < IntervalList.Task.duration t →
       ∃ added, IntervalList.blocks p' = IntervalList.blocks p ++ added
                ∧ Z.of_nat (length added) <= IntervalList.Task.duration t
                ∧ Forall (λ b, 1 <= slotMinutes b) added).
Proof.
  split_and!.
  - intros t dur blocks k.
    destruct (chunkLoop_returns day uid (S (Z.to_nat (chunkBound dur))) t dur blocks k dur)
      as (blocks' & k' & remaining' & Hloop & Hk & Hlen & Hcount); [lia|].
    exists blocks', k', remaining'. split_and!; [|  |done|done|done|done].
    + intros fuel Hfuel. eapply chunkLoop_fuel; [exact Hloop|lia].
    + pose proof (placeChunks_run day uid t dur blocks k) as Hrun.
      pose proof (chunkBound_le dur).
      rewrite (chunkLoop_fuel _ _ _ (S (Z.to_nat dur)) _ _ _ _ _ _ Hloop) in Hrun by lia.
      by injection Hrun.
  - intros a ts. revert a. induction ts as [|t ts IH]; intros a; simpl; [lia|].
    destruct (IH (placeTask day uid a t)) as [IH1 IH2].
    destruct (placeTask_bounds day uid a t) as [H1 H2]. lia.
  - intros. apply allocateAll_returns.
  - intros bufferMin fuel p p' t Hp Hpos.
    destruct (allocateTask_minutes _ _ _ _ _ _ Hp Hpos)
      as (added & us & Hb & _ & _ & _ & Hlen & Hmin).
    by exists added.
Qed.

(** C10 as stated fails: a task of 40 minutes that may be split is
    placed in two chunks (30 and 10), more than 40 / 30. *)
Lemma allocator_chunks_counterexample :
  let t := sampleTask "t1" 40 "可" 1 in
  let st := sampleState "09:00" "18:00" 0 "none" [t] in
  ∃ st' out,
    @buildSchedule utcHost uidA st "2026-01-15" = Some (st', out)
    ∧ (Block.startMin <$> Schedule.placed out) = [540; 570]
    ∧ (Block.endMin <$> Schedule.placed out) = [570; 580]
    ∧ (Block.taskId <$> Schedule.placed out) = [Task.id t; Task.id t]
    ∧ Schedule.unplaced out = []
    ∧ ¬ (Z.of_nat (length (Schedule.placed out)) <= Task.duration t / 30)
    ∧ ¬ (30 * Z.of_nat (length (Schedule.placed out)) <= Task.duration t).
Proof.
  intros t st. eexists _, _.
  split; [vm_compute; reflexivity|].
  vm_compute. split_and!; try reflexivity; intros Hle; by apply Hle.
Qed.

(** ** Scenarios of the specification *)

(** Day 09:00-12:00, no buffer, one task of 90 minutes that may not be
    split: placed at 09:00-10:30. *)
Example scenario_placed :
  (λ r, ((λ b, (Block.startMin b, Block.endMin b)) <$> Schedule.placed r.2,
         Schedule.unplaced r.2))
    <$> @buildSchedule utcHost uidA
          (sampleState "09:00" "12:00" 0 "none" [sampleTask "t1" 90 "不可" 1]) "2026-01-15"
  = Some ([(540, 630)], []).
Proof. vm_compute. reflexivity. Qed.

(** Day 09:00-10:00, the same task: not placed, entered in [unplaced]
    whole. *)
Example scenario_no_capacity :
  (λ r, (Schedule.placed r.2, Schedule.unplaced r.2))
    <$> @buildSchedule utcHost uidA
          (sampleState "09:00" "10:00" 0 "none" [sampleTask "t1" 90 "不可" 1]) "2026-01-15"
  = Some ([], [mkUnplaced (sampleTask "t1" 90 "不可" 1) None]).
Proof. vm_compute. reflexivity. Qed.

(** Day 09:00-11:00, buffer 10, two tasks of 60 minutes that may not be
    split: the first at 09:00-10:00, the second not placed. *)
Example scenario_buffer :
  (λ r, ((λ b, (Block.taskId b, Block.startMin b, Block.endMin b)) <$> Schedule.placed r.2,
         Schedule.unplaced r.2))
    <$> @buildSchedule utcHost uidA
          (sampleState "09:00" "11:00" 10 "none"
             [sampleTask "t1" 60 "不可" 1; sampleTask "t2" 60 "不可" 2]) "2026-01-15"
  = Some ([("t1", 540, 600)], [mkUnplaced (sampleTask "t2" 60 "不可" 2) None]).
Proof. vm_compute. reflexivity. Qed.

(** The return inside the loop of [findGap] does not look at day-end:
    with the day 07:00-11:00 and lunch at 12:00-13:00 a task of 300
    minutes is placed at 07:00-12:00. *)
Example scenario_past_day_end :
  (λ r, (λ b, (Block.taskId b, Block.startMin b, Block.endMin b)) <$> Schedule.placed r.2)
    <$> @buildSchedule utcHost uidA
          (sampleState "07:00" "11:00" 10 "12:00-13:00" [sampleTask "t1" 300 "不可" 1])
          "2026-01-15"
  = Some [("t1", 420, 720); ("lunch", 720, 780)].
Proof. vm_compute. reflexivity. Qed.

(** ** The gap finder never misses a slot *)

Lemma scan_earliest day n cur blocks p :
  cur <= p → p + n <= endMin day →
  (∀ b, b ∈ blocks → Block.endMin b + buffer day <= p ∨ p + n <= Block.startMin b) →
  ∃ g, scan day n cur blocks = Some g ∧ s g <= p.
Proof.
  revert cur. induction blocks as [|b rest IH]; intros cur Hcur Hend Hall; simpl.
  - destruct (Z.leb_spec (cur + n) (endMin day)); [|lia].
    eexists; split; [done|simpl; lia].
  - destruct (Z.leb_spec (cur + n) (Block.startMin b)).
    + eexists; split; [done|simpl; lia].
    + apply IH; [|done|].
      * destruct (Hall b) as [?|?]; [by left|lia|lia].
      * intros b' Hb'. apply Hall. by right.
Qed.

(** X1.  [findGap] is complete and returns the earliest start: whenever
    some start [p] is feasible for [n] minutes (inside the day, and for
    every block either [buffer] after its end or ending by its start),
    [findGap] returns a gap of [n] minutes, and that gap starts at
    day-start or later and no later than [p]. *)
Theorem findGap_earliest (day : DayRange) (blocks : list Block.t) (n p : Z) :
  feasible day blocks n p →
  ∃ g, findGap day blocks n = Some g
       ∧ startMin day <= s g ∧ s g <= p ∧ e g = s g + n.
Proof.
  intros (Hstart & Hend & Hall).
  destruct (scan_earliest day n (startMin day) (sort cmpStart blocks) p)
    as (g & Hg & Hle); [done|done| |].
  { intros b Hb. apply Hall. by rewrite <-(sort_Permutation cmpStart blocks). }
  exists g. split; [done|].
  destruct (findGap_gap day blocks n g Hg) as (He & Hs & _).
  by split_and!.
Qed.

Lemma findGap_earliest_witness :
  let day := mkDayRange 540 1080 10 in
  let blocks := [lunchBlock (720, 780); Block.mk "a0" "t1" "t1" 540 600 false false] in
  feasible day blocks 60 800
  ∧ ∃ g, findGap day blocks 60 = Some g
         ∧ startMin day <= s g ∧ s g <= 800 ∧ e g = s g + 60.
Proof.
  intros day blocks.
  assert (Hf : feasible day blocks 60 800).
  { split_and!; [simpl; lia..|].
    intros b [->|[->|[]%elem_of_nil]%elem_of_cons]%elem_of_cons; simpl; lia. }
  exact (conj Hf (findGap_earliest day blocks 60 800 Hf)).
Defined.

(** ** What the allocator stores and returns *)

Lemma append_cons (c : ascii) (x y : string) :
  (String c x +:+ y)%string = String c (x +:+ y).
Proof. reflexivity. Qed.

Lemma append_empty_r (x : string) : (x +:+ "")%string = x.
Proof. induction x as [|c x IH]; [done|]. by rewrite append_cons, IH. Qed.

Lemma chunkTitle_whole t dur : chunkTitle t dur dur = Task.title t.
Proof. unfold chunkTitle. rewrite Z.eqb_refl. simpl. apply append_empty_r. Qed.

(** A property of the block list and of the number of identifiers drawn
    that every placement for a task of the list keeps is kept by the
    loops. *)
Section Provenance.
Context (day : DayRange) (uid : nat → string).
Context (T : Task.t → Prop) (Q : list Block.t → nat → Prop).
Hypothesis Q_insert : ∀ blocks t k chunk g,
  T t → Q blocks k → 0 < chunk <= normDuration t →
  findGap day blocks chunk = Some g →
  Q (insertBlock blocks (taskBlock uid t k (chunkTitle t (normDuration t) chunk) g)) (S k).

Lemma chunkLoop_keeps fuel t blocks k remaining blocks' k' remaining' :
  T t → Q blocks k → remaining <= normDuration t →
  chunkLoop day uid fuel t (normDuration t) blocks k remaining
  = Some (blocks', k', remaining') →
  Q blocks' k'.
Proof using Q_insert.
  intros HT. revert blocks k remaining.
  induction fuel as [|fuel IH]; intros blocks k remaining HQ Hle; simpl; [done|].
  destruct (Z.ltb_spec 0 remaining) as [Hpos|Hneg]; [|by intros [= <- <- _]].
  destruct (findGap day blocks (chunkOf remaining)) as [g|] eqn:Hg;
    [|by intros [= <- <- _]].
  pose proof (chunkOf_bounds remaining Hpos).
  apply IH; [|lia]. apply Q_insert; [done|done|lia|done].
Qed.

Lemma placeTask_keeps a t :
  T t → Q (dayBlocks a) (uids a) →
  Q (dayBlocks (placeTask day uid a t)) (uids (placeTask day uid a t)).
Proof using Q_insert.
  intros HT HQ. unfold placeTask.
  destruct (canSplit t); simpl.
  - unfold placeChunks.
    destruct (chunkLoop _ _ _ _ _ _ _ _) as [[[blocks k] remaining]|] eqn:Hloop; simpl.
    + eapply chunkLoop_keeps; [done|done| |done]. lia.
    + done.
  - destruct (findGap day (dayBlocks a) (normDuration t)) as [g|] eqn:Hg; simpl; [|done].
    rewrite <-(chunkTitle_whole t (normDuration t)).
    pose proof (normDuration_pos t).
    apply Q_insert; [done|done|lia|done].
Qed.

Lemma allocate_keeps_all a ts :
  Forall T ts → Q (dayBlocks a) (uids a) →
  Q (dayBlocks (allocate day uid a ts)) (uids (allocate day uid a ts)).
Proof using Q_insert.
  intros HT. revert a. induction HT as [|t ts Ht _ IH]; intros a HQ; simpl; [done|].
  by apply IH, placeTask_keeps.
Qed.
End Provenance.

Lemma allocate_sorted day uid a ts :
  StronglySorted (cmpLe cmpStart) (dayBlocks a) →
  StronglySorted (cmpLe cmpStart) (dayBlocks (allocate day uid a ts)).
Proof.
  apply allocate_preserves. intros. unfold insertBlock.
  apply sort_sorted; [apply cmpStart_total|apply cmpStart_trans].
Qed.

Lemma fixedBlocks_sorted lunch : StronglySorted (cmpLe cmpStart) (fixedBlocks lunch).
Proof. destruct lunch; simpl; repeat constructor. Qed.

(** The day's schedule read back from the store after [buildSchedule]. *)
Lemma buildSchedule_lookup `{Host} uid st st' dateKey out :
  buildSchedule uid st dateKey = Some (st', out) →
  getScheduleForDate st' dateKey = Schedule.placed out.
Proof.
  intros (day & lunch & ts & _ & _ & _ & -> & ->)%buildSchedule_Some.
  unfold getScheduleForDate, setSchedule; simpl.
  rewrite lookup_insert_eq; simpl.
  apply sort_sorted_id, allocate_sorted, fixedBlocks_sorted.
Qed.

(** [buildSchedule] reads the settings and the tasks only. *)
Lemma buildSchedule_ext `{Host} uid st1 st2 dateKey :
  settings st2 = settings st1 → tasks st2 = tasks st1 →
  buildSchedule uid st2 dateKey
  = (λ r : State * Schedule.t, (setSchedule st2 dateKey (Schedule.placed r.2), r.2))
      <$> buildSchedule uid st1 dateKey.
Proof.
  intros Hs Ht.
  assert (H1 : getDayRange st2 = getDayRange st1)
    by (unfold getDayRange; by rewrite Hs).
  assert (H2 : getLunchBlock st2 = getLunchBlock st1)
    by (unfold getLunchBlock; by rewrite Hs).
  assert (H3 : sortTasks st2 (tasksToSchedule st2 dateKey)
               = sortTasks st1 (tasksToSchedule st1 dateKey))
    by (unfold sortTasks, tasksToSchedule, strategyOf; by rewrite Hs, Ht).
  unfold buildSchedule. rewrite H1, H2, H3.
  destruct (getDayRange st1); simpl; [|done].
  destruct (getLunchBlock st1); simpl; [|done].
  destruct (sortTasks st1 _); simpl; [|done].
  unfold setSchedule; simpl. by rewrite Hs, Ht.
Qed.

(** X2.  [buildSchedule] writes the day's schedule and nothing else:
    reading the day back gives the returned [placed], the schedules of
    the other dates, the tasks and the settings are as before; and
    since it reads the settings and the tasks only, running it again on
    the new state (with the same identifiers) returns the same result
    and leaves the state as it is. *)
Theorem buildSchedule_stored `{Host} (uid : nat → string) (st st' : State)
    (dateKey : string) (out : Schedule.t) :
  buildSchedule uid st dateKey = Some (st', out) →
  getScheduleForDate st' dateKey = Schedule.placed out
  ∧ (∀ other, other ≠ dateKey →
       getScheduleForDate st' other = getScheduleForDate st other)
  ∧ tasks st' = tasks st ∧ settings st' = settings st
  ∧ buildSchedule uid st' dateKey = Some (st', out).
Proof.
  intros Hb. split; [by eapply buildSchedule_lookup|].
  pose proof Hb as (day & lunch & ts & Hday & Hlunch & Hts & Hout & Hst)%buildSchedule_Some.
  subst st'. split_and!; [|done|done|].
  - intros other Hne. unfold getScheduleForDate, setSchedule; simpl.
    by rewrite lookup_insert_ne.
  - rewrite (buildSchedule_ext uid st (setSchedule st dateKey (Schedule.placed out)))
      by done.
    rewrite Hb. simpl. unfold setSchedule; simpl. by rewrite insert_insert_eq.
Qed.

Lemma buildSchedule_stored_witness :
  let st := sampleState "09:00" "18:00" 10 "12:00-13:00"
              [sampleTask "t1" 200 "可" 1; sampleTask "t2" 60 "不可" 2] in
  ∃ st' out,
    @buildSchedule utcHost uidA st "2026-01-15" = Some (st', out)
    ∧ getScheduleForDate st' "2026-01-15" = Schedule.placed out
    ∧ @buildSchedule utcHost uidA st' "2026-01-15" = Some (st', out).
Proof.
  intros st.
  eassert (Hb : @buildSchedule utcHost uidA st "2026-01-15" = Some (_, _))
    by (vm_compute; reflexivity).
  eexists _, _.
  destruct (@buildSchedule_stored utcHost uidA st _ "2026-01-15" _ Hb)
    as (H1 & _ & _ & _ & H2).
  exact (conj Hb (conj H1 H2)).
Defined.

Lemma idsBelow_insert uid blocks t k title g :
  (∀ i j, uid i = uid j → i = j) → (∀ k, uid k ≠ "lunch") →
  idsBelow uid blocks k →
  idsBelow uid (insertBlock blocks (taskBlock uid t k title g)) (S k).
Proof.
  intros Hinj Hlunch [Hnd Hids].
  pose proof (insertBlock_Permutation blocks (taskBlock uid t k title g)) as Hp.
  split.
  - rewrite Hp. simpl. constructor; [|done].
    intros (b & Hid & Hb)%list_elem_of_fmap.
    destruct (Hids b Hb) as [Hl|(j & Hj & Hbj)].
    + apply (Hlunch k). by rewrite Hid.
    + assert (k = j) by (apply Hinj; by rewrite Hid). lia.
  - intros b. rewrite Hp. intros [->|Hb]%elem_of_cons.
    + right. exists k. split; [lia|done].
    + destruct (Hids b Hb) as [?|(j & Hj & ?)]; [by left|].
      right. exists j. split; [lia|done].
Qed.

Lemma fixedBlocks_idsBelow uid lunch : idsBelow uid (fixedBlocks lunch) 0.
Proof.
  split.
  - destruct lunch; simpl; repeat constructor; by intros []%elem_of_nil.
  - destruct lunch; simpl; intros b Hb.
    + apply list_elem_of_singleton in Hb as ->. by left.
    + by apply elem_of_nil in Hb.
Qed.

(** X3.  When [uid()] never returns the same string twice and never
    returns ["lunch"], no two blocks of the schedule built by
    [buildSchedule] carry the same identifier, in the returned list and
    in the day read back from the store: the precondition of the moves,
    toggles and removals by identifier holds for a generated day. *)
Theorem buildSchedule_unique_ids `{Host} (uid : nat → string) (st st' : State)
    (dateKey : string) (out : Schedule.t) :
  (∀ i j, uid i = uid j → i = j) → (∀ k, uid k ≠ "lunch") →
  buildSchedule uid st dateKey = Some (st', out) →
  NoDup (Block.id <$> Schedule.placed out)
  ∧ NoDup (Block.id <$> getScheduleForDate st' dateKey).
Proof.
  intros Hinj Hlunch Hb.
  rewrite (buildSchedule_lookup uid st st' dateKey out Hb).
  apply buildSchedule_Some in Hb as (day & lunch & ts & _ & _ & _ & -> & _).
  simpl.
  assert (Hids : idsBelow uid
            (dayBlocks (allocate day uid (mkAlloc (fixedBlocks lunch) [] 0) ts))
            (uids (allocate day uid (mkAlloc (fixedBlocks lunch) [] 0) ts))).
  { apply (allocate_keeps_all day uid (λ _, True) (idsBelow uid)).
    - intros. by apply idsBelow_insert.
    - by apply Forall_forall.
    - apply fixedBlocks_idsBelow. }
  split; apply Hids.
Qed.

Lemma uidA_inj i j : uidA i = uidA j → i = j.
Proof. unfold uidA. intros Heq. by apply (inj pretty), (inj (String.append "a")). Qed.

Lemma uidA_lunch k : uidA k ≠ "lunch".
Proof. unfold uidA. rewrite append_cons. discriminate. Qed.

Lemma buildSchedule_unique_ids_witness :
  let st := sampleState "09:00" "18:00" 10 "12:00-13:00"
              [sampleTask "t1" 200 "可" 1; sampleTask "t2" 60 "不可" 2] in
  ∃ st' out,
    @buildSchedule utcHost uidA st "2026-01-15" = Some (st', out)
    ∧ NoDup (Block.id <$> Schedule.placed out)
    ∧ NoDup (Block.id <$> getScheduleForDate st' "2026-01-15").
Proof.
  intros st.
  eassert (Hb : @buildSchedule utcHost uidA st "2026-01-15" = Some (_, _))
    by (vm_compute; reflexivity).
  eexists _, _.
  exact (conj Hb
           (@buildSchedule_unique_ids utcHost uidA st _ "2026-01-15" _
              uidA_inj uidA_lunch Hb)).
Defined.

Lemma elem_of_filter {A : Type} (p : A → bool) (l : list A) (x : A) :
  x ∈ List.filter p l ↔ x ∈ l ∧ p x = true.
Proof. rewrite !list_elem_of_In. apply filter_In. Qed.

Lemma placedFor_taskBlock uid t k chunk g :
  0 < chunk <= normDuration t → e g = s g + chunk →
  placedFor t (taskBlock uid t k (chunkTitle t (normDuration t) chunk) g).
Proof.
  intros Hc He. unfold placedFor, chunkTitle; simpl.
  replace (e g - s g) with chunk by lia.
  split_and!; [done|lia|lia|].
  rewrite (Z.eqb_sym chunk).
  destruct (normDuration t =? chunk); simpl; [apply append_empty_r|done].
Qed.

Lemma placeTask_unplaced day uid a t u :
  u ∈ unplaced (placeTask day uid a t) → u ∈ unplaced a ∨ (task u = t ∧ leftFor u).
Proof.
  unfold placeTask.
  destruct (canSplit t) eqn:Hsplit; simpl.
  - pose proof (placeChunks_run day uid t (normDuration t) (dayBlocks a) (uids a)) as Hrun.
    destruct (placeChunks _ _ _ _ _ _) as [[blocks k] remaining]; simpl.
    pose proof (normDuration_pos t).
    destruct (chunkLoop_minutes _ _ _ _ _ _ _ _ _ _ _ Hrun) as [Hrem _]; [lia|].
    destruct (Z.ltb_spec 0 remaining); [|by left].
    intros [?| ->%list_elem_of_singleton]%elem_of_app; [by left|right].
    unfold leftFor; simpl. split; [done|]. split; [done|lia].
  - destruct (findGap day (dayBlocks a) (normDuration t)); simpl; [by left|].
    intros [?| ->%list_elem_of_singleton]%elem_of_app; [by left|right].
    by unfold leftFor.
Qed.

Lemma allocate_unplaced day uid a ts u :
  u ∈ unplaced (allocate day uid a ts) →
  u ∈ unplaced a ∨ (task u ∈ ts ∧ leftFor u).
Proof.
  revert a. induction ts as [|t ts IH]; intros a; simpl; [by left|].
  intros Hu. apply IH in Hu as [Hu|[? ?]].
  - apply placeTask_unplaced in Hu as [?|[Ht ?]]; [by left|].
    right. split; [rewrite Ht; by left|done].
  - right. split; [by right|done].
Qed.

(** X4.  Every block of the schedule built by [buildSchedule] that is
    not fixed was placed for a task of the state that is not done: it
    carries the id of that task, is at most as long as the task's
    rounded duration, and its title is the task's title, followed by
    the split mark exactly when the block is shorter than that
    duration.  Every unplaced entry is such a task too, recorded whole
    when it may not be split and with a remainder between 1 and its
    rounded duration when it may.  A task that is done is never
    scheduled. *)
Theorem buildSchedule_blocks_of_tasks `{Host} (uid : nat → string) (st st' : State)
    (dateKey : string) (out : Schedule.t) :
  buildSchedule uid st dateKey = Some (st', out) →
  (∀ b, b ∈ Schedule.placed out → Block.fixed b = false →
     ∃ t, t ∈ tasks st ∧ Task.done t = false ∧ placedFor t b)
  ∧ (∀ u, u ∈ Schedule.unplaced out →
       task u ∈ tasks st ∧ Task.done (task u) = false ∧ leftFor u).
Proof.
  intros (day & lunch & ts & _ & _ & Hts & -> & _)%buildSchedule_Some. simpl.
  assert (Hin : ∀ t, t ∈ ts → t ∈ tasks st ∧ Task.done t = false).
  { intros t. rewrite (sortTasks_Permutation _ _ _ Hts). unfold tasksToSchedule.
    rewrite elem_of_filter. intros [? ?%negb_true_iff]. done. }
  split.
  - apply (allocate_keeps_all day uid (λ t, t ∈ ts)
             (λ blocks _, ∀ b, b ∈ blocks → Block.fixed b = false →
                ∃ t, t ∈ tasks st ∧ Task.done t = false ∧ placedFor t b)).
    + intros blocks t k chunk g Ht HQ Hc Hg b.
      rewrite insertBlock_Permutation. intros [->|Hb]%elem_of_cons Hfree.
      * exists t. destruct (Hin t Ht). split_and!; [done..|].
        apply placedFor_taskBlock; [done|].
        by destruct (findGap_gap day blocks chunk g Hg) as [? _].
      * by apply HQ.
    + by apply Forall_forall.
    + simpl. intros b Hb Hfree. destruct lunch; simpl in Hb.
      * apply list_elem_of_singleton in Hb as ->. done.
      * by apply elem_of_nil in Hb.
  - intros u [[]%elem_of_nil|[Hu ?]]%allocate_unplaced.
    destruct (Hin _ Hu). done.
Qed.

Lemma buildSchedule_blocks_of_tasks_witness :
  let st := sampleState "09:00" "18:00" 10 "12:00-13:00"
              [sampleTask "t1" 200 "可" 1; sampleTask "t2" 60 "不可" 2] in
  ∃ st' out,
    @buildSchedule utcHost uidA st "2026-01-15" = Some (st', out)
    ∧ (∀ b, b ∈ Schedule.placed out → Block.fixed b = false →
         ∃ t, t ∈ tasks st ∧ Task.done t = false ∧ placedFor t b)
    ∧ (∀ u, u ∈ Schedule.unplaced out →
         task u ∈ tasks st ∧ Task.done (task u) = false ∧ leftFor u).
Proof.
  intros st.
  eassert (Hb : @buildSchedule utcHost uidA st "2026-01-15" = Some (_, _))
    by (vm_compute; reflexivity).
  eexists _, _.
  exact (conj Hb (@buildSchedule_blocks_of_tasks utcHost uidA st _ "2026-01-15" _ Hb)).
Defined.

Lemma pairwise_weaken {A : Type} (R R' : A → A → Prop) (l : list A) :
  (∀ x y, R x y → R' x y) → pairwise R l → pairwise R' l.
Proof.
  intros HR. induction l as [|x l IH]; simpl; [done|].
  intros [Hx Hl]. split; [|by apply IH].
  eapply Forall_impl; [exact Hx|]. intros y. apply HR.
Qed.

(** Blocks sorted by start that do not overlap and end by [hi] take no
    more minutes than there are from their lower bound to [hi]. *)
Lemma blockMinutes_bound (hi : Z) (l : list Block.t) :
  StronglySorted (λ a b, Block.startMin a <= Block.startMin b) l →
  pairwise noOverlap l →
  (∀ b, b ∈ l → Block.startMin b < Block.endMin b ∧ Block.endMin b <= hi) →
  ∀ lo, (∀ b, b ∈ l → lo <= Block.startMin b) →
  sumZ blockMinutes l <= Z.max 0 (hi - lo).
Proof.
  induction 1 as [|x l Hl IH Hx]; intros Hpair Hin lo Hlo; simpl; [lia|].
  destruct Hpair as [Hxl Hpair].
  destruct (Hin x) as [Hxpos Hxhi]; [by left|].
  pose proof (Hlo x ltac:(by left)) as Hxlo.
  assert (Hrest : sumZ blockMinutes l <= Z.max 0 (hi - Block.endMin x)).
  { apply IH; [done|intros b Hb; apply Hin; by right|].
    intros b Hb.
    rewrite Forall_forall in Hx, Hxl.
    destruct (Hin b) as [Hbpos _]; [by right|].
    pose proof (Hx b Hb). destruct (Hxl b Hb); lia. }
  unfold blockMinutes at 1. lia.
Qed.

Lemma allocate_inDay day uid a ts :
  inDay day (dayBlocks a) → inDay day (dayBlocks (allocate day uid a ts)).
Proof. apply allocate_preserves. intros. by eapply inDay_insert. Qed.

(** X5.  The allocator never books more than the day holds: with a
    buffer that is not negative and a lunch window, if any, inside the
    day window, the lengths of all the blocks of the schedule built by
    [buildSchedule], the lunch block included, add up to at most the
    length of the day window. *)
Theorem buildSchedule_capacity `{Host} (uid : nat → string) (st st' : State)
    (dateKey : string) (out : Schedule.t) (day : DayRange) :
  0 <= Settings.buffer (settings st) →
  buildSchedule uid st dateKey = Some (st', out) →
  getDayRange st = Some day →
  (∀ l, getLunchBlock st = Some (Some l) → startMin day <= fst l ∧ snd l <= endMin day) →
  sumZ blockMinutes (Schedule.placed out) <= Z.max 0 (endMin day - startMin day).
Proof.
  intros Hbuf (day' & lunch & ts & Hday' & Hlunch & _ & -> & _)%buildSchedule_Some
    Hday Hin.
  assert (day' = day) as -> by congruence. simpl.
  set (a := allocate day uid _ ts).
  assert (Hsep : separated day (dayBlocks a)).
  { apply allocate_separated; [by rewrite (getDayRange_buffer st day Hday)|].
    apply fixedBlocks_separated. intros l ->. by eapply getLunchBlock_positive. }
  assert (HinDay : inDay day (dayBlocks a)).
  { apply allocate_inDay. simpl. intros b Hb. destruct lunch as [l|]; simpl in Hb.
    - apply list_elem_of_singleton in Hb as ->. simpl.
      pose proof (getLunchBlock_positive st l Hlunch).
      destruct (Hin l Hlunch). lia.
    - by apply elem_of_nil in Hb. }
  destruct Hsep as [Hsorted _ Hapart _].
  apply blockMinutes_bound; [done| | |].
  - eapply pairwise_weaken; [|exact Hapart]. intros x y Hxy. apply Hxy.
  - intros b Hb. destruct (HinDay b Hb) as (? & ? & ?). lia.
  - intros b Hb. by destruct (HinDay b Hb) as (? & ? & ?).
Qed.

Lemma buildSchedule_capacity_witness :
  let st := sampleState "09:00" "12:00" 10 "10:00-11:00"
              [sampleTask "t1" 200 "可" 1; sampleTask "t2" 60 "不可" 2] in
  ∃ st' out day,
    0 <= Settings.buffer (settings st)
    ∧ @buildSchedule utcHost uidA st "2026-01-15" = Some (st', out)
    ∧ getDayRange st = Some day
    ∧ (∀ l, getLunchBlock st = Some (Some l) →
         startMin day <= fst l ∧ snd l <= endMin day)
    ∧ sumZ blockMinutes (Schedule.placed out) <= Z.max 0 (endMin day - startMin day).
Proof.
  intros st.
  eassert (Hb : @buildSchedule utcHost uidA st "2026-01-15" = Some (_, _))
    by (vm_compute; reflexivity).
  eassert (Hday : getDayRange st = Some _) by (vm_compute; reflexivity).
  assert (Hbuf : 0 <= Settings.buffer (settings st)) by (simpl; lia).
  assert (Hin : ∀ l, getLunchBlock st = Some (Some l) → 540 <= fst l ∧ snd l <= 720).
  { intros l Hl. vm_compute in Hl. injection Hl as <-. simpl. split; lia. }
  eexists _, _, _.
  exact (conj Hbuf (conj Hb (conj Hday (conj Hin
           (@buildSchedule_capacity utcHost uidA st _ "2026-01-15" _ _ Hbuf Hb Hday Hin))))).
Defined.

(** ** The unplaced summary *)

Lemma counts_lookup (l : list Block.t) (m : gmap string Z) (k : string) :
  default 0 (foldl addCount m l !! k) = default 0 (m !! k) + sumZ (countedFor k) l.
Proof.
  revert m. induction l as [|b l IH]; intros m; simpl; [lia|].
  rewrite IH. unfold addCount, countedFor, blockMinutes.
  destruct (String.eqb_spec (Block.taskId b) k) as [->|Hne].
  - rewrite lookup_insert_eq. simpl. lia.
  - rewrite lookup_insert_ne by done. lia.
Qed.

Lemma counted_placedMinutes (tid : string) (l : list Block.t) :
  tid ≠ "lunch" →
  (∀ b, b ∈ l → Block.fixed b = true → Block.taskId b = "lunch") →
  sumZ (countedFor tid)
    (List.filter (λ b, negb (String.eqb (Block.taskId b) "lunch")) l)
  = placedMinutes tid l.
Proof.
  intros Htid. induction l as [|b l IH]; intros Hfix; simpl; [done|].
  unfold placedMinutes in *. simpl.
  rewrite <-IH by (intros; apply Hfix; [by right|done]).
  unfold minutesFor, countedFor, blockMinutes.
  destruct (String.eqb_spec (Block.taskId b) "lunch") as [Hl|Hl]; simpl.
  - destruct (String.eqb_spec (Block.taskId b) tid); [congruence|]. simpl. lia.
  - destruct (String.eqb_spec (Block.taskId b) tid); simpl; [|lia].
    destruct (Block.fixed b) eqn:Hf; simpl; [|lia].
    destruct Hl. apply Hfix; [by left|done].
Qed.

Lemma omap_ext_in {A B : Type} (f g : A → option B) (l : list A) :
  (∀ x, x ∈ l → f x = g x) → omap f l = omap g l.
Proof.
  induction l as [|x l IH]; intros Hfg; simpl; [done|].
  rewrite (Hfg x) by by left.
  assert (Hl : omap f l = omap g l) by (apply IH; intros y Hy; apply Hfg; by right).
  destruct (g x); [f_equal|]; exact Hl.
Qed.

Lemma roundDiv5_grid d : d mod 5 = 0 → roundDiv5 d * 5 = d.
Proof. unfold roundDiv5. intros. Z.to_euclidean_division_equations. lia. Qed.

Lemma buildSchedule_fixed_lunch `{Host} uid st st' dateKey out b :
  buildSchedule uid st dateKey = Some (st', out) →
  b ∈ Schedule.placed out → Block.fixed b = true → Block.taskId b = "lunch".
Proof.
  intros (day & lunch & ts & _ & _ & _ & -> & _)%buildSchedule_Some. simpl.
  intros Hb Hf. apply allocate_fixed in Hb; [|done]. simpl in Hb.
  destruct lunch; simpl in Hb.
  - by apply list_elem_of_singleton in Hb as ->.
  - by apply elem_of_nil in Hb.
Qed.

(** X6.  After [buildSchedule], the unplaced summary computed from the
    store ([computeUnplaced], which [renderToday] shows) agrees with the
    list the allocator returned: for tasks with distinct ids other than
    ["lunch"] and durations on the 5-minute grid, it lists, in the
    order of the task list, exactly the tasks that are not done and
    have a positive remainder in [unplaced], each with that
    remainder. *)
Theorem computeUnplaced_after_buildSchedule `{Host} (uid : nat → string)
    (st st' : State) (dateKey : string) (out : Schedule.t) :
  buildSchedule uid st dateKey = Some (st', out) →
  NoDup (Task.id <$> tasksToSchedule st dateKey) →
  (∀ t, t ∈ tasksToSchedule st dateKey →
     Task.id t ≠ "lunch" ∧ 0 < Task.duration t ∧ Task.duration t mod 5 = 0) →
  computeUnplaced st' dateKey = omap (summaryEntry (Schedule.unplaced out)) (tasks st).
Proof.
  intros Hb Hnd Hts.
  unfold computeUnplaced. rewrite (buildSchedule_lookup uid st st' dateKey out Hb).
  assert (tasks st' = tasks st) as ->.
  { apply buildSchedule_Some in Hb as (? & ? & ? & _ & _ & _ & _ & ->). done. }
  apply omap_ext_in. intros t Ht. unfold summaryEntry.
  destruct (Task.done t) eqn:Hdone; [done|].
  assert (Hin : t ∈ tasksToSchedule st dateKey).
  { unfold tasksToSchedule. apply elem_of_filter. by rewrite Hdone. }
  destruct (Hts t Hin) as (Hid & Hpos & Hgrid).
  rewrite counts_lookup, lookup_empty. simpl.
  rewrite counted_placedMinutes;
    [|done|intros b; by apply (buildSchedule_fixed_lunch uid st st' dateKey out)].
  rewrite roundDiv5_grid by done.
  pose proof (buildSchedule_minutes uid st st' dateKey out t Hb Hnd Hin Hpos Hgrid) as Hsum.
  replace (Task.duration t - (0 + placedMinutes (Task.id t) (Schedule.placed out)))
    with (unplacedMinutes (Task.id t) (Schedule.unplaced out)) by lia.
  destruct (Z.ltb_spec 0 (unplacedMinutes (Task.id t) (Schedule.unplaced out))).
  - rewrite Z.max_r by lia. destruct (Z.ltb_spec 0 (unplacedMinutes (Task.id t)
      (Schedule.unplaced out))); [done|lia].
  - rewrite Z.max_l by lia. done.
Qed.

Lemma computeUnplaced_after_buildSchedule_witness :
  let st := sampleState "09:00" "12:00" 10 "10:00-11:00"
              [sampleTask "t1" 200 "可" 1; sampleTask "t2" 60 "不可" 2] in
  ∃ st' out,
    @buildSchedule utcHost uidA st "2026-01-15" = Some (st', out)
    ∧ NoDup (Task.id <$> tasksToSchedule st "2026-01-15")
    ∧ (∀ t, t ∈ tasksToSchedule st "2026-01-15" →
         Task.id t ≠ "lunch" ∧ 0 < Task.duration t ∧ Task.duration t mod 5 = 0)
    ∧ computeUnplaced st' "2026-01-15"
      = omap (summaryEntry (Schedule.unplaced out)) (tasks st).
Proof.
  intros st.
  eassert (Hb : @buildSchedule utcHost uidA st "2026-01-15" = Some (_, _))
    by (vm_compute; reflexivity).
  assert (Hnd : NoDup (Task.id <$> tasksToSchedule st "2026-01-15"))
    by (apply (bool_decide_unpack _); vm_compute; reflexivity).
  assert (Hts : ∀ t, t ∈ tasksToSchedule st "2026-01-15" →
            Task.id t ≠ "lunch" ∧ 0 < Task.duration t ∧ Task.duration t mod 5 = 0).
  { intros t [->|[->|[]%elem_of_nil]%elem_of_cons]%elem_of_cons;
      (split; [discriminate|split; [simpl; lia|reflexivity]]). }
  eexists _, _.
  exact (conj Hb (conj Hnd (conj Hts
           (@computeUnplaced_after_buildSchedule utcHost uidA st _ "2026-01-15" _
              Hb Hnd Hts)))).
Defined.

(** ** Invariants of the store operations *)

Lemma findIndex_Some {A : Type} (p : A → bool) (l : list A) (i : nat) :
  findIndex p l = Some i →
  ∃ x, l !! i = Some x ∧ p x = true
       ∧ ∀ j y, (j < i)%nat → l !! j = Some y → p y = false.
Proof.
  revert i. induction l as [|x l IH]; intros i; simpl; [done|].
  destruct (p x) eqn:Hpx.
  - intros [= <-]. exists x. split_and!; [done|done|]. intros; lia.
  - destruct (findIndex p l) as [i'|]; [|done]. simpl. intros [= <-].
    destruct (IH i' eq_refl) as (y & Hy & Hpy & Hbefore).
    exists y. split_and!; [done|done|].
    intros [|j] z Hj; simpl; [by intros [= <-]|].
    apply Hbefore. lia.
Qed.

Lemma findIndex_None {A : Type} (p : A → bool) (l : list A) :
  (∀ x, x ∈ l → p x = false) → findIndex p l = None.
Proof.
  induction l as [|x l IH]; intros Hp; simpl; [done|].
  rewrite (Hp x) by by left. rewrite IH; [done|]. intros y Hy. apply Hp. by right.
Qed.

(** [find] returns the element at the index [findIndex] returns. *)
Lemma find_findIndex {A : Type} (p : A → bool) (l : list A) :
  List.find p l = findIndex p l ≫= (l !!.).
Proof.
  induction l as [|x l IH]; simpl; [done|].
  destruct (p x); [done|]. rewrite IH.
  by destruct (findIndex p l).
Qed.

Lemma noOverlap_sym X Y : noOverlap X Y → noOverlap Y X.
Proof. unfold noOverlap. lia. Qed.

Lemma getScheduleForDate_Permutation st dateKey :
  getScheduleForDate st dateKey ≡ₚ default [] (scheduleByDate st !! dateKey).
Proof. apply sort_Permutation. Qed.

(** The schedule of a day after one of the writes of the store: the
    block at [idx] of the sorted day replaced by [b']. *)
Lemma schedule_replaced st st' dateKey idx b b' :
  getScheduleForDate st dateKey !! idx = Some b →
  scheduleByDate st' !! dateKey
  = Some (sort cmpStart (<[idx := b']> (getScheduleForDate st dateKey)))
  ∨ scheduleByDate st' !! dateKey = Some (<[idx := b']> (getScheduleForDate st dateKey)) →
  getScheduleForDate st' dateKey ≡ₚ b' :: delete idx (getScheduleForDate st dateKey).
Proof.
  intros Hb Hst'. rewrite getScheduleForDate_Permutation.
  destruct Hst' as [-> | ->]; simpl.
  - rewrite sort_Permutation. by eapply insert_Permutation_delete.
  - by eapply insert_Permutation_delete.
Qed.

(** Replacing a block by one with the same identifier that overlaps no
    block with another identifier keeps the invariant. *)
Lemma tidy_replaced (blocks blocks' : list Block.t) (idx : nat) (b b' : Block.t) :
  NoDup (Block.id <$> blocks) → pairwise noOverlap blocks →
  blocks !! idx = Some b → Block.id b' = Block.id b →
  (∀ x, x ∈ blocks → Block.id x ≠ Block.id b → noOverlap b' x) →
  blocks' ≡ₚ b' :: delete idx blocks →
  NoDup (Block.id <$> blocks') ∧ pairwise noOverlap blocks'.
Proof.
  intros Hnd Hpw Hb Hid Hfree Hp.
  pose proof (delete_Permutation blocks idx b Hb) as Hold.
  assert (Hnd' : NoDup (Block.id <$> b :: delete idx blocks)) by by rewrite <-Hold.
  assert (Hpw' : pairwise noOverlap (b :: delete idx blocks)).
  { eapply pairwise_Permutation; [apply noOverlap_sym|exact Hold|done]. }
  simpl in Hnd', Hpw'. apply NoDup_cons in Hnd' as [Hnotin Hnd'].
  destruct Hpw' as [_ Hpw'].
  split.
  - rewrite Hp. simpl. rewrite Hid. by constructor.
  - eapply pairwise_Permutation; [apply noOverlap_sym|symmetry; exact Hp|].
    simpl. split; [|done].
    apply Forall_forall. intros x Hx. apply Hfree.
    + rewrite Hold. by right.
    + intros Heq. apply Hnotin. rewrite <-Heq. by apply list_elem_of_fmap_2.
Qed.

Lemma pairwise_filter {A : Type} (R : A → A → Prop) (p : A → bool) (l : list A) :
  pairwise R l → pairwise R (List.filter p l).
Proof.
  induction l as [|x l IH]; simpl; [done|].
  intros [Hx Hl]. destruct (p x); simpl; [|by apply IH].
  split; [|by apply IH].
  apply Forall_forall. intros y [Hy _]%elem_of_filter.
  rewrite Forall_forall in Hx. by apply Hx.
Qed.

Lemma NoDup_fmap_filter {A B : Type} (f : A → B) (p : A → bool) (l : list A) :
  NoDup (f <$> l) → NoDup (f <$> List.filter p l).
Proof.
  induction l as [|x l IH]; simpl; [done|].
  intros [Hx Hl]%NoDup_cons. destruct (p x); simpl; [|by apply IH].
  constructor; [|by apply IH].
  intros (y & Hxy & [Hy _]%elem_of_filter)%list_elem_of_fmap.
  apply Hx. rewrite Hxy. by apply list_elem_of_fmap_2.
Qed.

Lemma hasOverlap_false st dateKey bid s e x :
  hasOverlap st dateKey bid s e = false →
  x ∈ getScheduleForDate st dateKey → Block.id x ≠ bid →
  e <= Block.startMin x ∨ Block.endMin x <= s.
Proof.
  intros Hov Hx Hid.
  destruct (Z.le_gt_cases e (Block.startMin x)); [by left|].
  destruct (Z.le_gt_cases (Block.endMin x) s); [by right|].
  assert (hasOverlap st dateKey bid s e = true); [|congruence].
  apply hasOverlap_true. exists x. split_and!; [done|done|lia].
Qed.

(** X7.  The store operations keep the invariant of a day's schedule:
    when its blocks have distinct identifiers and no two of them
    overlap, the same holds after [moveBlock], after [toggleBlockDone]
    and after [removeBlock], whatever the identifier and the target of
    the move are. *)
Theorem store_keeps_noOverlap (st : State) (dateKey bid : string) (s e : Z) :
  NoDup (Block.id <$> getScheduleForDate st dateKey) →
  pairwise noOverlap (getScheduleForDate st dateKey) →
  (NoDup (Block.id <$> getScheduleForDate (moveBlock st dateKey bid s e) dateKey)
   ∧ pairwise noOverlap (getScheduleForDate (moveBlock st dateKey bid s e) dateKey))
  ∧ (NoDup (Block.id <$> getScheduleForDate (toggleBlockDone st dateKey bid) dateKey)
     ∧ pairwise noOverlap (getScheduleForDate (toggleBlockDone st dateKey bid) dateKey))
  ∧ (NoDup (Block.id <$> getScheduleForDate (removeBlock st dateKey bid) dateKey)
     ∧ pairwise noOverlap (getScheduleForDate (removeBlock st dateKey bid) dateKey)).
Proof.
  intros Hnd Hpw. split; [|split].
  - unfold moveBlock. cbv zeta.
    destruct (findIndex (λ b, String.eqb (Block.id b) bid) (getScheduleForDate st dateKey))
      as [idx|] eqn:Hidx; [|by split].
    apply findIndex_Some in Hidx as (b & Hb & Hid%String.eqb_eq & _).
    rewrite Hb. destruct (Block.fixed b); [by split|].
    destruct (hasOverlap st dateKey bid s e) eqn:Hov; [by split|].
    eapply (tidy_replaced _ _ idx b (moved b s e)); [done|done|done|done| |].
    + intros x Hx Hne. rewrite Hid in Hne.
      destruct (hasOverlap_false _ _ _ _ _ x Hov Hx Hne); unfold noOverlap; simpl; lia.
    + eapply schedule_replaced; [done|]. left. simpl. by rewrite lookup_insert_eq.
  - unfold toggleBlockDone. cbv zeta.
    destruct (findIndex (λ b, String.eqb (Block.id b) bid) (getScheduleForDate st dateKey))
      as [idx|] eqn:Hidx; [|by split].
    apply findIndex_Some in Hidx as (b & Hb & Hid%String.eqb_eq & _).
    rewrite Hb.
    eapply (tidy_replaced _ _ idx b (toggled b)); [done|done|done|done| |].
    + intros x Hx Hne.
      destruct (list_elem_of_lookup_1 _ _ Hx) as [j Hj].
      assert (idx ≠ j).
      { intros ->. rewrite Hb in Hj. injection Hj as ->. done. }
      destruct (Nat.lt_total idx j) as [Hlt|[?|Hlt]]; [|done|].
      * pose proof (pairwise_lookup _ _ _ _ _ _ Hpw Hlt Hb Hj) as Hn.
        unfold noOverlap in *; simpl; lia.
      * pose proof (pairwise_lookup _ _ _ _ _ _ Hpw Hlt Hj Hb) as Hn.
        unfold noOverlap in *; simpl; lia.
    + eapply schedule_replaced; [done|]. right. simpl. by rewrite lookup_insert_eq.
  - unfold removeBlock. cbv zeta.
    destruct (List.find (λ x, String.eqb (Block.id x) bid) (getScheduleForDate st dateKey))
      as [b|]; [|by split].
    destruct (Block.fixed b); [by split|].
    unfold getScheduleForDate at 1 3, setSchedule; simpl.
    rewrite lookup_insert_eq; simpl. split.
    + rewrite sort_Permutation. by apply NoDup_fmap_filter.
    + eapply pairwise_Permutation;
        [apply noOverlap_sym|symmetry; apply sort_Permutation|].
      by apply pairwise_filter.
Qed.

Lemma store_keeps_noOverlap_witness :
  let st := storeSample in
  NoDup (Block.id <$> getScheduleForDate st "2026-01-15")
  ∧ pairwise noOverlap (getScheduleForDate st "2026-01-15")
  ∧ pairwise noOverlap
      (getScheduleForDate (moveBlock st "2026-01-15" "a1" 600 660) "2026-01-15")
  ∧ pairwise noOverlap
      (getScheduleForDate (removeBlock st "2026-01-15" "a0") "2026-01-15").
Proof.
  intros st.
  assert (Hnd : NoDup (Block.id <$> getScheduleForDate st "2026-01-15"))
    by (apply (bool_decide_unpack _); vm_compute; reflexivity).
  assert (Hpw : pairwise noOverlap (getScheduleForDate st "2026-01-15")).
  { replace (getScheduleForDate st "2026-01-15")
      with [Block.mk "a0" "t1" "t1" 540 600 false false;
            Block.mk "a1" "t2" "t2" 610 670 false false;
            lunchBlock (720, 780)] by (vm_compute; reflexivity).
    simpl. unfold noOverlap, lunchBlock. simpl.
    repeat match goal with
           | |- _ ∧ _ => split
           | |- Forall _ _ => constructor
           | |- True => exact I
           end; simpl; lia. }
  destruct (store_keeps_noOverlap st "2026-01-15" "a1" 600 660 Hnd Hpw)
    as ((_ & H1) & _ & _).
  destruct (store_keeps_noOverlap st "2026-01-15" "a0" 0 0 Hnd Hpw)
    as (_ & _ & (_ & H2)).
  exact (conj Hnd (conj Hpw (conj H1 H2))).
Defined.

(** ** Identifiers that are not there, and fixed blocks *)

Lemma find_None_id (blocks : list Block.t) (bid : string) :
  (∀ b, b ∈ blocks → Block.id b ≠ bid) →
  findIndex (λ b, String.eqb (Block.id b) bid) blocks = None.
Proof.
  intros Hid. apply findIndex_None. intros b Hb.
  apply String.eqb_neq. by apply Hid.
Qed.

(** X8.  The operations by identifier ignore what they may not touch.
    An identifier that no block of the day carries (in particular on a
    date without a schedule) leaves the state exactly as it is under
    [moveBlock], [toggleBlockDone], [removeBlock] and a whole drag
    gesture; and when the first block carrying the identifier is fixed,
    it is neither moved, nor dragged, nor removed, whatever the
    target. *)
Theorem store_ops_ignore (st : State) (dateKey bid : string) (s e y0 y1 : Z) :
  ((∀ b, b ∈ getScheduleForDate st dateKey → Block.id b ≠ bid) →
   moveBlock st dateKey bid s e = st
   ∧ toggleBlockDone st dateKey bid = st
   ∧ removeBlock st dateKey bid = st
   ∧ dragBlock st dateKey bid y0 y1 = st)
  ∧ (∀ b, List.find (λ x, String.eqb (Block.id x) bid) (getScheduleForDate st dateKey)
          = Some b →
       Block.fixed b = true →
       moveBlock st dateKey bid s e = st
       ∧ removeBlock st dateKey bid = st
       ∧ dragBlock st dateKey bid y0 y1 = st).
Proof.
  split.
  - intros Hid. pose proof (find_None_id _ _ Hid) as Hidx.
    assert (Hfind : List.find (λ x, String.eqb (Block.id x) bid)
                      (getScheduleForDate st dateKey) = None)
      by (rewrite find_findIndex, Hidx; done).
    unfold dragBlock, onPointerDown, moveBlock, toggleBlockDone, removeBlock.
    cbv zeta. by rewrite Hidx, Hfind.
  - intros b Hfind Hfixed.
    assert (Hmove : ∀ s' e', moveBlock st dateKey bid s' e' = st).
    { intros s' e'. unfold moveBlock. cbv zeta.
      rewrite find_findIndex in Hfind.
      destruct (findIndex _ (getScheduleForDate st dateKey)) as [idx|]; [|done].
      simpl in Hfind. by rewrite Hfind, Hfixed. }
    split_and!; [apply Hmove| |].
    + unfold removeBlock. cbv zeta. by rewrite Hfind, Hfixed.
    + unfold dragBlock, onPointerUp.
      destruct (onPointerDown st dateKey bid y0) as [d|] eqn:Hd; [|done].
      unfold onPointerDown in Hd. rewrite Hfind in Hd. simpl in Hd.
      destruct (getDayRange st); [|done]. simpl in Hd. injection Hd as <-. simpl.
      apply Hmove.
Qed.

Lemma store_ops_ignore_witness :
  (moveBlock storeSample "2026-01-16" "a0" 600 660 = storeSample
   ∧ toggleBlockDone storeSample "2026-01-16" "a0" = storeSample
   ∧ removeBlock storeSample "2026-01-16" "a0" = storeSample
   ∧ dragBlock storeSample "2026-01-16" "a0" 0 40 = storeSample)
  ∧ (moveBlock storeSample "2026-01-15" "lunch" 800 860 = storeSample
     ∧ removeBlock storeSample "2026-01-15" "lunch" = storeSample
     ∧ dragBlock storeSample "2026-01-15" "lunch" 0 40 = storeSample).
Proof.
  split.
  - apply (store_ops_ignore storeSample "2026-01-16" "a0" 600 660 0 40).
    intros b Hb. vm_compute in Hb. by apply elem_of_nil in Hb.
  - apply (proj2 (store_ops_ignore storeSample "2026-01-15" "lunch" 800 860 0 40)
             (lunchBlock (720, 780))); reflexivity.
Defined.

(** ** Toggling a block twice *)

Lemma sorted_insert_same_start (l : list Block.t) (i : nat) (b b' : Block.t) :
  StronglySorted (cmpLe cmpStart) l → l !! i = Some b →
  Block.startMin b' = Block.startMin b →
  StronglySorted (cmpLe cmpStart) (<[i := b']> l).
Proof.
  intros Hl. revert i. induction Hl as [|x l Hl IH Hx]; intros i Hi Hs; [done|].
  destruct i as [|i]; simpl in *.
  - injection Hi as ->. constructor; [done|].
    eapply Forall_impl; [exact Hx|]. unfold cmpLe, cmpStart. intros; lia.
  - constructor; [by apply IH|].
    apply Forall_insert; [done|].
    rewrite Forall_forall in Hx.
    pose proof (Hx b (list_elem_of_lookup_2 _ _ _ Hi)) as Hxb.
    unfold cmpLe, cmpStart in *. lia.
Qed.

Lemma getScheduleForDate_sorted st dateKey :
  StronglySorted (cmpLe cmpStart) (getScheduleForDate st dateKey).
Proof. apply sort_sorted; [apply cmpStart_total|apply cmpStart_trans]. Qed.

Lemma toggleBlockDone_None st dateKey bid :
  findIndex (λ b, String.eqb (Block.id b) bid) (getScheduleForDate st dateKey) = None →
  toggleBlockDone st dateKey bid = st.
Proof. intros Hidx. unfold toggleBlockDone. cbv zeta. by rewrite Hidx. Qed.

Lemma toggleBlockDone_Some st dateKey bid idx b0 :
  findIndex (λ b, String.eqb (Block.id b) bid) (getScheduleForDate st dateKey) = Some idx →
  getScheduleForDate st dateKey !! idx = Some b0 →
  scheduleByDate (toggleBlockDone st dateKey bid)
  = <[dateKey := <[idx := toggled b0]> (getScheduleForDate st dateKey)]> (scheduleByDate st)
  ∧ settings (toggleBlockDone st dateKey bid) = settings st.
Proof. intros Hidx Hb. unfold toggleBlockDone. cbv zeta. by rewrite Hidx, Hb. Qed.

Lemma toggled_toggled b : toggled (toggled b) = b.
Proof. destruct b as [? ? ? ? ? ? d]. unfold toggled; simpl. by rewrite negb_involutive. Qed.

(** X9.  Toggling the completion of the same block twice gives back the
    day's schedule exactly (the same blocks with the same flags in the
    same order); the settings and the schedules of the other dates are
    not touched at all. *)
Theorem toggleBlockDone_twice (st : State) (dateKey bid : string) :
  let st2 := toggleBlockDone (toggleBlockDone st dateKey bid) dateKey bid in
  getScheduleForDate st2 dateKey = getScheduleForDate st dateKey
  ∧ settings st2 = settings st
  ∧ ∀ other, other ≠ dateKey → scheduleByDate st2 !! other = scheduleByDate st !! other.
Proof.
  cbv zeta.
  destruct (findIndex (λ b, String.eqb (Block.id b) bid) (getScheduleForDate st dateKey))
    as [idx|] eqn:Hidx; [|by rewrite !(toggleBlockDone_None st dateKey bid Hidx)].
  pose proof Hidx as (b0 & Hb0 & Hp & Hbefore)%findIndex_Some.
  destruct (toggleBlockDone_Some st dateKey bid idx b0 Hidx Hb0) as [Hstore Hset].
  set (st1 := toggleBlockDone st dateKey bid) in *.
  set (blocks := getScheduleForDate st dateKey) in *.
  assert (Hlt : (idx < length blocks)%nat) by by eapply lookup_lt_Some.
  assert (Hsched1 : getScheduleForDate st1 dateKey = <[idx := toggled b0]> blocks).
  { unfold getScheduleForDate at 1. rewrite Hstore, lookup_insert_eq. simpl.
    apply sort_sorted_id. eapply sorted_insert_same_start; [|done|done].
    apply getScheduleForDate_sorted. }
  assert (Hidx1 : findIndex (λ b, String.eqb (Block.id b) bid)
                    (getScheduleForDate st1 dateKey) = Some idx).
  { rewrite Hsched1. apply (findIndex_first _ _ idx (toggled b0)).
    - by apply list_lookup_insert_eq.
    - done.
    - intros j y Hj. rewrite list_lookup_insert_ne by lia. by apply Hbefore. }
  assert (Hb1 : getScheduleForDate st1 dateKey !! idx = Some (toggled b0)).
  { rewrite Hsched1. by apply list_lookup_insert_eq. }
  destruct (toggleBlockDone_Some st1 dateKey bid idx (toggled b0) Hidx1 Hb1)
    as [Hstore2 Hset2].
  split_and!.
  - unfold getScheduleForDate at 1. rewrite Hstore2, lookup_insert_eq. simpl.
    rewrite Hsched1, list_insert_insert_eq, toggled_toggled, list_insert_id by done.
    apply sort_sorted_id, getScheduleForDate_sorted.
  - by rewrite Hset2.
  - intros other Hne. rewrite Hstore2, lookup_insert_ne by done.
    by rewrite Hstore, lookup_insert_ne.
Qed.

(** ** Dragging *)

Lemma moveBlock_cases st dateKey bid s e :
  moveBlock st dateKey bid s e = st
  ∨ ∃ idx b,
      List.find (λ x, String.eqb (Block.id x) bid) (getScheduleForDate st dateKey) = Some b
      ∧ getScheduleForDate st dateKey !! idx = Some b
      ∧ getScheduleForDate (moveBlock st dateKey bid s e) dateKey
        ≡ₚ moved b s e :: delete idx (getScheduleForDate st dateKey).
Proof.
  unfold moveBlock. cbv zeta. rewrite find_findIndex.
  destruct (findIndex (λ b, String.eqb (Block.id b) bid) (getScheduleForDate st dateKey))
    as [idx|] eqn:Hidx; [|by left].
  simpl. destruct (getScheduleForDate st dateKey !! idx) as [b|] eqn:Hb; [|by left].
  destruct (Block.fixed b); [by left|].
  destruct (hasOverlap st dateKey bid s e); [by left|].
  right. exists idx, b. split_and!; [done|done|].
  eapply schedule_replaced; [done|]. left. simpl. by rewrite lookup_insert_eq.
Qed.

(** X10.  A drag gesture keeps the schedule inside the day: when every
    block of the day lies in the day window, so does every block after
    a press on a block, a move of the pointer and a release, and the
    lengths of the blocks are the same as before.  The previewed
    position keeps the length of the block and is the original start
    shifted by the pointer offset rounded to steps of 5 minutes (10
    pixels), unless it is held at day-start or at day-end; releasing
    hands that position to [moveBlock]. *)
Theorem dragBlock_keeps_day (st : State) (dateKey bid : string) (y0 y1 : Z)
    (day : DayRange) :
  getDayRange st = Some day →
  inDay day (getScheduleForDate st dateKey) →
  inDay day (getScheduleForDate (dragBlock st dateKey bid y0 y1) dateKey)
  ∧ (blockMinutes <$> getScheduleForDate (dragBlock st dateKey bid y0 y1) dateKey)
    ≡ₚ (blockMinutes <$> getScheduleForDate st dateKey)
  ∧ ∀ d, onPointerDown st dateKey bid y0 = Some d →
      let p := onPointerMove d y1 in
      dragBlock st dateKey bid y0 y1 = moveBlock st dateKey bid p.1 p.2
      ∧ p.2 - p.1 = Drag.dur d
      ∧ startMin day <= p.1 ∧ p.2 <= endMin day
      ∧ (p.1 = Drag.origStart d + 5 * roundDiv (y1 - y0) 10
         ∨ p.1 = startMin day ∨ p.2 = endMin day).
Proof.
  intros Hday HinDay.
  assert (Hdown : ∀ d, onPointerDown st dateKey bid y0 = Some d →
            ∃ b, List.find (λ x, String.eqb (Block.id x) bid)
                   (getScheduleForDate st dateKey) = Some b
                 ∧ d = Drag.mk bid dateKey y0 (Block.startMin b) (blockMinutes b)
                         (startMin day) (endMin day) 2).
  { intros d. unfold onPointerDown. rewrite Hday.
    destruct (List.find _ _) as [b|]; [|done]. simpl. intros [= <-]. by exists b. }
  assert (Hprev : ∀ d, onPointerDown st dateKey bid y0 = Some d →
            let p := onPointerMove d y1 in
            p.2 - p.1 = Drag.dur d
            ∧ startMin day <= p.1 ∧ p.2 <= endMin day
            ∧ (p.1 = Drag.origStart d + 5 * roundDiv (y1 - y0) 10
               ∨ p.1 = startMin day ∨ p.2 = endMin day)).
  { intros d (b & Hfind & ->)%Hdown. unfold onPointerMove, clamp; simpl.
    apply find_some in Hfind as [Hb%list_elem_of_In _].
    destruct (HinDay b Hb) as (Hs & Hpos & He).
    unfold blockMinutes. change (2 * 5) with 10.
    generalize (roundDiv (y1 - y0) 10). intros x. split_and!; lia. }
  split_and!.
  - unfold dragBlock.
    destruct (onPointerDown st dateKey bid y0) as [d|] eqn:Hd; [|done].
    destruct (Hprev d eq_refl) as (Hlen & Hlo & Hhi & _).
    destruct (Hdown d eq_refl) as (b & Hfind & Hdeq).
    unfold onPointerUp.
    replace (Drag.dateKey d) with dateKey by by rewrite Hdeq.
    replace (Drag.bid d) with bid by by rewrite Hdeq.
    destruct (moveBlock_cases st dateKey bid (onPointerMove d y1).1 (onPointerMove d y1).2)
      as [->|(idx & b' & Hfind' & Hb' & Hp)]; [done|].
    assert (b' = b) as -> by congruence.
    intros x. rewrite Hp. intros [->|Hx]%elem_of_cons.
    + unfold moved. cbn [Block.startMin Block.endMin].
      pose proof (HinDay b (list_elem_of_lookup_2 _ _ _ Hb')) as (? & ? & ?).
      assert (Hdur : Drag.dur d = blockMinutes b) by by rewrite Hdeq.
      unfold blockMinutes in Hdur. lia.
    + apply HinDay. rewrite (delete_Permutation _ _ _ Hb'). by right.
  - unfold dragBlock.
    destruct (onPointerDown st dateKey bid y0) as [d|] eqn:Hd; [|done].
    destruct (Hprev d eq_refl) as (Hlen & _).
    destruct (Hdown d eq_refl) as (b & Hfind & Hdeq).
    unfold onPointerUp.
    replace (Drag.dateKey d) with dateKey by by rewrite Hdeq.
    replace (Drag.bid d) with bid by by rewrite Hdeq.
    destruct (moveBlock_cases st dateKey bid (onPointerMove d y1).1 (onPointerMove d y1).2)
      as [->|(idx & b' & Hfind' & Hb' & Hp)]; [done|].
    assert (b' = b) as -> by congruence.
    rewrite Hp. rewrite (delete_Permutation (getScheduleForDate st dateKey) idx b Hb') at 2.
    rewrite !fmap_cons.
    assert (Hdur : Drag.dur d = blockMinutes b) by by rewrite Hdeq.
    unfold blockMinutes at 1. unfold moved. cbn [Block.startMin Block.endMin].
    by rewrite Hlen, Hdur.
  - intros d Hd. cbv zeta. split; [|by apply Hprev].
    unfold dragBlock. rewrite Hd. unfold onPointerUp.
    destruct (Hdown d Hd) as (b & _ & ->). done.
Qed.

Lemma dragBlock_keeps_day_witness :
  let day := mkDayRange 540 1080 10 in
  getDayRange storeSample = Some day
  ∧ inDay day (getScheduleForDate storeSample "2026-01-15")
  ∧ inDay day
      (getScheduleForDate (dragBlock storeSample "2026-01-15" "a1" 100 2000) "2026-01-15")
  ∧ (Block.startMin <$>
       getScheduleForDate (dragBlock storeSample "2026-01-15" "a1" 100 2000) "2026-01-15")
    = [540; 720; 1020].
Proof.
  intros day.
  assert (Hday : getDayRange storeSample = Some day) by reflexivity.
  assert (Hin : inDay day (getScheduleForDate storeSample "2026-01-15")).
  { intros b Hb. vm_compute in Hb.
    apply elem_of_cons in Hb as [->|Hb]; [simpl; lia|].
    apply elem_of_cons in Hb as [->|Hb]; [simpl; lia|].
    apply list_elem_of_singleton in Hb as ->. simpl; lia. }
  split; [done|]. split; [done|]. split.
  - exact (proj1 (dragBlock_keeps_day storeSample "2026-01-15" "a1" 100 2000 day Hday Hin)).
  - vm_compute. reflexivity.
Defined.

(** ** Deleting and completing tasks, clearing the day *)

Lemma getScheduleForDate_fmap (f : list Block.t → list Block.t) st st' dateKey :
  scheduleByDate st' = f <$> scheduleByDate st → f [] = [] →
  getScheduleForDate st' dateKey
  = sort cmpStart (f (default [] (scheduleByDate st !! dateKey))).
Proof.
  intros Hst' Hnil. unfold getScheduleForDate. rewrite Hst', lookup_fmap.
  destruct (scheduleByDate st !! dateKey); simpl; by rewrite ?Hnil.
Qed.

Lemma find_filter_None (ts : list Task.t) (id : string) :
  List.find (λ t, String.eqb (Task.id t) id)
    (List.filter (λ t, negb (String.eqb (Task.id t) id)) ts) = None.
Proof.
  induction ts as [|t ts IH]; simpl; [done|].
  destruct (String.eqb (Task.id t) id) eqn:Heq; simpl; [done|].
  by rewrite Heq.
Qed.

(** X11.  Deleting a task cascades over the whole store: afterwards no
    task carries the id, no block on any date refers to it, and every
    other task and every block of another task on every date is still
    there; the settings are untouched. *)
Theorem deleteTask_cascade (st : State) (id : string) :
  taskById (deleteTask st id) id = None
  ∧ (∀ t, t ∈ tasks (deleteTask st id) ↔ t ∈ tasks st ∧ Task.id t ≠ id)
  ∧ (∀ dateKey b,
       b ∈ getScheduleForDate (deleteTask st id) dateKey
       ↔ b ∈ getScheduleForDate st dateKey ∧ Block.taskId b ≠ id)
  ∧ settings (deleteTask st id) = settings st.
Proof.
  split_and!.
  - unfold taskById, deleteTask; simpl. apply find_filter_None.
  - intros t. unfold deleteTask; simpl. rewrite elem_of_filter.
    rewrite negb_true_iff, String.eqb_neq. done.
  - intros dateKey b.
    rewrite (getScheduleForDate_fmap
               (List.filter (λ b, negb (String.eqb (Block.taskId b) id)))
               st (deleteTask st id) dateKey) by done.
    rewrite sort_Permutation, elem_of_filter, negb_true_iff, String.eqb_neq.
    by rewrite getScheduleForDate_Permutation.
  - done.
Qed.

Lemma withDone_withDone t d : withDone (withDone t d) (Task.done t) = t.
Proof. by destruct t. Qed.

Lemma taskById_findIndex st id t :
  taskById st id = Some t →
  ∃ i, findIndex (λ x, String.eqb (Task.id x) id) (tasks st) = Some i
       ∧ tasks st !! i = Some t.
Proof.
  unfold taskById. rewrite find_findIndex.
  destruct (findIndex _ (tasks st)) as [i|]; [|done]. simpl. intros Ht. by exists i.
Qed.

Lemma taskById_setTaskDone st st' id t d :
  taskById st id = Some t → tasks st' = setTaskDone (tasks st) id d →
  taskById st' id = Some (withDone t d).
Proof.
  intros Ht Hts.
  destruct (taskById_findIndex st id t Ht) as (i & Hi & Hti).
  pose proof Hi as (x & Hx & Hp & Hbefore)%findIndex_Some.
  unfold taskById. rewrite Hts, find_findIndex. unfold setTaskDone. rewrite Hi, Hti.
  rewrite (findIndex_first _ _ i (withDone t d)).
  - simpl. apply list_lookup_insert_eq. by eapply lookup_lt_Some.
  - apply list_lookup_insert_eq. by eapply lookup_lt_Some.
  - simpl. assert (x = t) as -> by congruence. done.
  - intros j y Hj. rewrite list_lookup_insert_ne by lia. by apply Hbefore.
Qed.

(** X12.  Completing a task by [toggleTaskDone] flips the flag of the
    task and copies the new flag to every block of the task on every
    date, so that the task and all its blocks agree afterwards; the
    blocks of the other tasks are as before, and a second toggle gives
    back the task list.  An id that no task carries leaves the state as
    it is. *)
Theorem toggleTaskDone_blocks (st : State) (id : string) :
  (∀ t, taskById st id = Some t →
     let d := negb (Task.done t) in
     taskById (toggleTaskDone st id) id = Some (withDone t d)
     ∧ (∀ dateKey,
          getScheduleForDate (toggleTaskDone st id) dateKey
          = (λ b, if String.eqb (Block.taskId b) id then withBlockDone b d else b)
              <$> getScheduleForDate st dateKey)
     ∧ (∀ dateKey b, b ∈ getScheduleForDate (toggleTaskDone st id) dateKey →
          Block.taskId b = id → Block.done b = d)
     ∧ tasks (toggleTaskDone (toggleTaskDone st id) id) = tasks st)
  ∧ (taskById st id = None → toggleTaskDone st id = st).
Proof.
  split; [|by unfold toggleTaskDone; intros ->].
  intros t Ht d.
  set (f := λ b, if String.eqb (Block.taskId b) id then withBlockDone b d else b).
  assert (Hsched : ∀ dateKey,
            getScheduleForDate (toggleTaskDone st id) dateKey
            = f <$> getScheduleForDate st dateKey).
  { intros dateKey.
    rewrite (getScheduleForDate_fmap (fmap f) st (toggleTaskDone st id) dateKey);
      [|by unfold toggleTaskDone; rewrite Ht|done].
    unfold getScheduleForDate. symmetry. apply sort_fmap.
    intros x y. unfold f, cmpStart. by repeat case_match. }
  assert (Htask : taskById (toggleTaskDone st id) id = Some (withDone t d)).
  { eapply taskById_setTaskDone; [done|]. unfold toggleTaskDone. by rewrite Ht. }
  split_and!; [done|done| |].
  - intros dateKey b. rewrite Hsched. intros (x & -> & Hx)%list_elem_of_fmap.
    unfold f. destruct (String.eqb_spec (Block.taskId x) id); [done|].
    intros. done.
  - unfold toggleTaskDone at 1. rewrite Htask. simpl.
    unfold toggleTaskDone. rewrite Ht. simpl.
    destruct (taskById_findIndex st id t Ht) as (i & Hi & Hti).
    pose proof Hi as (x & Hx & Hp & Hbefore)%findIndex_Some.
    unfold setTaskDone at 2. rewrite Hi, Hti.
    unfold setTaskDone.
    rewrite (findIndex_first _ _ i (withDone t d)).
    + rewrite list_lookup_insert_eq by by eapply lookup_lt_Some.
      unfold d. rewrite negb_involutive, list_insert_insert_eq.
      rewrite withDone_withDone. by apply list_insert_id.
    + apply list_lookup_insert_eq. by eapply lookup_lt_Some.
    + simpl. assert (x = t) as -> by congruence. done.
    + intros j y Hj. rewrite list_lookup_insert_ne by lia. by apply Hbefore.
Qed.

Lemma toggleTaskDone_blocks_witness :
  let t := sampleTask "t1" 60 "不可" 1 in
  taskById storeSample "t1" = Some t
  ∧ taskById (toggleTaskDone storeSample "t1") "t1" = Some (withDone t true)
  ∧ (Block.done <$> getScheduleForDate (toggleTaskDone storeSample "t1") "2026-01-15")
    = [true; false; false]
  ∧ toggleTaskDone storeSample "x" = storeSample.
Proof.
  intros t.
  assert (Ht : taskById storeSample "t1" = Some t) by reflexivity.
  destruct (toggleTaskDone_blocks storeSample "t1") as [H1 _].
  destruct (H1 t Ht) as (H2 & H3 & _).
  split; [done|]. split; [exact H2|]. split.
  - rewrite H3. vm_compute. reflexivity.
  - by apply (proj2 (toggleTaskDone_blocks storeSample "x")).
Defined.

Lemma filter_filter_same {A : Type} (p : A → bool) (l : list A) :
  List.filter p (List.filter p l) = List.filter p l.
Proof.
  induction l as [|x l IH]; simpl; [done|].
  destruct (p x) eqn:Hp; simpl; [|done]. by rewrite Hp, IH.
Qed.

Lemma filter_none {A : Type} (p q : A → bool) (l : list A) :
  (∀ x, p x = true → q x = false) → List.filter q (List.filter p l) = [].
Proof.
  intros Hpq. induction l as [|x l IH]; simpl; [done|].
  destruct (p x) eqn:Hp; simpl; [|done]. by rewrite (Hpq x Hp).
Qed.

Lemma sort_filter_Permutation (p : Block.t → bool) (l : list Block.t) :
  List.filter p (sort cmpStart l) ≡ₚ List.filter p l.
Proof.
  induction (sort_Permutation cmpStart l) as [|x l1 l2 _ IH|x y l1|l1 l2 l3 _ IH1 _ IH2];
    simpl; [done| | |by etrans].
  - destruct (p x); [by constructor|done].
  - destruct (p x), (p y); try done. apply Permutation_swap.
Qed.

(** X13.  [clearToday] keeps, of the day of the settings, the blocks
    whose task id is ["lunch"] and nothing else, and does not touch the
    other dates, the tasks or the settings; clearing twice is clearing
    once; and after it the unplaced summary lists every task that is
    not done with its whole rounded duration. *)
Theorem clearToday_keeps_lunch (st : State) :
  let dateKey := Settings.date (settings st) in
  (∀ b, b ∈ getScheduleForDate (clearToday st) dateKey
        ↔ b ∈ getScheduleForDate st dateKey ∧ Block.taskId b = "lunch")
  ∧ (∀ other, other ≠ dateKey →
       scheduleByDate (clearToday st) !! other = scheduleByDate st !! other)
  ∧ tasks (clearToday st) = tasks st ∧ settings (clearToday st) = settings st
  ∧ clearToday (clearToday st) = clearToday st
  ∧ computeUnplaced (clearToday st) dateKey
    = omap (λ t, if Task.done t then None
                 else if 0 <? roundDiv5 (Task.duration t) * 5
                      then Some (t, roundDiv5 (Task.duration t) * 5) else None)
        (tasks st).
Proof.
  cbv zeta. set (dateKey := Settings.date (settings st)).
  assert (Hsched : getScheduleForDate (clearToday st) dateKey
            = sort cmpStart
                (List.filter (λ b, String.eqb (Block.taskId b) "lunch")
                   (default [] (scheduleByDate st !! dateKey)))).
  { unfold getScheduleForDate, clearToday, setSchedule; simpl.
    by rewrite lookup_insert_eq. }
  split_and!.
  - intros b. rewrite Hsched, sort_Permutation, elem_of_filter, String.eqb_eq.
    by rewrite getScheduleForDate_Permutation.
  - intros other Hne. unfold clearToday, setSchedule; simpl.
    by rewrite lookup_insert_ne.
  - done.
  - done.
  - unfold clearToday, setSchedule; simpl. fold dateKey.
    rewrite lookup_insert_eq; simpl. by rewrite filter_filter_same, insert_insert_eq.
  - unfold computeUnplaced. rewrite Hsched.
    assert (Hnone : List.filter (λ b, negb (String.eqb (Block.taskId b) "lunch"))
              (sort cmpStart
                 (List.filter (λ b, String.eqb (Block.taskId b) "lunch")
                    (default [] (scheduleByDate st !! dateKey)))) = []).
    { apply Permutation_nil_r. rewrite sort_filter_Permutation.
      rewrite filter_none; [done|]. by intros x ->. }
    rewrite Hnone. simpl. apply omap_ext_in. intros t _.
    destruct (Task.done t); [done|].
    rewrite lookup_empty. simpl. rewrite Z.sub_0_r.
    destruct (Z.ltb_spec 0 (roundDiv5 (Task.duration t) * 5)).
    + rewrite Z.max_r by lia.
      by destruct (Z.ltb_spec 0 (roundDiv5 (Task.duration t) * 5)); [|lia].
    + by rewrite Z.max_l by lia.
Qed.

(** ** The forms *)

Lemma getDayRange_of st sMin eMin :
  parseTimeToMin (Settings.dayStart (settings st)) = Some (Int sMin) →
  parseTimeToMin (Settings.dayEnd (settings st)) = Some (Int eMin) →
  getDayRange st = Some (mkDayRange sMin eMin (Settings.buffer (settings st))).
Proof.
  intros Hs He. unfold getDayRange. rewrite Hs, He. simpl.
  by destruct (Z.eqb_spec (Settings.buffer (settings st)) 0) as [->|].
Qed.

(** X14.  The settings form stores only a day of at least an hour: for
    start and end times that have an hour and minutes, the handler
    leaves the state as it is when the end is less than 60 minutes
    after the start, and otherwise stores settings whose day range is
    exactly these two times, with a buffer clamped to 0..60 minutes;
    the tasks and the schedules are not touched. *)
Theorem submitSettings_valid (st : State) (today date start end_ : string) (buf : Z)
    (strategy lunch : string) (sMin eMin : Z) :
  parseTimeToMin (orElse start "07:00") = Some (Int sMin) →
  parseTimeToMin (orElse end_ "23:00") = Some (Int eMin) →
  let st' := submitSettings st today date start end_ buf strategy lunch in
  (eMin - sMin < 60 → st' = st)
  ∧ (60 <= eMin - sMin →
       getDayRange st' = Some (mkDayRange sMin eMin (clamp buf 0 60))
       ∧ 0 <= Settings.buffer (settings st') <= 60
       ∧ Settings.date (settings st') = orElse date today
       ∧ tasks st' = tasks st ∧ scheduleByDate st' = scheduleByDate st).
Proof.
  intros Hs He. cbv zeta. unfold submitSettings. rewrite Hs, He.
  destruct (Z.ltb_spec (eMin - sMin) 60) as [Hlt|Hge].
  - split; [done|lia].
  - split; [lia|]. intros _. split_and!; try done.
    + by apply getDayRange_of.
    + simpl. unfold clamp. lia.
    + simpl. unfold clamp. lia.
Qed.

Lemma submitSettings_valid_witness :
  let st := sampleState "09:00" "18:00" 10 "none" [] in
  let st' := submitSettings st "2026-01-15" "" "08:30" "" 90 "" "" in
  parseTimeToMin (orElse "08:30" "07:00") = Some (Int 510)
  ∧ parseTimeToMin (orElse "" "23:00") = Some (Int 1380)
  ∧ getDayRange st' = Some (mkDayRange 510 1380 60)
  ∧ submitSettings st "2026-01-15" "" "08:30" "09:00" 90 "" "" = st.
Proof.
  intros st st'.
  assert (Hs : parseTimeToMin (orElse "08:30" "07:00") = Some (Int 510)) by reflexivity.
  assert (He : parseTimeToMin (orElse "" "23:00") = Some (Int 1380)) by reflexivity.
  assert (He' : parseTimeToMin (orElse "09:00" "23:00") = Some (Int 540)) by reflexivity.
  split; [done|]. split; [done|]. split.
  - apply (submitSettings_valid st "2026-01-15" "" "08:30" "" 90 "" "" 510 1380 Hs He). lia.
  - apply (submitSettings_valid st "2026-01-15" "" "08:30" "09:00" 90 "" "" 510 540 Hs He').
    lia.
Defined.

(** X15.  The same form lets a time without minutes through: when the
    start (or the end) has an hour but no minutes, [parseTimeToMin]
    gives [NaN], the test of the length of the day does not reject it,
    the settings are stored, and the day range of the new state has a
    bound that is [NaN]: neither [getDayRange] nor [buildSchedule]
    computes with integers afterwards. *)
Theorem submitSettings_accepts_nan `{Host} (uid : nat → string) (st : State)
    (today date start end_ : string) (buf : Z) (strategy lunch : string) :
  (parseTimeToMin (orElse start "07:00") = Some NaN
   ∧ parseTimeToMin (orElse end_ "23:00") ≠ None)
  ∨ (parseTimeToMin (orElse start "07:00") ≠ None
     ∧ parseTimeToMin (orElse end_ "23:00") = Some NaN) →
  let st' := submitSettings st today date start end_ buf strategy lunch in
  Settings.dayStart (settings st') = orElse start "07:00"
  ∧ Settings.dayEnd (settings st') = orElse end_ "23:00"
  ∧ getDayRange st' = None
  ∧ buildSchedule uid st' (Settings.date (settings st')) = None.
Proof.
  intros Hnan. cbv zeta.
  assert (Hst' : submitSettings st today date start end_ buf strategy lunch
            = mkState (Settings.mk (orElse date today) (orElse start "07:00")
                         (orElse end_ "23:00") (clamp buf 0 60) (orElse strategy "due")
                         (orElse lunch "none"))
                (tasks st) (scheduleByDate st)).
  { unfold submitSettings.
    destruct Hnan as [[-> He]|[Hs ->]].
    - by destruct (parseTimeToMin (orElse end_ "23:00")).
    - by destruct (parseTimeToMin (orElse start "07:00")) as [[]|]. }
  rewrite Hst'. simpl.
  assert (Hday : getDayRange
            (mkState (Settings.mk (orElse date today) (orElse start "07:00")
                        (orElse end_ "23:00") (clamp buf 0 60) (orElse strategy "due")
                        (orElse lunch "none"))
               (tasks st) (scheduleByDate st)) = None).
  { unfold getDayRange; simpl.
    destruct Hnan as [[-> He]|[Hs ->]]; simpl; [done|].
    by destruct (parseTimeToMin (orElse start "07:00")) as [[]|]. }
  split_and!; [done|done|done|].
  unfold buildSchedule. by rewrite Hday.
Qed.

Lemma submitSettings_accepts_nan_witness :
  let st := sampleState "09:00" "18:00" 10 "none" [] in
  let st' := submitSettings st "2026-01-15" "" "9" "18:00" 10 "" "" in
  Settings.dayStart (settings st') = "9"
  ∧ getDayRange st' = None
  ∧ @buildSchedule utcHost uidA st' (Settings.date (settings st')) = None.
Proof.
  intros st st'.
  destruct (@submitSettings_accepts_nan utcHost uidA st "2026-01-15" "" "9" "18:00" 10 "" "")
    as (H1 & _ & H2 & H3).
  - left. split; [reflexivity|discriminate].
  - exact (conj H1 (conj H2 H3)).
Defined.

Lemma elem_of_insert_inv {A : Type} (l : list A) (i : nat) (x y : A) :
  x ∈ <[i := y]> l → x = y ∨ x ∈ l.
Proof.
  revert i. induction l as [|z l IH]; intros i; simpl; [by right|].
  destruct i as [|i]; simpl.
  - intros [->|?]%elem_of_cons; [by left|right; by right].
  - intros [->|[?|?]%IH]%elem_of_cons; [right; by left|by left|right; by right].
Qed.

Lemma onGrid_round duration : 5 <= duration → 5 <= roundDiv5 duration * 5
  ∧ (roundDiv5 duration * 5) mod 5 = 0.
Proof.
  unfold roundDiv5. intros. split; [|by apply Z.mod_mul].
  Z.to_euclidean_division_equations. lia.
Qed.

(** X16.  The task form keeps the tasks on the 5-minute grid: a title
    that is empty or a duration below 5 leaves the state as it is;
    otherwise the task that is added, or the task under edit, gets the
    duration rounded to a multiple of 5 that is at least 5.  So when
    every task of the state is on the grid before, every task is on it
    after, and for each of them the duration [buildSchedule] works with
    is the stored duration. *)
Theorem submitTask_grid (newId : string) (now : Z) (st : State) (editing title : string)
    (duration : Z) (deadlineDate deadlineTime priority split : string) :
  (∀ t, t ∈ tasks st → onGrid t) →
  let st' := submitTask newId now st editing title duration deadlineDate deadlineTime
               priority split in
  (∀ t, t ∈ tasks st' → onGrid t ∧ normDuration t = Task.duration t)
  ∧ (title = "" ∨ duration < 5 → st' = st)
  ∧ (title ≠ "" → 5 <= duration → editing = "" →
       st' = addTask st
               (Task.mk newId title (roundDiv5 duration * 5) (orElse priority "中")
                  (orElse split "可") deadlineDate deadlineTime now false)).
Proof.
  intros Hgrid. cbv zeta.
  assert (Hnorm : ∀ t, onGrid t → onGrid t ∧ normDuration t = Task.duration t).
  { intros t [? ?]. split; [done|]. apply normDuration_grid; [lia|done]. }
  split_and!.
  - unfold submitTask.
    destruct (String.eqb title ""); [by intros; apply Hnorm, Hgrid|].
    destruct (Z.eqb_spec duration 0); simpl; [by intros; apply Hnorm, Hgrid|].
    destruct (Z.ltb_spec duration 5); simpl; [by intros; apply Hnorm, Hgrid|].
    destruct (String.eqb editing ""); simpl.
    + intros t [->|Ht]%elem_of_cons; apply Hnorm; [|by apply Hgrid].
      by apply onGrid_round.
    + destruct (findIndex _ (tasks st)) as [i|]; [|by intros; apply Hnorm, Hgrid].
      destruct (tasks st !! i) as [old|]; [|by intros; apply Hnorm, Hgrid].
      simpl. intros t [->|Ht]%elem_of_insert_inv; apply Hnorm; [|by apply Hgrid].
      by apply onGrid_round.
  - unfold submitTask. intros [->|Hlt]; [done|].
    destruct (String.eqb title ""); [done|].
    destruct (Z.eqb_spec duration 0); simpl; [done|].
    by destruct (Z.ltb_spec duration 5); [|lia].
  - intros Htitle Hdur ->. unfold submitTask.
    destruct (String.eqb_spec title ""); [done|].
    destruct (Z.eqb_spec duration 0); [lia|].
    destruct (Z.ltb_spec duration 5); [lia|]. done.
Qed.

Lemma submitTask_grid_witness :
  let st := sampleState "09:00" "18:00" 10 "none" [sampleTask "t1" 60 "不可" 1] in
  (∀ t, t ∈ tasks st → onGrid t)
  ∧ (Task.duration <$> tasks (submitTask "n" 7 st "" "new" 42 "" "" "" "")) = [40; 60]
  ∧ (∀ t, t ∈ tasks (submitTask "n" 7 st "" "new" 42 "" "" "" "") →
       onGrid t ∧ normDuration t = Task.duration t)
  ∧ submitTask "n" 7 st "" "new" 4 "" "" "" "" = st.
Proof.
  intros st.
  assert (Hgrid : ∀ t, t ∈ tasks st → onGrid t).
  { intros t ->%list_elem_of_singleton. split; [simpl; lia|reflexivity]. }
  destruct (submitTask_grid "n" 7 st "" "new" 42 "" "" "" "" Hgrid) as (H1 & _ & _).
  destruct (submitTask_grid "n" 7 st "" "new" 4 "" "" "" "" Hgrid) as (_ & H2 & _).
  split; [done|]. split; [reflexivity|]. split; [exact H1|].
  apply H2. right. lia.
Defined.

(** ** Printing and reading a time *)

Lemma append_empty_l (x : string) : ("" +:+ x)%string = x.
Proof. reflexivity. Qed.

Lemma digits_app (s rest : string) (acc : option Z) :
  allDigits s → digits acc (s +:+ rest) = digits (digits acc s) rest.
Proof.
  revert acc. induction s as [|c s IH]; intros acc; [done|].
  intros [[d Hd] Hs]. rewrite append_cons. simpl. rewrite Hd. by apply IH.
Qed.

Lemma allDigits_app (s t : string) : allDigits s → allDigits t → allDigits (s +:+ t).
Proof.
  induction s as [|c s IH]; [done|]. rewrite append_cons.
  intros [Hc Hs] Ht. split; [done|]. by apply IH.
Qed.

Lemma digitOf_pretty_N_char (y : N) :
  (y < 10)%N → digitOf (pretty_N_char y) = Some (Z.of_N y).
Proof.
  intros Hy.
  assert (y = 0 ∨ y = 1 ∨ y = 2 ∨ y = 3 ∨ y = 4 ∨ y = 5 ∨ y = 6 ∨ y = 7 ∨ y = 8 ∨ y = 9)%N
    as Hc by lia.
  repeat (destruct Hc as [->|Hc]; [reflexivity|]). by subst.
Qed.

(** The digits printed for a positive number, in front of [s]: they are
    digits, and read back they give the number. *)
Lemma pretty_N_go_digits (x : N) :
  (0 < x)%N →
  ∀ s, ∃ ds, pretty_N_go x s = (ds +:+ s)%string ∧ ds ≠ "" ∧ allDigits ds
             ∧ ∀ acc, default 0 acc = 0 → digits acc ds = Some (Z.of_N x).
Proof.
  induction (N.lt_wf_0 x) as [x _ IH]. intros Hx s.
  rewrite pretty_N_go_step by done.
  assert (Hd : digitOf (pretty_N_char (x `mod` 10)) = Some (Z.of_N (x `mod` 10)))
    by (apply digitOf_pretty_N_char, N.mod_lt; lia).
  destruct (decide (x `div` 10 = 0)%N) as [Hz|Hnz].
  - rewrite Hz, pretty_N_go_0.
    exists (String (pretty_N_char (x `mod` 10)) ""). split_and!; [done|done|simpl; eauto|].
    intros acc Hacc. simpl. rewrite Hd, Hacc.
    f_equal. clear -Hz. pose proof (N.div_mod x 10 ltac:(done)). lia.
  - destruct (IH (x `div` 10)%N) with (s := String (pretty_N_char (x `mod` 10)) s)
      as (ds & Heq & Hne & Hds & Hval).
    { apply N.div_lt; lia. }
    { by apply N.neq_0_lt_0. }
    exists (ds +:+ String (pretty_N_char (x `mod` 10)) "")%string.
    split_and!.
    + rewrite Heq. clear. induction ds as [|c ds IH]; [done|].
      by rewrite !append_cons, IH.
    + destruct ds; [done|]. by rewrite append_cons.
    + apply allDigits_app; [done|]. simpl. eauto.
    + intros acc Hacc. rewrite digits_app by done. rewrite (Hval acc Hacc).
      simpl. rewrite Hd. simpl. f_equal. clear.
      pose proof (N.div_mod x 10 ltac:(done)). lia.
Qed.

(** [String(n)] for [n >= 0]: digits that read back as [n]. *)
Lemma toString_digits (n : Z) :
  0 <= n →
  toString n ≠ "" ∧ allDigits (toString n)
  ∧ ∀ acc, default 0 acc = 0 → digits acc (toString n) = Some n.
Proof.
  intros Hn. unfold toString, pretty, pretty_Z.
  destruct n as [|p|p]; [|clear Hn|lia].
  - split_and!; [done|simpl; eauto|]. intros acc Hacc. simpl. by rewrite Hacc.
  - unfold pretty, pretty_positive, pretty, pretty_N.
    destruct (decide (N.pos p = 0)%N); [done|].
    destruct (pretty_N_go_digits (N.pos p)) with (s := "") as (ds & Heq & Hne & Hds & Hval);
      [lia|].
    rewrite Heq, append_empty_r. split_and!; [done|done|].
    intros acc Hacc. by rewrite (Hval acc Hacc).
Qed.

Lemma pad2_digits (n : Z) :
  0 <= n →
  pad2 n ≠ "" ∧ allDigits (pad2 n)
  ∧ digits None (pad2 n) = Some n.
Proof.
  intros Hn. destruct (toString_digits n Hn) as (Hne & Hds & Hval).
  unfold pad2, padStart2.
  destruct (toString n) as [|c [|c' s]] eqn:Hs; [done| |].
  - rewrite append_cons, append_empty_l. split_and!; [done|simpl; eauto|].
    simpl. change (digits (Some (10 * 0 + 0)) (String c "") = Some n).
    by apply Hval.
  - simpl String.length. cbv iota. split_and!; [done|done|by apply Hval].
Qed.

Lemma digit_not_special (c : ascii) :
  is_Some (digitOf c) →
  isWhite c = false ∧ c ≠ "-"%char ∧ c ≠ "+"%char ∧ c ≠ ":"%char.
Proof.
  intros [d Hd]. revert Hd.
  destruct c as [[] [] [] [] [] [] [] []]; vm_compute; intros Hd;
    first [discriminate Hd | by split_and!].
Qed.

Lemma parseInt_digits (s : string) :
  s ≠ "" → allDigits s → parseInt s = digits None s.
Proof.
  destruct s as [|c s]; [done|]. intros _ [Hc _].
  destruct (digit_not_special c Hc) as (Hw & Hm & Hp & _).
  unfold parseInt. simpl. rewrite Hw.
  destruct c as [[] [] [] [] [] [] [] []]; done.
Qed.

Lemma split_digits (s rest : string) :
  allDigits s →
  split ":" (s +:+ rest)
  = match split ":" rest with
    | p :: ps => (s +:+ p)%string :: ps
    | [] => []
    end.
Proof.
  induction s as [|c s IH]; intros Hs.
  - rewrite append_empty_l. by destruct (split ":" rest).
  - destruct Hs as [Hc Hs]. rewrite append_cons. simpl. rewrite (IH Hs).
    destruct (split ":" rest) as [|p ps]; [done|].
    destruct (digit_not_special c Hc) as (_ & _ & _ & Hcolon).
    by destruct (Ascii.eqb_spec c ":").
Qed.

(** X17.  Printing a time and reading it back gives the same minute:
    for every number of minutes [m >= 0] (an integer that JavaScript
    holds exactly), [parseTimeToMin (minToHHMM m)] is [m]. *)
Theorem minToHHMM_parseTimeToMin (m : Z) :
  0 <= m <= 9007199254740991 →
  parseTimeToMin (minToHHMM m) = Some (Int m).
Proof.
  intros [Hm _].
  assert (Hq : 0 <= m / 60) by (apply Z.div_pos; lia).
  assert (Hr : 0 <= Z.rem m 60) by (apply Z.rem_nonneg; lia).
  destruct (pad2_digits (m / 60) Hq) as (Hne1 & Hds1 & Hval1).
  destruct (pad2_digits (Z.rem m 60) Hr) as (Hne2 & Hds2 & Hval2).
  unfold parseTimeToMin, minToHHMM.
  destruct (String.eqb_spec (pad2 (m / 60) +:+ ":" +:+ pad2 (Z.rem m 60)) "") as [He|_].
  { destruct (pad2 (m / 60)); [done|]. by rewrite append_cons in He. }
  rewrite split_digits by done.
  change (":" +:+ pad2 (Z.rem m 60))%string with (String ":" (pad2 (Z.rem m 60))).
  simpl split.
  replace (pad2 (Z.rem m 60)) with (pad2 (Z.rem m 60) +:+ "")%string at 1
    by apply append_empty_r.
  rewrite split_digits by done. simpl.
  rewrite !append_empty_r.
  rewrite !parseInt_digits by done. rewrite Hval1, Hval2.
  do 2 f_equal. rewrite Z.rem_mod_nonneg by lia.
  pose proof (Z.div_mod m 60). lia.
Qed.

Lemma minToHHMM_parseTimeToMin_witness :
  0 <= 545 <= 9007199254740991
  ∧ minToHHMM 545 = "09:05"
  ∧ parseTimeToMin (minToHHMM 545) = Some (Int 545).
Proof.
  assert (H : 0 <= 545 <= 9007199254740991) by lia.
  exact (conj H (conj eq_refl (minToHHMM_parseTimeToMin 545 H))).
Defined.

(** ** Escaping *)

Lemma occurs_app (c : ascii) (s t : string) :
  occurs c (s +:+ t) ↔ occurs c s ∨ occurs c t.
Proof.
  induction s as [|x s IH]; [rewrite append_empty_l; simpl; tauto|].
  rewrite append_cons. simpl. rewrite IH. tauto.
Qed.

(** The five characters [escapeHTML] replaces. *)
Lemma entity_cases (c : ascii) :
  (c = "&"%char ∧ entity c = "&amp;")
  ∨ (c = "<"%char ∧ entity c = "&lt;")
  ∨ (c = ">"%char ∧ entity c = "&gt;")
  ∨ (c = quote ∧ entity c = "&quot;")
  ∨ (c = "'"%char ∧ entity c = "&#39;")
  ∨ (c ≠ "&"%char ∧ c ≠ "<"%char ∧ c ≠ ">"%char ∧ c ≠ quote ∧ c ≠ "'"%char
     ∧ entity c = String c "").
Proof.
  unfold entity.
  destruct (Ascii.eqb_spec c "&") as [->|?]; [by left|right].
  destruct (Ascii.eqb_spec c "<") as [->|?]; [by left|right].
  destruct (Ascii.eqb_spec c ">") as [->|?]; [by left|right].
  destruct (Ascii.eqb_spec c quote) as [->|?]; [by left|right].
  destruct (Ascii.eqb_spec c "'") as [->|?]; [by left|right].
  done.
Qed.

Lemma escapeHTML_cons c s : escapeHTML (String c s) = (entity c +:+ escapeHTML s)%string.
Proof. reflexivity. Qed.

Lemma escapeHTML_inj (s1 s2 : string) : escapeHTML s1 = escapeHTML s2 → s1 = s2.
Proof.
  revert s2. induction s1 as [|c1 s1 IH]; intros [|c2 s2].
  - done.
  - rewrite escapeHTML_cons.
    destruct (entity_cases c2) as [H|[H|[H|[H|[H|H]]]]];
      (destruct H as (? & ? & ? & ? & ? & Hc2) || destruct H as (? & Hc2));
      rewrite Hc2, ?append_cons; discriminate.
  - rewrite escapeHTML_cons.
    destruct (entity_cases c1) as [H|[H|[H|[H|[H|H]]]]];
      (destruct H as (? & ? & ? & ? & ? & Hc1) || destruct H as (? & Hc1));
      rewrite Hc1, ?append_cons; discriminate.
  - rewrite !escapeHTML_cons.
    destruct (entity_cases c1) as [Hx|[Hx|[Hx|[Hx|[Hx|Hx]]]]];
      (destruct Hx as (? & ? & ? & ? & ? & Hc1) || destruct Hx as (-> & Hc1));
      destruct (entity_cases c2) as [Hy|[Hy|[Hy|[Hy|[Hy|Hy]]]]];
      (destruct Hy as (? & ? & ? & ? & ? & Hc2) || destruct Hy as (-> & Hc2));
      rewrite ?Hc1, ?Hc2, ?append_cons, ?append_empty_l;
      intros Heq; try discriminate Heq;
      try (injection Heq as Heq; f_equal; by apply IH);
      try (injection Heq as ? Heq; f_equal; [done|by apply IH]);
      try (injection Heq as ? ?; congruence).
Qed.

(** X18.  [escapeHTML] is safe and loses nothing: its result contains
    none of the characters [<], [>], the double quote and the single
    quote, whatever the input; and two different inputs never give the
    same result. *)
Theorem escapeHTML_safe (s : string) :
  (¬ occurs "<" (escapeHTML s) ∧ ¬ occurs ">" (escapeHTML s)
   ∧ ¬ occurs quote (escapeHTML s) ∧ ¬ occurs "'" (escapeHTML s))
  ∧ ∀ s', escapeHTML s = escapeHTML s' → s = s'.
Proof.
  split; [|intros s'; apply escapeHTML_inj].
  induction s as [|c s IH]; [simpl; tauto|].
  rewrite escapeHTML_cons, !occurs_app.
  destruct IH as (IH1 & IH2 & IH3 & IH4).
  destruct (entity_cases c) as [H|[H|[H|[H|[H|H]]]]];
    (destruct H as (? & ? & ? & ? & ? & Hc) || destruct H as (-> & Hc));
    rewrite Hc; simpl; unfold quote in *;
    split_and!; intros [Hocc|?]; try done;
    repeat (destruct Hocc as [Hocc|Hocc]; [by (discriminate Hocc || congruence)|]);
    done.
Qed.

Lemma replaceAll_app (c : ascii) (r s t : string) :
  replaceAll c r (s +:+ t) = (replaceAll c r s +:+ replaceAll c r t)%string.
Proof.
  induction s as [|x s IH]; [done|].
  rewrite append_cons. simpl. rewrite IH.
  destruct (Ascii.eqb x c); [|done].
  generalize (replaceAll c r s) (replaceAll c r t). clear. intros a b.
  induction r as [|y r IH]; [done|]. by rewrite !append_cons, IH.
Qed.

Lemma escapeHtml__app (s t : string) :
  escapeHtml_ (s +:+ t) = (escapeHtml_ s +:+ escapeHtml_ t)%string.
Proof. unfold escapeHtml_. by rewrite !replaceAll_app. Qed.

Lemma replaceAll_other (c x : ascii) (r : string) :
  x ≠ c → replaceAll c r (String x "") = String x "".
Proof. intros Hne. simpl. by destruct (Ascii.eqb_spec x c). Qed.

Lemma escapeHtml__char (c : ascii) : escapeHtml_ (String c "") = entity c.
Proof.
  destruct (entity_cases c) as [H|[H|[H|[H|[H|H]]]]];
    (destruct H as (? & ? & ? & ? & ? & Hc) || destruct H as (-> & Hc));
    rewrite Hc; [reflexivity..|].
  unfold escapeHtml_. by rewrite !replaceAll_other.
Qed.

(** X19.  The two escaping functions are the same function: the five
    passes of [escapeHtml_] of the older version, with the ampersand
    replaced first, give for every string what the single pass of
    [escapeHTML] gives (no ampersand of an entity is escaped again). *)
Theorem escapeHtml__escapeHTML (s : string) : escapeHtml_ s = escapeHTML s.
Proof.
  induction s as [|c s IH]; [done|].
  change (String c s) with (String c "" +:+ s)%string at 1.
  by rewrite escapeHtml__app, escapeHtml__char, IH.
Qed.

(** ** The interval-list allocator: free time and placed blocks *)

Section IntervalInvariants.
Import IntervalList.

Lemma cmpInterval_total (a b : Interval.t) :
  cmpLe cmpInterval a b ∨ cmpLe cmpInterval b a.
Proof. unfold cmpLe, cmpInterval. lia. Qed.

Lemma cmpInterval_trans (a b c : Interval.t) :
  cmpLe cmpInterval a b → cmpLe cmpInterval b c → cmpLe cmpInterval a c.
Proof. unfold cmpLe, cmpInterval. lia. Qed.

Lemma elem_of_subtractBusy free busy iv' :
  iv' ∈ subtractBusy free busy ↔ ∃ iv, iv ∈ free ∧ iv' ∈ subtractOne busy iv.
Proof.
  unfold subtractBusy. rewrite sort_Permutation, list_elem_of_bind.
  split; intros (iv & ? & ?); exists iv; done.
Qed.

(** A piece left of [iv]: inside [iv], off the busy interval, and of
    positive length when [iv] is. *)
Lemma subtractOne_piece busy iv iv' :
  iv' ∈ subtractOne busy iv →
  Interval.start iv <= Interval.start iv' ∧ Interval.end_ iv' <= Interval.end_ iv
  ∧ (Interval.end_ busy <= Interval.start iv' ∨ Interval.end_ iv' <= Interval.start busy)
  ∧ (Interval.start iv < Interval.end_ iv → Interval.start iv' < Interval.end_ iv').
Proof.
  unfold subtractOne.
  destruct (Z.leb_spec (Interval.end_ busy) (Interval.start iv));
    destruct (Z.geb_spec (Interval.start busy) (Interval.end_ iv)); simpl;
    try (intros ->%list_elem_of_singleton; lia).
  destruct (Z.gtb_spec (Interval.start busy) (Interval.start iv));
    destruct (Z.ltb_spec (Interval.end_ busy) (Interval.end_ iv)); simpl;
    rewrite ?elem_of_cons, ?elem_of_nil;
    intros Hin; repeat destruct Hin as [Hin|Hin]; try done; subst; simpl; lia.
Qed.

Lemma subtractOne_covers busy iv x :
  (∃ iv', iv' ∈ subtractOne busy iv ∧ covers iv' x) ↔ covers iv x ∧ ¬ covers busy x.
Proof.
  unfold subtractOne, covers.
  destruct (Z.leb_spec (Interval.end_ busy) (Interval.start iv));
    destruct (Z.geb_spec (Interval.start busy) (Interval.end_ iv)); simpl.
  1-3: split;
    [intros (iv' & ->%list_elem_of_singleton & ?); lia
    |intros [? ?]; exists iv; split; [by apply list_elem_of_singleton|lia]].
  destruct (Z.gtb_spec (Interval.start busy) (Interval.start iv));
    destruct (Z.ltb_spec (Interval.end_ busy) (Interval.end_ iv)); simpl;
    (split;
     [intros (iv' & Hin & Hx); rewrite ?elem_of_cons, ?elem_of_nil in Hin;
      repeat destruct Hin as [Hin|Hin]; try done; subst; simpl in *; lia
     |intros [Hx Hb]]).
  - destruct (Z.lt_ge_cases x (Interval.start busy)).
    + eexists. split; [by left|]. simpl. lia.
    + eexists. split; [right; by left|]. simpl. lia.
  - eexists. split; [by left|]. simpl. lia.
  - eexists. split; [by left|]. simpl. lia.
  - lia.
Qed.

(** X20.  [subtractBusy] takes exactly the busy minutes away: a minute
    lies in an interval of the result if and only if it lies in a free
    interval and not in the busy one.  Every interval of the result is
    a part of a free interval, is of positive length when that one is,
    and the result is sorted by start. *)
Theorem subtractBusy_points (free : list Interval.t) (busy : Interval.t) :
  (∀ x, (∃ iv', iv' ∈ subtractBusy free busy ∧ covers iv' x)
        ↔ (∃ iv, iv ∈ free ∧ covers iv x) ∧ ¬ covers busy x)
  ∧ (∀ iv', iv' ∈ subtractBusy free busy →
       ∃ iv, iv ∈ free
             ∧ Interval.start iv <= Interval.start iv'
             ∧ Interval.end_ iv' <= Interval.end_ iv
             ∧ (Interval.start iv < Interval.end_ iv →
                Interval.start iv' < Interval.end_ iv'))
  ∧ StronglySorted (λ a b, Interval.start a <= Interval.start b) (subtractBusy free busy).
Proof.
  split_and!.
  - intros x. split.
    + intros (iv' & (iv & Hiv & Hin)%elem_of_subtractBusy & Hx).
      destruct (proj1 (subtractOne_covers busy iv x)) as [? ?]; [by exists iv'|].
      split; [by exists iv|done].
    + intros [(iv & Hiv & Hx) Hb].
      destruct (proj2 (subtractOne_covers busy iv x)) as (iv' & Hin & Hx'); [done|].
      exists iv'. split; [|done]. apply elem_of_subtractBusy. by exists iv.
  - intros iv' (iv & Hiv & Hin)%elem_of_subtractBusy.
    destruct (subtractOne_piece busy iv iv' Hin) as (? & ? & _ & ?).
    by exists iv.
  - unfold subtractBusy.
    eapply StronglySorted_weaken;
      [|apply (sort_sorted cmpInterval cmpInterval_total cmpInterval_trans)].
    unfold cmpLe, cmpInterval. intros; lia.
Qed.

Context (startDay endDay bufferMin : Z) (generateId : nat → string).

Lemma pairwise_snoc {A : Type} (R : A → A → Prop) (l : list A) (y : A) :
  pairwise R l → (∀ x, x ∈ l → R x y) → pairwise R (l ++ [y]).
Proof.
  induction l as [|x l IH]; simpl; [done|].
  intros [Hx Hl] Hy. split.
  - apply Forall_app. split; [done|]. constructor; [|done]. apply Hy. by left.
  - apply IH; [done|]. intros z Hz. apply Hy. by right.
Qed.

(** Taking the time of a new block out of the free intervals keeps the
    invariant, when the block lies in the day and keeps clear of the
    blocks before it. *)
Lemma planOk_take blocks free b :
  planOk startDay endDay bufferMin blocks free →
  insideDay startDay endDay b →
  (∀ X, X ∈ blocks → keepsClear bufferMin X b) →
  planOk startDay endDay bufferMin (blocks ++ [b])
    (subtractBusy free (Interval.mk (Block.start b) (gapAfter bufferMin b))).
Proof.
  intros [Hfree Htaken Hinside Hclear] Hb Hkeeps. split.
  - intros iv' (iv & Hiv & Hin)%elem_of_subtractBusy.
    destruct (subtractOne_piece _ iv iv' Hin) as (? & ? & _ & Hpos).
    destruct (Hfree iv Hiv) as (? & ? & ?). specialize (Hpos ltac:(done)). lia.
  - intros X iv' [HX| ->%list_elem_of_singleton]%elem_of_app
      (iv & Hiv & Hin)%elem_of_subtractBusy;
      destruct (subtractOne_piece _ iv iv' Hin) as (? & ? & Hoff & _).
    + destruct (Htaken X iv HX Hiv); lia.
    + simpl in Hoff. lia.
  - intros X [HX| ->%list_elem_of_singleton]%elem_of_app; [by apply Hinside|done].
  - by apply pairwise_snoc.
Qed.

(** A block placed for a task at the start of a free interval. *)
Lemma planOk_place blocks free iv t k use :
  planOk startDay endDay bufferMin blocks free →
  iv ∈ free → 0 < use <= Interval.end_ iv - Interval.start iv →
  planOk startDay endDay bufferMin
    (blocks ++ [blockFor generateId t k (Interval.start iv) (Interval.start iv + use)])
    (subtractBusy free
       (Interval.mk (Interval.start iv) (Interval.start iv + use + bufferMin))).
Proof.
  intros Hok Hiv Huse.
  set (b := blockFor generateId t k (Interval.start iv) (Interval.start iv + use)).
  assert (Hkind : isEvent b = false).
  { unfold isEvent, b, blockFor, kindOf; simpl. by destruct (String.eqb _ "google"). }
  assert (Hgap : gapAfter bufferMin b = Interval.start iv + use + bufferMin).
  { unfold gapAfter. by rewrite Hkind. }
  replace (Interval.mk (Interval.start iv) (Interval.start iv + use + bufferMin))
    with (Interval.mk (Block.start b) (gapAfter bufferMin b)) by (by rewrite Hgap).
  destruct (ok_free _ _ _ _ _ Hok iv Hiv) as (? & ? & ?).
  apply planOk_take; [done| |].
  - unfold insideDay, b; simpl. lia.
  - intros X HX _. destruct (ok_taken _ _ _ _ _ Hok X iv HX Hiv); [left|right];
      unfold b; simpl; lia.
Qed.

Lemma planOk_splitLoop fuel t base free newBlocks k remaining i
    free' newBlocks' k' remaining' :
  splitLoop bufferMin generateId fuel t free newBlocks k remaining i
  = Some (free', newBlocks', k', remaining') →
  planOk startDay endDay bufferMin (base ++ newBlocks) free →
  planOk startDay endDay bufferMin (base ++ newBlocks') free'.
Proof.
  revert free newBlocks k remaining i.
  induction fuel as [|fuel IH]; intros free newBlocks k remaining i; simpl; [done|].
  destruct (free !! i) as [iv|] eqn:Hiv; [|by intros [= <- <- _ _]].
  destruct (Z.ltb_spec 0 remaining); [|by intros [= <- <- _ _]].
  destruct (Z.leb_spec (Interval.end_ iv - Interval.start iv) 0); [by apply IH|].
  intros Hloop Hok. eapply IH; [exact Hloop|].
  rewrite app_assoc. apply planOk_place; [done|by eapply list_elem_of_lookup_2|lia].
Qed.

Lemma planOk_allocateTask fuel p t p' :
  allocateTask bufferMin generateId fuel p t = Some p' →
  0 < Task.duration t →
  planOk startDay endDay bufferMin (blocks p) (freeIntervals p) →
  planOk startDay endDay bufferMin (blocks p') (freeIntervals p').
Proof.
  unfold allocateTask. intros Halloc Hdur Hok.
  destruct (String.eqb (Task.split t) "不可").
  - destruct (List.find _ (freeIntervals p)) as [iv|] eqn:Hfind.
    + injection Halloc as <-. simpl.
      apply find_some in Hfind as [Hiv%list_elem_of_In Hlen].
      apply planOk_place; [done|done|lia].
    + by injection Halloc as <-.
  - destruct (splitLoop _ _ _ _ _ _ _ _ _) as [[[[free nb] k] r]|] eqn:Hloop; [|done].
    simpl in Halloc. injection Halloc as <-. simpl.
    eapply planOk_splitLoop; [exact Hloop|]. by rewrite app_nil_r.
Qed.

Lemma planOk_allocateAll fuel p ts p' :
  allocateAll bufferMin generateId fuel p ts = Some p' →
  (∀ t, t ∈ ts → 0 < Task.duration t) →
  planOk startDay endDay bufferMin (blocks p) (freeIntervals p) →
  planOk startDay endDay bufferMin (blocks p') (freeIntervals p').
Proof.
  revert p. induction ts as [|t ts IH]; intros p; simpl.
  - by intros [= <-].
  - intros (p1 & Hp1 & Hrest)%bind_Some Hdur Hok.
    eapply IH; [exact Hrest|intros; apply Hdur; by right|].
    eapply planOk_allocateTask; [exact Hp1|apply Hdur; by left|done].
Qed.

Lemma planOk_reserveEvent p ev :
  planOk startDay endDay bufferMin (blocks p) (freeIntervals p) →
  planOk startDay endDay bufferMin
    (blocks (reserveEvent startDay endDay generateId p ev))
    (freeIntervals (reserveEvent startDay endDay generateId p ev)).
Proof.
  intros Hok. unfold reserveEvent. cbv zeta. simpl.
  destruct (Z.leb_spec (Z.min endDay (Event.endMin ev)) (Z.max startDay (Event.startMin ev)));
    [done|].
  simpl.
  set (b := Block.mk _ _ _ _ _).
  assert (Hkind : isEvent b = true) by done.
  assert (Hgap : gapAfter bufferMin b = Z.min endDay (Event.endMin ev)).
  { unfold gapAfter. rewrite Hkind. simpl. lia. }
  replace (Interval.mk (Z.max startDay (Event.startMin ev)) (Z.min endDay (Event.endMin ev)))
    with (Interval.mk (Block.start b) (gapAfter bufferMin b)) by (by rewrite Hgap).
  apply planOk_take; [done| |].
  - unfold insideDay, b; simpl. lia.
  - intros X _ Hb. congruence.
Qed.

Lemma planOk_events p evs :
  planOk startDay endDay bufferMin (blocks p) (freeIntervals p) →
  planOk startDay endDay bufferMin
    (blocks (foldl (reserveEvent startDay endDay generateId) p evs))
    (freeIntervals (foldl (reserveEvent startDay endDay generateId) p evs)).
Proof.
  revert p. induction evs as [|ev evs IH]; intros p Hok; simpl; [done|].
  by apply IH, planOk_reserveEvent.
Qed.

Lemma planOk_start :
  startDay < endDay →
  planOk startDay endDay bufferMin [] [Interval.mk startDay endDay].
Proof.
  intros Hday. split.
  - intros iv ->%list_elem_of_singleton. simpl. lia.
  - intros b iv []%elem_of_nil.
  - intros b []%elem_of_nil.
  - done.
Qed.

End IntervalInvariants.

(** X21.  The schedule of the older [generateSchedule] is valid: for
    tasks of positive duration, every block (a calendar event cut to
    the day, or a block placed for a task) has a positive length and
    lies between day-start and day-end, and every block placed for a
    task keeps clear of all the blocks before it in the list, the
    events and the blocks of the tasks placed earlier: it starts after
    the end of such a block, plus the buffer when that block is a task
    block, or it ends by its start.  A schedule is produced only for a
    day that ends after its start. *)
Theorem generateSchedule_valid (fuel : nat) (startDay endDay bufferMin : Z)
    (generateId : nat → string) (googleEvents : list Event.t)
    (sortedTasks : list IntervalList.Task.t) (p : IntervalList.Plan) :
  generateSchedule fuel startDay endDay bufferMin generateId googleEvents sortedTasks
  = Some (Some p) →
  (∀ t, t ∈ sortedTasks → 0 < IntervalList.Task.duration t) →
  startDay < endDay
  ∧ (∀ b, b ∈ IntervalList.blocks p → insideDay startDay endDay b)
  ∧ (∀ i j X Y, (i < j)%nat →
       IntervalList.blocks p !! i = Some X → IntervalList.blocks p !! j = Some Y →
       isEvent Y = false →
       IntervalList.Block.end_ X + (if isEvent X then 0 else bufferMin)
       <= IntervalList.Block.start Y
       ∨ IntervalList.Block.end_ Y <= IntervalList.Block.start X).
Proof.
  unfold generateSchedule.
  destruct (Z.leb_spec endDay startDay) as [|Hday]; [done|].
  intros (p1 & Hall & [= <-])%fmap_Some Hdur.
  assert (Hok : planOk startDay endDay bufferMin (IntervalList.blocks p)
                  (IntervalList.freeIntervals p)).
  { eapply planOk_allocateAll; [exact Hall|done|].
    apply planOk_events. simpl. by apply planOk_start. }
  split_and!; [done|apply Hok|].
  intros i j X Y Hij HX HY HYev.
  by apply (pairwise_lookup _ _ i j X Y (ok_clear _ _ _ _ _ Hok) Hij HX HY).
Qed.

Lemma generateSchedule_valid_witness :
  let evs := [Event.mk "e1" "meet" 500 600; Event.mk "" "" 700 2000] in
  let ts := [IntervalList.Task.mk "a" 100 "可" "" ""; IntervalList.Task.mk "b" 30 "不可" "" ""] in
  ∃ p,
    generateSchedule 10 540 720 10 uidA evs ts = Some (Some p)
    ∧ (∀ t, t ∈ ts → 0 < IntervalList.Task.duration t)
    ∧ ((λ b, (IntervalList.Block.start b, IntervalList.Block.end_ b))
         <$> IntervalList.blocks p)
      = [(540, 600); (700, 720); (600, 700)]
    ∧ (∀ b, b ∈ IntervalList.blocks p → insideDay 540 720 b).
Proof.
  intros evs ts.
  eassert (Hg : generateSchedule 10 540 720 10 uidA evs ts = Some (Some _))
    by (vm_compute; reflexivity).
  assert (Hts : ∀ t, t ∈ ts → 0 < IntervalList.Task.duration t).
  { intros t [->|[->|[]%elem_of_nil]%elem_of_cons]%elem_of_cons; simpl; lia. }
  eexists.
  destruct (generateSchedule_valid 10 540 720 10 uidA evs ts _ Hg Hts) as (_ & H1 & _).
  exact (conj Hg (conj Hts (conj eq_refl H1))).
Defined.

Section SplitFacts.
Import IntervalList.
Context (bufferMin : Z) (generateId : nat → string).

Lemma subtractBusy_positive free busy :
  (∀ iv, iv ∈ free → Interval.start iv < Interval.end_ iv) →
  ∀ iv, iv ∈ subtractBusy free busy → Interval.start iv < Interval.end_ iv.
Proof.
  intros Hfree iv' (iv & Hiv & Hin)%elem_of_subtractBusy.
  destruct (subtractOne_piece busy iv iv' Hin) as (_ & _ & _ & Hpos).
  by apply Hpos, Hfree.
Qed.

(** With free intervals of positive length the split loop stops only
    when the task is placed or no free interval is left. *)
Lemma splitLoop_exhausts fuel t free newBlocks k remaining free' newBlocks' k' remaining' :
  (∀ iv, iv ∈ free → Interval.start iv < Interval.end_ iv) →
  splitLoop bufferMin generateId fuel t free newBlocks k remaining O
  = Some (free', newBlocks', k', remaining') →
  (∀ iv, iv ∈ free' → Interval.start iv < Interval.end_ iv)
  ∧ (remaining' <= 0 ∨ free' = []).
Proof.
  revert free newBlocks k remaining.
  induction fuel as [|fuel IH]; intros free newBlocks k remaining Hpos; simpl; [done|].
  destruct free as [|iv free0] eqn:Hfree; simpl.
  { intros [= <- _ _ _]. split; [done|by right]. }
  destruct (Z.ltb_spec 0 remaining); [|intros [= <- _ _ <-]; split; [done|left; lia]].
  assert (Interval.start iv < Interval.end_ iv) by (apply Hpos; by left).
  destruct (Z.leb_spec (Interval.end_ iv - Interval.start iv) 0); [lia|].
  apply IH. by apply subtractBusy_positive.
Qed.

End SplitFacts.

(** X22.  In the older allocator a task that may be split uses all the
    free time there is: when the free intervals have a positive length
    (as they have in every plan [generateSchedule] builds), after the
    pass of such a task either it has no unplaced entry, or it has one
    with the minutes that are left and not a single free interval
    remains; the free intervals that remain have a positive length
    again. *)
Theorem allocateTask_split_exhausts (bufferMin : Z) (generateId : nat → string)
    (fuel : nat) (p p' : IntervalList.Plan) (t : IntervalList.Task.t) :
  IntervalList.Task.split t ≠ "不可" →
  0 < IntervalList.Task.duration t →
  (∀ iv, iv ∈ IntervalList.freeIntervals p →
     IntervalList.Interval.start iv < IntervalList.Interval.end_ iv) →
  IntervalList.allocateTask bufferMin generateId fuel p t = Some p' →
  (∀ iv, iv ∈ IntervalList.freeIntervals p' →
     IntervalList.Interval.start iv < IntervalList.Interval.end_ iv)
  ∧ (IntervalList.unplaced p' = IntervalList.unplaced p
     ∨ (IntervalList.freeIntervals p' = []
        ∧ ∃ r, 0 < r <= IntervalList.Task.duration t
               ∧ IntervalList.unplaced p'
                 = IntervalList.unplaced p ++ [(IntervalList.Task.title t, r)])).
Proof.
  intros Hsplit Hdur Hpos. unfold IntervalList.allocateTask.
  destruct (String.eqb_spec (IntervalList.Task.split t) "不可"); [done|].
  destruct (IntervalList.splitLoop _ _ _ _ _ _ _ _ _) as [[[[free nb] k] r]|] eqn:Hloop;
    [|done].
  simpl. intros [= <-]. simpl.
  destruct (splitLoop_exhausts _ _ _ _ _ _ _ _ _ _ _ _ Hpos Hloop) as [Hpos' Hend].
  destruct (splitLoop_minutes _ _ _ _ _ _ _ _ _ _ _ _ _ Hloop) as [Hr _]; [lia|].
  split; [done|].
  destruct (Z.ltb_spec 0 r); [|by left].
  right. destruct Hend as [?| ->]; [lia|]. split; [done|].
  exists r. split; [lia|done].
Qed.

Lemma allocateTask_split_exhausts_witness :
  let t := IntervalList.Task.mk "t" 100 "可" "" "" in
  let p := IntervalList.mkPlan
             [IntervalList.Interval.mk 540 590; IntervalList.Interval.mk 600 630] [] [] 0 in
  ∃ p',
    IntervalList.allocateTask 10 uidA 5 p t = Some p'
    ∧ IntervalList.freeIntervals p' = []
    ∧ IntervalList.unplaced p' = [("t", 20)]
    ∧ (IntervalList.unplaced p' = IntervalList.unplaced p
       ∨ (IntervalList.freeIntervals p' = []
          ∧ ∃ r, 0 < r <= IntervalList.Task.duration t
                 ∧ IntervalList.unplaced p'
                   = IntervalList.unplaced p ++ [(IntervalList.Task.title t, r)])).
Proof.
  intros t p.
  eassert (Ha : IntervalList.allocateTask 10 uidA 5 p t = Some _)
    by (vm_compute; reflexivity).
  assert (Hsplit : IntervalList.Task.split t ≠ "不可") by discriminate.
  assert (Hdur : 0 < IntervalList.Task.duration t) by (simpl; lia).
  assert (Hpos : ∀ iv, iv ∈ IntervalList.freeIntervals p →
            IntervalList.Interval.start iv < IntervalList.Interval.end_ iv).
  { intros iv [->|[->|[]%elem_of_nil]%elem_of_cons]%elem_of_cons; simpl; lia. }
  eexists.
  exact (conj Ha (conj eq_refl (conj eq_refl
           (proj2 (allocateTask_split_exhausts 10 uidA 5 p _ t Hsplit Hdur Hpos Ha))))).
Defined.

(** ** The order of the gaps and the room in the day *)

(** X23.  [findGap] is monotone: among fewer blocks, or for a shorter
    request, the gap is never later.  If a gap is found for [n']
    minutes among the blocks [blocks'], none of which starts after
    day-end, then for every [n <= n'] and every part [blocks] of
    [blocks'] a gap is found too, and it starts no later. *)
Theorem findGap_monotone (day : DayRange) (blocks blocks' : list Block.t) (n n' : Z)
    (g' : Gap) :
  (∀ b, b ∈ blocks → b ∈ blocks') → n <= n' →
  (∀ b, b ∈ blocks' → Block.startMin b <= endMin day) →
  findGap day blocks' n' = Some g' →
  ∃ g, findGap day blocks n = Some g ∧ s g <= s g' ∧ e g = s g + n.
Proof.
  intros Hsub Hn Hday Hg'.
  destruct (findGap_gap day blocks' n' g' Hg') as (He & Hs & _ & Hall & Hend).
  assert (He' : e g' <= endMin day).
  { destruct Hend as [?|(X & HX & ?)]; [done|]. pose proof (Hday X HX). lia. }
  destruct (scan_earliest day n (startMin day) (sort cmpStart blocks) (s g'))
    as (g & Hg & Hle); [done|lia| |].
  { intros b Hb. rewrite (sort_Permutation cmpStart blocks) in Hb.
    destruct (Hall b (Hsub b Hb)); [by left|right; lia]. }
  exists g. split; [done|]. split; [done|].
  by destruct (findGap_gap day blocks n g Hg) as (? & _).
Qed.

Lemma findGap_monotone_witness :
  let day := mkDayRange 540 1080 10 in
  let a0 := Block.mk "a0" "t1" "t1" 540 600 false false in
  let blocks' := [lunchBlock (720, 780); a0] in
  ∃ g' g,
    findGap day blocks' 120 = Some g'
    ∧ findGap day [a0] 60 = Some g
    ∧ (s g, s g') = (610, 790)
    ∧ s g <= s g'.
Proof.
  intros day a0 blocks'.
  assert (Hg' : findGap day blocks' 120 = Some (mkGap 790 910))
    by (vm_compute; reflexivity).
  destruct (findGap_monotone day [a0] blocks' 60 120 (mkGap 790 910))
    as (g & Hg & Hle & _);
    [ |lia| |exact Hg'|].
  - intros b ->%list_elem_of_singleton. right. by left.
  - intros b [->|[->|[]%elem_of_nil]%elem_of_cons]%elem_of_cons; simpl; lia.
  - eexists _, g. split; [exact Hg'|]. split; [exact Hg|]. split; [|exact Hle].
    vm_compute in Hg. injection Hg as <-. reflexivity.
Defined.

Lemma chunkBound_pos remaining : 0 < remaining → 1 <= chunkBound remaining.
Proof. unfold chunkBound. intros. Z.to_euclidean_division_equations. lia. Qed.

Lemma packed_weaken day blocks u u' : u <= u' → packed day blocks u → packed day blocks u'.
Proof. intros Hu Hp b Hb. specialize (Hp b Hb). lia. Qed.

(** With the blocks packed into the first [u] minutes, a request that
    fits after them finds a gap, and the new block is packed into the
    first [u + n + buffer] minutes. *)
Lemma packed_insert day uid blocks u t k title n :
  0 <= buffer day → 0 <= u → 0 < n →
  packed day blocks u → startMin day + u + n <= endMin day →
  ∃ g, findGap day blocks n = Some g
       ∧ packed day (insertBlock blocks (taskBlock uid t k title g)) (u + n + buffer day).
Proof.
  intros Hbuf Hu Hn Hp Hfit.
  destruct (scan_earliest day n (startMin day) (sort cmpStart blocks) (startMin day + u))
    as (g & Hg & Hle); [lia|lia| |].
  { intros b Hb. rewrite (sort_Permutation cmpStart blocks) in Hb. left. by apply Hp. }
  exists g. split; [done|].
  destruct (findGap_gap day blocks n g Hg) as (He & _).
  intros b. rewrite insertBlock_Permutation. intros [->|Hb]%elem_of_cons.
  - simpl. lia.
  - specialize (Hp b Hb). lia.
Qed.

Lemma packed_chunkLoop day uid fuel t dur blocks k remaining blocks' k' remaining' u :
  0 <= buffer day → 0 <= u → 0 <= remaining →
  packed day blocks u →
  startMin day + u + remaining + buffer day * chunkBound remaining
  <= endMin day + buffer day →
  chunkLoop day uid fuel t dur blocks k remaining = Some (blocks', k', remaining') →
  remaining' = 0
  ∧ packed day blocks' (u + remaining + buffer day * chunkBound remaining).
Proof.
  intros Hbuf. revert blocks k remaining u.
  induction fuel as [|fuel IH]; intros blocks k remaining u Hu Hrem Hp Hroom; simpl;
    [done|].
  pose proof (chunkBound_le remaining) as Hcb.
  destruct (Z.ltb_spec 0 remaining) as [Hpos|Hneg].
  - pose proof (chunkOf_bounds remaining Hpos) as Hc.
    pose proof (chunkBound_pos remaining Hpos) as Hcb1.
    pose proof (chunkBound_step remaining Hpos) as Hstep.
    pose proof (chunkBound_le (remaining - chunkOf remaining)) as Hcb'.
    destruct (packed_insert day uid blocks u t k
                (chunkTitle t dur (chunkOf remaining)) (chunkOf remaining))
      as (g & Hg & Hp'); [done|done|lia|done|nia|].
    rewrite Hg. intros Hloop.
    destruct (IH _ _ (remaining - chunkOf remaining) (u + chunkOf remaining + buffer day)
                ltac:(lia) ltac:(lia) Hp' ltac:(nia) Hloop) as [Hr' Hp''].
    split; [done|]. eapply packed_weaken; [|exact Hp'']. nia.
  - intros [= <- _ <-]. split; [lia|]. eapply packed_weaken; [|exact Hp]. nia.
Qed.

Lemma packed_placeTask day uid a t u :
  0 <= buffer day → 0 <= u →
  packed day (dayBlocks a) u → unplaced a = [] →
  startMin day + u + cost (buffer day) t <= endMin day + buffer day →
  packed day (dayBlocks (placeTask day uid a t)) (u + cost (buffer day) t)
  ∧ unplaced (placeTask day uid a t) = []
  ∧ ∀ tid, placedMinutes tid (dayBlocks (placeTask day uid a t))
           = placedMinutes tid (dayBlocks a) + roundedFor tid t.
Proof.
  intros Hbuf Hu Hp Hun Hroom. unfold cost in *.
  pose proof (normDuration_pos t) as Hdur.
  unfold placeTask, roundedFor. destruct (canSplit t) eqn:Hs; rewrite ?Hs in *; simpl.
  - pose proof (placeChunks_run day uid t (normDuration t) (dayBlocks a) (uids a)) as Hrun.
    destruct (placeChunks _ _ _ _ _ _) as [[blocks k] remaining]; simpl.
    destruct (packed_chunkLoop day uid _ t (normDuration t) (dayBlocks a) (uids a)
                (normDuration t) _ _ _ u Hbuf Hu ltac:(lia) Hp ltac:(lia) Hrun)
      as [-> Hp'].
    apply chunkLoop_minutes in Hrun as [_ Hsum]; [|lia].
    split; [|split; [done|]].
    + eapply packed_weaken; [|exact Hp']. lia.
    + intros tid. rewrite Hsum. destruct (String.eqb (Task.id t) tid); lia.
  - destruct (packed_insert day uid (dayBlocks a) u t (uids a) (Task.title t)
                (normDuration t)) as (g & Hg & Hp'); [done|done|lia|done|lia|].
    rewrite Hg. simpl. split; [|split; [done|]].
    + eapply packed_weaken; [|exact Hp']. lia.
    + intros tid. rewrite placedMinutes_insert.
      destruct (findGap_gap day _ _ _ Hg) as (He & _).
      unfold minutesFor. simpl. rewrite andb_true_r.
      destruct (String.eqb (Task.id t) tid); lia.
Qed.

Lemma cost_nonneg buffer t : 0 <= buffer → 0 <= cost buffer t.
Proof.
  intros Hbuf. unfold cost. pose proof (normDuration_pos t).
  pose proof (chunkBound_le (normDuration t)). destruct (canSplit t); nia.
Qed.

Lemma packed_allocate day uid a ts u :
  0 <= buffer day → 0 <= u →
  packed day (dayBlocks a) u → unplaced a = [] →
  startMin day + u + sumZ (cost (buffer day)) ts <= endMin day + buffer day →
  unplaced (allocate day uid a ts) = []
  ∧ ∀ tid, placedMinutes tid (dayBlocks (allocate day uid a ts))
           = placedMinutes tid (dayBlocks a) + sumZ (roundedFor tid) ts.
Proof.
  intros Hbuf. revert a u.
  induction ts as [|t ts IH]; intros a u Hu Hp Hun Hroom; simpl in *;
    [split; [done|intros; lia]|].
  assert (Hsum : 0 <= sumZ (cost (buffer day)) ts).
  { clear -Hbuf. induction ts as [|x ts IH]; simpl; [lia|].
    pose proof (cost_nonneg (buffer day) x Hbuf). lia. }
  pose proof (cost_nonneg (buffer day) t Hbuf).
  destruct (packed_placeTask day uid a t u Hbuf Hu Hp Hun ltac:(lia))
    as (Hp' & Hun' & Hmin').
  destruct (IH (placeTask day uid a t) (u + cost (buffer day) t)) as [Hun'' Hmin''];
    [lia|done|done|lia|].
  split; [done|]. intros tid. rewrite Hmin'', Hmin'. lia.
Qed.

Lemma sumZ_roundedFor ts t :
  NoDup (Task.id <$> ts) → t ∈ ts → sumZ (roundedFor (Task.id t)) ts = normDuration t.
Proof.
  induction ts as [|t' ts IH]; simpl; [by intros _ ?%elem_of_nil|].
  intros [Hnotin Hnd]%NoDup_cons [->|Hin]%elem_of_cons.
  - unfold roundedFor at 1. rewrite String.eqb_refl.
    assert (sumZ (roundedFor (Task.id t')) ts = 0) as ->; [|lia].
    clear IH Hnd. induction ts as [|x ts IH]; simpl; [done|].
    rewrite IH; [|intros Hin; apply Hnotin; by right]. unfold roundedFor.
    destruct (String.eqb_spec (Task.id x) (Task.id t')) as [Heq|_]; [|lia].
    exfalso. apply Hnotin. rewrite <- Heq. simpl. by left.
  - rewrite IH by done. unfold roundedFor.
    destruct (String.eqb_spec (Task.id t') (Task.id t)) as [Heq|_]; [|lia].
    exfalso. apply Hnotin. rewrite Heq. by apply list_elem_of_fmap_2.
Qed.

(** X24.  When the day has room, every task is placed completely: with
    a buffer that is not negative, if the minutes closed off by the
    lunch block (from day-start to its end plus the buffer; none without
    a lunch block) and, for every task that is not done, its rounded
    duration plus one buffer per block it may take, fit between
    day-start and day-end plus one buffer, then [buildSchedule] returns
    an empty [unplaced], and for every task id the lengths of the blocks
    placed for that id add up to the rounded durations of the tasks
    with that id that are not done; so when these tasks have different
    ids, the blocks of each of them add up to its rounded duration. *)
Theorem buildSchedule_places_all `{Host} (uid : nat → string) (st st' : State)
    (dateKey : string) (out : Schedule.t) (day : DayRange) (lunch : option (Z * Z)) :
  0 <= Settings.buffer (settings st) →
  buildSchedule uid st dateKey = Some (st', out) →
  getDayRange st = Some day → getLunchBlock st = Some lunch →
  startMin day + reserved day lunch
  + sumZ (cost (buffer day)) (tasksToSchedule st dateKey)
  <= endMin day + buffer day →
  Schedule.unplaced out = []
  ∧ (∀ tid, placedMinutes tid (Schedule.placed out)
            = sumZ (roundedFor tid) (tasksToSchedule st dateKey))
  ∧ (NoDup (Task.id <$> tasksToSchedule st dateKey) →
     ∀ t, t ∈ tasksToSchedule st dateKey →
          placedMinutes (Task.id t) (Schedule.placed out) = normDuration t).
Proof.
  intros Hbuf (day' & lunch' & ts & Hday' & Hlunch' & Hts & -> & _)%buildSchedule_Some
    Hday Hlunch Hroom.
  assert (day' = day) as -> by congruence.
  assert (lunch' = lunch) as -> by congruence. simpl.
  assert (Hb : 0 <= buffer day) by by rewrite (getDayRange_buffer st day Hday).
  pose proof (sortTasks_Permutation _ _ _ Hts) as Hperm.
  destruct (packed_allocate day uid (mkAlloc (fixedBlocks lunch) [] 0) ts
              (reserved day lunch)) as [Hun Hmin]; [done| | |done| |].
  - unfold reserved. destruct lunch; lia.
  - simpl. intros b Hin. unfold reserved. destruct lunch as [l|]; simpl in Hin.
    + apply list_elem_of_singleton in Hin as ->. simpl. lia.
    + by apply elem_of_nil in Hin.
  - rewrite (sumZ_Permutation _ _ _ Hperm). lia.
  - assert (Hall : ∀ tid, placedMinutes tid
                            (dayBlocks (allocate day uid (mkAlloc (fixedBlocks lunch) [] 0) ts))
                          = sumZ (roundedFor tid) (tasksToSchedule st dateKey)).
    { intros tid. rewrite Hmin. simpl.
      rewrite placedMinutes_fixedBlocks, (sumZ_Permutation _ _ _ Hperm). lia. }
    split; [done|]. split; [done|].
    intros Hnd t Ht. rewrite Hall. by apply sumZ_roundedFor.
Qed.

Lemma buildSchedule_places_all_witness :
  let t1 := sampleTask "t1" 200 "可" 1 in
  let t2 := sampleTask "t2" 60 "不可" 2 in
  let st := sampleState "09:00" "21:00" 10 "12:00-13:00" [t1; t2] in
  ∃ st' out day lunch,
    0 <= Settings.buffer (settings st)
    ∧ @buildSchedule utcHost uidA st "2026-01-15" = Some (st', out)
    ∧ getDayRange st = Some day ∧ getLunchBlock st = Some lunch
    ∧ startMin day + reserved day lunch
      + sumZ (cost (buffer day)) (tasksToSchedule st "2026-01-15")
      <= endMin day + buffer day
    ∧ Schedule.unplaced out = []
    ∧ placedMinutes "t1" (Schedule.placed out) = 200
    ∧ placedMinutes "t2" (Schedule.placed out) = 60
    ∧ (λ b, (Block.taskId b, Block.startMin b, Block.endMin b)) <$> Schedule.placed out
      = [("t1", 540, 600); ("t1", 610, 670); ("t1", 680, 700); ("lunch", 720, 780);
         ("t1", 790, 850); ("t2", 860, 920)].
Proof.
  intros t1 t2 st.
  eassert (Hb : @buildSchedule utcHost uidA st "2026-01-15" = Some (_, _))
    by (vm_compute; reflexivity).
  eassert (Hday : getDayRange st = Some _) by (vm_compute; reflexivity).
  eassert (Hlunch : getLunchBlock st = Some _) by (vm_compute; reflexivity).
  assert (Hbuf : 0 <= Settings.buffer (settings st)) by (simpl; lia).
  pose proof (@buildSchedule_places_all utcHost uidA st _ "2026-01-15" _ _ _
                Hbuf Hb Hday Hlunch) as Hall.
  eexists _, _, _, _.
  eassert (Hroom : _ <= _); [|
    destruct (Hall Hroom) as (Hun & Hmin & _);
    exact (conj Hbuf (conj Hb (conj Hday (conj Hlunch (conj Hroom
             (conj Hun (conj (eq_trans (Hmin "t1") eq_refl)
                (conj (eq_trans (Hmin "t2") eq_refl) eq_refl))))))))].
  vm_compute. discriminate.
Defined.

(** ** The order of the tasks, and undoing a move *)

(** Two sorted lists with the same elements are equal when no two
    different elements compare both ways. *)
Lemma sorted_unique {A : Type} (R : A → A → Prop) (l1 l2 : list A) :
  StronglySorted R l1 → StronglySorted R l2 → l1 ≡ₚ l2 →
  (∀ x y, x ∈ l1 → y ∈ l1 → R x y → R y x → x = y) →
  l1 = l2.
Proof.
  intros Hs1. revert l2. induction Hs1 as [|x l1 Hs1 IH Hx]; intros l2 Hs2 Hp Hanti.
  - by apply Permutation_nil in Hp.
  - destruct Hs2 as [|y l2 Hs2 Hy].
    { symmetry in Hp. by apply Permutation_nil in Hp. }
    rewrite Forall_forall in Hx, Hy.
    assert (x = y) as <-.
    { assert (Hxin : x ∈ y :: l2) by (rewrite <-Hp; by left).
      assert (Hyin : y ∈ x :: l1) by (rewrite Hp; by left).
      apply elem_of_cons in Hxin as [?|Hxin]; [done|].
      apply elem_of_cons in Hyin as [?|Hyin]; [done|].
      apply Hanti; [by left|by right|by apply Hx|by apply Hy]. }
    f_equal. apply IH; [done|by apply Permutation_cons_inv in Hp|].
    intros a b Ha Hb. apply Hanti; by right.
Qed.

Lemma sort_Permutation_eq {A : Type} (cmp : A → A → Z) (l1 l2 : list A) :
  (∀ x y, cmpLe cmp x y ∨ cmpLe cmp y x) →
  (∀ x y z, cmpLe cmp x y → cmpLe cmp y z → cmpLe cmp x z) →
  l1 ≡ₚ l2 →
  (∀ x y, x ∈ l1 → y ∈ l1 → cmpLe cmp x y → cmpLe cmp y x → x = y) →
  sort cmp l1 = sort cmp l2.
Proof.
  intros Htotal Htrans Hp Hanti.
  apply (sorted_unique (cmpLe cmp)); [by apply sort_sorted..| |].
  - by rewrite !sort_Permutation.
  - intros x y. rewrite !sort_Permutation. apply Hanti.
Qed.

Lemma Forall2_Permutation_l {A B : Type} (P : A → B → Prop) (l1 l2 : list A)
    (k1 : list B) :
  l1 ≡ₚ l2 → Forall2 P l1 k1 → ∃ k2, Forall2 P l2 k2 ∧ k1 ≡ₚ k2.
Proof.
  intros Hp. revert k1.
  induction Hp as [|x l1 l2 _ IH|x y l|l1 l2 l3 _ IH1 _ IH2]; intros k1 Hk1.
  - inversion Hk1; subst. by exists [].
  - inversion Hk1 as [|? b ? k Hb Hk]; subst.
    destruct (IH k Hk) as (k2 & Hk2 & Hp2).
    exists (b :: k2). split; [by constructor|by constructor].
  - inversion Hk1 as [|? b ? k' Hb Hk']; subst.
    inversion Hk' as [|? a ? k Ha Hk]; subst.
    exists (a :: b :: k). split; [by repeat constructor|apply Permutation_swap].
  - destruct (IH1 k1 Hk1) as (k2 & Hk2 & Hp2).
    destruct (IH2 k2 Hk2) as (k3 & Hk3 & Hp3).
    exists k3. split; [done|by etrans].
Qed.

Lemma mapM_Permutation {A B : Type} (f : A → option B) (l1 l2 : list A) (k1 : list B) :
  l1 ≡ₚ l2 → mapM f l1 = Some k1 → ∃ k2, mapM f l2 = Some k2 ∧ k1 ≡ₚ k2.
Proof.
  intros Hp Hk1%mapM_Some_1.
  destruct (Forall2_Permutation_l _ l1 l2 k1 Hp Hk1) as (k2 & Hk2 & Hp2).
  exists k2. split; [by apply mapM_Some_2|done].
Qed.

(** Keyed tasks that compare both ways were created at the same time. *)
Lemma comparator_tie strategy a b :
  cmpLe (comparator strategy) a b → cmpLe (comparator strategy) b a →
  Task.createdAt (kt a) = Task.createdAt (kt b).
Proof.
  unfold comparator. destruct (String.eqb strategy "priority").
  - rewrite !byPriority_priorityFirst. unfold priorityFirst.
    intros [?|[? [Hl|[Heq Hc]]]] [?|[? [Hl'|[Heq' Hc']]]]; try lia.
    + exfalso. eapply ext_lt_irrefl, ext_lt_trans; [exact Hl|exact Hl'].
    + exfalso. rewrite Heq' in Hl. by apply ext_lt_irrefl in Hl.
    + exfalso. rewrite Heq in Hl'. by apply ext_lt_irrefl in Hl'.
  - rewrite !byDue_deadlineFirst. unfold deadlineFirst.
    intros [Hl|[Heq Hc]] [Hl'|[Heq' Hc']]; try lia.
    + exfalso. eapply ext_lt_irrefl, ext_lt_trans; [exact Hl|exact Hl'].
    + exfalso. rewrite Heq' in Hl. by apply ext_lt_irrefl in Hl.
    + exfalso. rewrite Heq in Hl'. by apply ext_lt_irrefl in Hl'.
Qed.

Lemma sortTasks_Permutation_eq `{Host} st1 st2 arr1 arr2 :
  settings st2 = settings st1 → arr1 ≡ₚ arr2 →
  NoDup (Task.createdAt <$> arr1) →
  sortTasks st2 arr2 = sortTasks st1 arr1.
Proof.
  intros Hs Hp Hnd.
  assert (Hstrat : strategyOf st2 = strategyOf st1) by (unfold strategyOf; by rewrite Hs).
  unfold sortTasks. rewrite Hstrat.
  destruct (mapM keyOf arr1) as [w1|] eqn:Hw1.
  - destruct (mapM_Permutation keyOf arr1 arr2 w1 Hp Hw1) as (w2 & -> & Hw).
    simpl. do 2 f_equal. symmetry.
    apply sort_Permutation_eq; [apply comparator_total|apply comparator_trans|done|].
    intros x y Hx Hy Hxy Hyx.
    pose proof (comparator_tie _ _ _ Hxy Hyx) as Htie.
    destruct (sortTasks_Some st1 arr1 (kt <$> sort (comparator (strategyOf st1)) w1))
      as (w & Hw' & Harr & Hkeys & _); [unfold sortTasks; by rewrite Hw1|].
    assert (w = w1) as -> by congruence.
    rewrite Forall_forall in Hkeys.
    assert (Hkt : kt x = kt y).
    { apply (NoDup_fmap_eq Task.createdAt arr1); [done| | |done];
        rewrite <-Harr; by apply list_elem_of_fmap_2. }
    pose proof (Hkeys x Hx) as Hkx. pose proof (Hkeys y Hy) as Hky.
    rewrite Hkt in Hkx. congruence.
  - destruct (mapM keyOf arr2) as [w2|] eqn:Hw2; [|done].
    symmetry in Hp.
    destruct (mapM_Permutation keyOf arr2 arr1 w2 Hp Hw2) as (w1 & Hw1' & _).
    congruence.
Qed.

(** X25.  The schedule depends on the settings and on the set of the
    tasks that are not done, not on the order in which the tasks are
    stored nor on the tasks that are done: for two states with the same
    settings whose tasks that are not done are the same up to their
    order, and were created at different times, [buildSchedule] returns
    the same blocks and the same unplaced list (the creation time is
    the last key of both rankings, so the ranking has no ties to be
    broken by position). *)
Theorem buildSchedule_order_independent `{Host} (uid : nat → string) (st1 st2 : State)
    (dateKey : string) :
  settings st2 = settings st1 →
  tasksToSchedule st2 dateKey ≡ₚ tasksToSchedule st1 dateKey →
  NoDup (Task.createdAt <$> tasksToSchedule st1 dateKey) →
  snd <$> buildSchedule uid st2 dateKey = snd <$> buildSchedule uid st1 dateKey.
Proof.
  intros Hs Hp Hnd.
  assert (H1 : getDayRange st2 = getDayRange st1)
    by (unfold getDayRange; by rewrite Hs).
  assert (H2 : getLunchBlock st2 = getLunchBlock st1)
    by (unfold getLunchBlock; by rewrite Hs).
  assert (H3 : sortTasks st2 (tasksToSchedule st2 dateKey)
               = sortTasks st1 (tasksToSchedule st1 dateKey)).
  { apply sortTasks_Permutation_eq; [done|by symmetry|done]. }
  unfold buildSchedule. rewrite H1, H2, H3.
  destruct (getDayRange st1); simpl; [|done].
  destruct (getLunchBlock st1); simpl; [|done].
  by destruct (sortTasks st1 _).
Qed.

Lemma buildSchedule_order_independent_witness :
  let t1 := sampleTask "t1" 200 "可" 1 in
  let t2 := sampleTask "t2" 60 "不可" 2 in
  let t3 := withDone (sampleTask "t3" 30 "可" 3) true in
  let st1 := sampleState "09:00" "18:00" 10 "12:00-13:00" [t1; t2] in
  let st2 := sampleState "09:00" "18:00" 10 "12:00-13:00" [t2; t3; t1] in
  settings st2 = settings st1
  ∧ tasksToSchedule st2 "2026-01-15" ≡ₚ tasksToSchedule st1 "2026-01-15"
  ∧ NoDup (Task.createdAt <$> tasksToSchedule st1 "2026-01-15")
  ∧ snd <$> @buildSchedule utcHost uidA st2 "2026-01-15"
    = snd <$> @buildSchedule utcHost uidA st1 "2026-01-15".
Proof.
  intros t1 t2 t3 st1 st2.
  assert (Hs : settings st2 = settings st1) by reflexivity.
  assert (Hp : tasksToSchedule st2 "2026-01-15" ≡ₚ tasksToSchedule st1 "2026-01-15")
    by apply Permutation_swap.
  assert (Hnd : NoDup (Task.createdAt <$> tasksToSchedule st1 "2026-01-15"))
    by (apply (bool_decide_unpack _); vm_compute; reflexivity).
  exact (conj Hs (conj Hp (conj Hnd
           (@buildSchedule_order_independent utcHost uidA st1 st2 "2026-01-15"
              Hs Hp Hnd)))).
Defined.

Lemma moved_same b : moved b (Block.startMin b) (Block.endMin b) = b.
Proof. by destruct b. Qed.

Lemma moved_moved b s e s' e' : moved (moved b s e) s' e' = moved b s' e'.
Proof. done. Qed.

(** An accepted move, read back from the store. *)
Lemma moveBlock_to st dateKey idx b s e :
  NoDup (Block.id <$> getScheduleForDate st dateKey) →
  getScheduleForDate st dateKey !! idx = Some b → Block.fixed b = false →
  (∀ x, x ∈ getScheduleForDate st dateKey → Block.id x ≠ Block.id b →
     e <= Block.startMin x ∨ Block.endMin x <= s) →
  moveBlock st dateKey (Block.id b) s e
  = setSchedule st dateKey
      (sort cmpStart (<[idx := moved b s e]> (getScheduleForDate st dateKey))).
Proof.
  intros Hnd Hb Hfixed Hfree. unfold moveBlock. cbv zeta.
  rewrite (findIndex_id _ idx b Hnd Hb), Hb, Hfixed.
  destruct (hasOverlap st dateKey (Block.id b) s e) eqn:Hov; [|done].
  apply hasOverlap_true in Hov as (x & Hx & Hid & Hno).
  destruct Hno. by apply Hfree.
Qed.

Lemma same_start_eq (blocks : list Block.t) (x y : Block.t) :
  pairwise noOverlap blocks →
  (∀ z, z ∈ blocks → Block.startMin z < Block.endMin z) →
  x ∈ blocks → y ∈ blocks → Block.startMin x = Block.startMin y → x = y.
Proof.
  intros Hpw Hpos [i Hi]%list_elem_of_lookup_1 [j Hj]%list_elem_of_lookup_1 Hs.
  pose proof (Hpos x (list_elem_of_lookup_2 _ _ _ Hi)).
  pose proof (Hpos y (list_elem_of_lookup_2 _ _ _ Hj)).
  destruct (Nat.lt_total i j) as [Hlt|[->|Hlt]].
  - pose proof (pairwise_lookup _ _ _ _ _ _ Hpw Hlt Hi Hj) as Hn.
    unfold noOverlap in Hn. lia.
  - congruence.
  - pose proof (pairwise_lookup _ _ _ _ _ _ Hpw Hlt Hj Hi) as Hn.
    unfold noOverlap in Hn. lia.
Qed.

(** X26.  A move can be undone: in a day whose blocks have distinct
    identifiers, a positive length and do not overlap, moving a block
    that is not fixed to any target and then back to its original
    start and end gives back the day's schedule exactly, whether the
    first move was accepted or refused; the tasks, the settings and the
    other dates are not touched. *)
Theorem moveBlock_undo (st : State) (dateKey : string) (s' e' : Z) (idx : nat)
    (b : Block.t) :
  NoDup (Block.id <$> getScheduleForDate st dateKey) →
  pairwise noOverlap (getScheduleForDate st dateKey) →
  (∀ x, x ∈ getScheduleForDate st dateKey → Block.startMin x < Block.endMin x) →
  getScheduleForDate st dateKey !! idx = Some b → Block.fixed b = false →
  let st1 := moveBlock st dateKey (Block.id b) s' e' in
  let st2 := moveBlock st1 dateKey (Block.id b) (Block.startMin b) (Block.endMin b) in
  getScheduleForDate st2 dateKey = getScheduleForDate st dateKey
  ∧ tasks st2 = tasks st ∧ settings st2 = settings st
  ∧ ∀ other, other ≠ dateKey → scheduleByDate st2 !! other = scheduleByDate st !! other.
Proof.
  intros Hnd Hpw Hpos Hb Hfixed. cbv zeta.
  set (blocks := getScheduleForDate st dateKey) in *.
  assert (Hsorted : sort cmpStart blocks = blocks).
  { apply sort_sorted_id, getScheduleForDate_sorted. }
  assert (Hown : ∀ x, x ∈ blocks → Block.id x ≠ Block.id b →
            Block.endMin b <= Block.startMin x ∨ Block.endMin x <= Block.startMin b).
  { intros x [j Hj]%list_elem_of_lookup_1 Hid.
    assert (idx ≠ j) by (intros ->; congruence).
    destruct (Nat.lt_total idx j) as [Hlt|[?|Hlt]]; [|done|].
    - apply (pairwise_lookup _ _ _ _ _ _ Hpw Hlt Hb Hj).
    - apply noOverlap_sym. apply (pairwise_lookup _ _ _ _ _ _ Hpw Hlt Hj Hb). }
  assert (Hback : moveBlock st dateKey (Block.id b) (Block.startMin b) (Block.endMin b)
            = setSchedule st dateKey (sort cmpStart blocks)).
  { rewrite (moveBlock_to st dateKey idx b _ _ Hnd Hb Hfixed Hown).
    by rewrite moved_same, list_insert_id. }
  destruct (hasOverlap st dateKey (Block.id b) s' e') eqn:Hov.
  - assert (Hst1 : moveBlock st dateKey (Block.id b) s' e' = st).
    { unfold moveBlock. cbv zeta. fold blocks.
      by rewrite (findIndex_id _ idx b Hnd Hb), Hb, Hfixed, Hov. }
    rewrite Hst1, Hback. split_and!; [|done|done|].
    + by rewrite getScheduleForDate_set.
    + intros other Hne. unfold setSchedule; simpl. by rewrite lookup_insert_ne.
  - assert (Hfree : ∀ x, x ∈ blocks → Block.id x ≠ Block.id b →
              e' <= Block.startMin x ∨ Block.endMin x <= s').
    { intros x Hx Hid. by apply (hasOverlap_false st dateKey (Block.id b)). }
    rewrite (moveBlock_to st dateKey idx b s' e' Hnd Hb Hfixed Hfree). fold blocks.
    set (L1 := sort cmpStart (<[idx := moved b s' e']> blocks)).
    set (st1 := setSchedule st dateKey L1).
    assert (Hsched1 : getScheduleForDate st1 dateKey = L1)
      by apply getScheduleForDate_set.
    assert (Hp1 : L1 ≡ₚ moved b s' e' :: delete idx blocks).
    { unfold L1. rewrite sort_Permutation. by eapply insert_Permutation_delete. }
    assert (Hold : blocks ≡ₚ b :: delete idx blocks) by by apply delete_Permutation.
    assert (Hnd1 : NoDup (Block.id <$> L1)).
    { rewrite Hp1. simpl. change (NoDup (Block.id <$> b :: delete idx blocks)).
      by rewrite <-Hold. }
    assert (Hin1 : moved b s' e' ∈ L1) by (rewrite Hp1; by left).
    apply list_elem_of_lookup_1 in Hin1 as [idx1 Hidx1].
    assert (Hfree1 : ∀ x, x ∈ getScheduleForDate st1 dateKey →
              Block.id x ≠ Block.id (moved b s' e') →
              Block.endMin b <= Block.startMin x ∨ Block.endMin x <= Block.startMin b).
    { intros x. rewrite Hsched1, Hp1. intros [->|Hx]%elem_of_cons Hid; [done|].
      apply Hown; [|done]. rewrite Hold. by right. }
    assert (Hfinal : sort cmpStart (<[idx1 := b]> L1) = blocks).
    { rewrite <-Hsorted.
      apply sort_Permutation_eq; [apply cmpStart_total|apply cmpStart_trans| |].
      - rewrite (insert_Permutation_delete L1 idx1 b _ Hidx1), Hold.
        constructor.
        apply (Permutation_cons_inv (a := moved b s' e')).
        by rewrite <-(delete_Permutation L1 idx1 _ Hidx1), <-Hp1.
      - assert (Hperm : <[idx1 := b]> L1 ≡ₚ blocks).
        { rewrite (insert_Permutation_delete L1 idx1 b _ Hidx1), Hold.
          constructor.
          apply (Permutation_cons_inv (a := moved b s' e')).
          by rewrite <-(delete_Permutation L1 idx1 _ Hidx1), <-Hp1. }
        intros x y. rewrite !Hperm. intros Hx Hy Hxy Hyx.
        apply (same_start_eq blocks); [done|done|done|done|].
        unfold cmpLe, cmpStart in *. lia. }
    assert (Hst2 : moveBlock st1 dateKey (Block.id b) (Block.startMin b) (Block.endMin b)
              = setSchedule st1 dateKey blocks).
    { change (Block.id b) with (Block.id (moved b s' e')).
      rewrite (moveBlock_to st1 dateKey idx1 (moved b s' e') _ _); try done;
        [|by rewrite Hsched1..].
      by rewrite moved_moved, moved_same, Hsched1, Hfinal. }
    rewrite Hst2.
    split_and!; [|done|done|].
    + rewrite <-Hsorted at 1. rewrite getScheduleForDate_set. by rewrite Hsorted.
    + intros other Hne. unfold setSchedule, st1, setSchedule; simpl.
      by rewrite !lookup_insert_ne.
Qed.

Lemma moveBlock_undo_witness :
  let b := Block.mk "a1" "t2" "t2" 610 670 false false in
  let st := storeSample in
  NoDup (Block.id <$> getScheduleForDate st "2026-01-15")
  ∧ pairwise noOverlap (getScheduleForDate st "2026-01-15")
  ∧ (∀ x, x ∈ getScheduleForDate st "2026-01-15" → Block.startMin x < Block.endMin x)
  ∧ getScheduleForDate st "2026-01-15" !! 1%nat = Some b
  ∧ getScheduleForDate
      (moveBlock (moveBlock st "2026-01-15" "a1" 900 960) "2026-01-15" "a1" 610 670)
      "2026-01-15"
    = getScheduleForDate st "2026-01-15".
Proof.
  intros b st.
  assert (Hs : getScheduleForDate st "2026-01-15"
           = [Block.mk "a0" "t1" "t1" 540 600 false false; b; lunchBlock (720, 780)])
    by (vm_compute; reflexivity).
  assert (Hnd : NoDup (Block.id <$> getScheduleForDate st "2026-01-15"))
    by (apply (bool_decide_unpack _); vm_compute; reflexivity).
  assert (Hpw : pairwise noOverlap (getScheduleForDate st "2026-01-15")).
  { rewrite Hs. simpl. unfold noOverlap, lunchBlock. simpl.
    repeat match goal with
           | |- _ ∧ _ => split
           | |- Forall _ _ => constructor
           | |- True => exact I
           end; simpl; lia. }
  assert (Hpos : ∀ x, x ∈ getScheduleForDate st "2026-01-15" →
            Block.startMin x < Block.endMin x).
  { rewrite Hs. intros x Hx.
    apply elem_of_cons in Hx as [->|Hx]; [simpl; lia|].
    apply elem_of_cons in Hx as [->|Hx]; [simpl; lia|].
    apply list_elem_of_singleton in Hx as ->. simpl; lia. }
  assert (Hb : getScheduleForDate st "2026-01-15" !! 1%nat = Some b) by by rewrite Hs.
  exact (conj Hnd (conj Hpw (conj Hpos (conj Hb
           (proj1 (moveBlock_undo st "2026-01-15" 900 960 1 b Hnd Hpw Hpos Hb eq_refl)))))).
Defined.

(** ** The free time left by the calendar events *)

Lemma subtractBusy_covers free busy x :
  (∃ iv', iv' ∈ IntervalList.subtractBusy free busy ∧ covers iv' x)
  ↔ (∃ iv, iv ∈ free ∧ covers iv x) ∧ ¬ covers busy x.
Proof.
  split.
  - intros (iv' & (iv & Hiv & Hin)%elem_of_subtractBusy & Hx).
    destruct (proj1 (subtractOne_covers busy iv x)) as [? ?]; [by exists iv'|].
    split; [by exists iv|done].
  - intros [(iv & Hiv & Hx) Hb].
    destruct (proj2 (subtractOne_covers busy iv x)) as (iv' & Hin & Hx'); [done|].
    exists iv'. split; [|done]. apply elem_of_subtractBusy. by exists iv.
Qed.

Lemma reserveEvent_free startDay endDay generateId p ev x :
  (∀ iv, iv ∈ IntervalList.freeIntervals p → covers iv x → startDay <= x < endDay) →
  (∃ iv, iv ∈ IntervalList.freeIntervals (reserveEvent startDay endDay generateId p ev)
         ∧ covers iv x)
  ↔ (∃ iv, iv ∈ IntervalList.freeIntervals p ∧ covers iv x)
    ∧ ¬ (Event.startMin ev <= x < Event.endMin ev).
Proof.
  intros Hday. unfold reserveEvent. cbv zeta. simpl.
  destruct (Z.leb_spec (Z.min endDay (Event.endMin ev)) (Z.max startDay (Event.startMin ev))).
  - split; [|by intros [? _]].
    intros (iv & Hiv & Hx). split; [by exists iv|].
    pose proof (Hday iv Hiv Hx). lia.
  - simpl. rewrite subtractBusy_covers. unfold covers at 2. simpl.
    split; intros [(iv & Hiv & Hx) Hb]; (split; [by exists iv|]);
      pose proof (Hday iv Hiv Hx); lia.
Qed.

Lemma reserveEvents_free startDay endDay generateId evs p x :
  (∀ iv, iv ∈ IntervalList.freeIntervals p → covers iv x → startDay <= x < endDay) →
  (∃ iv, iv ∈ IntervalList.freeIntervals
                (foldl (reserveEvent startDay endDay generateId) p evs)
         ∧ covers iv x)
  ↔ (∃ iv, iv ∈ IntervalList.freeIntervals p ∧ covers iv x)
    ∧ ∀ ev, ev ∈ evs → ¬ (Event.startMin ev <= x < Event.endMin ev).
Proof.
  revert p. induction evs as [|ev evs IH]; intros p Hday; simpl.
  - split; [intros ?; split; [done|by intros ? ?%elem_of_nil]|by intros [? _]].
  - rewrite IH.
    + rewrite (reserveEvent_free _ _ _ _ _ _ Hday). split.
      * intros [[? ?] Hevs]. split; [done|].
        intros ev' [->|?]%elem_of_cons; [done|by apply Hevs].
      * intros [? Hevs]. split; [split; [done|]|].
        -- apply Hevs. by left.
        -- intros ev' ?. apply Hevs. by right.
    + intros iv Hiv Hx.
      destruct (proj1 (reserveEvent_free _ _ generateId p ev x Hday)) as [(iv0 & ? & ?) _];
        [by exists iv|]. by eapply Hday.
Qed.

(** X27.  The calendar events take exactly their minutes out of the
    day: after the events of the day are reserved by
    [generateSchedule], a minute lies in a free interval if and only if
    it lies between day-start and day-end and in none of the events,
    whether an event lies in the day, sticks out of it or lies outside
    it, and also when events overlap each other. *)
Theorem reserveEvents_free_time (startDay endDay : Z) (generateId : nat → string)
    (googleEvents : list Event.t) (x : Z) :
  let p0 := IntervalList.mkPlan [IntervalList.Interval.mk startDay endDay] [] [] 0 in
  (∃ iv, iv ∈ IntervalList.freeIntervals
                (foldl (reserveEvent startDay endDay generateId) p0 googleEvents)
         ∧ covers iv x)
  ↔ startDay <= x < endDay
    ∧ ∀ ev, ev ∈ googleEvents → ¬ (Event.startMin ev <= x < Event.endMin ev).
Proof.
  cbv zeta. rewrite reserveEvents_free.
  - simpl. split.
    + intros [(iv & ->%list_elem_of_singleton & Hx) Hevs]. by split.
    + intros [Hx Hevs]. split; [|done]. eexists. split; [by left|done].
  - simpl. by intros iv ->%list_elem_of_singleton Hx.
Qed.

(** ** Clearing a generated day *)

(** The blocks of the loop: the fixed blocks it started from and blocks
    placed for tasks of the list. *)
Lemma allocate_origin day uid lunch ts :
  ∃ rest,
    dayBlocks (allocate day uid (mkAlloc (fixedBlocks lunch) [] 0) ts)
    ≡ₚ fixedBlocks lunch ++ rest
    ∧ ∀ b, b ∈ rest → ∃ t, t ∈ ts ∧ Block.taskId b = Task.id t.
Proof.
  apply (allocate_keeps_all day uid (λ t, t ∈ ts)
           (λ blocks _, ∃ rest, blocks ≡ₚ fixedBlocks lunch ++ rest
              ∧ ∀ b, b ∈ rest → ∃ t, t ∈ ts ∧ Block.taskId b = Task.id t)).
  - intros blocks t k chunk g Ht (rest & Hp & Hrest) _ _.
    exists (taskBlock uid t k (chunkTitle t (normDuration t) chunk) g :: rest). split.
    + rewrite insertBlock_Permutation, Hp. by rewrite Permutation_middle.
    + intros b [->|Hb]%elem_of_cons; [by exists t|by apply Hrest].
  - by apply Forall_forall.
  - exists []. split; [by rewrite app_nil_r|]. by intros b ?%elem_of_nil.
Qed.

Lemma filter_all {A : Type} (p : A → bool) (l : list A) :
  (∀ x, x ∈ l → p x = true) → List.filter p l = l.
Proof.
  induction l as [|x l IH]; intros Hp; simpl; [done|].
  rewrite (Hp x) by by left. f_equal. apply IH. intros y Hy. apply Hp. by right.
Qed.

Lemma filter_nothing {A : Type} (p : A → bool) (l : list A) :
  (∀ x, x ∈ l → p x = false) → List.filter p l = [].
Proof.
  induction l as [|x l IH]; intros Hp; simpl; [done|].
  rewrite (Hp x) by by left. apply IH. intros y Hy. apply Hp. by right.
Qed.

Lemma filter_Permutation_app {A : Type} (p : A → bool) (l l1 l2 : list A) :
  l ≡ₚ l1 ++ l2 → List.filter p l ≡ₚ List.filter p l1 ++ List.filter p l2.
Proof.
  intros Hp. rewrite <-List.filter_app.
  induction Hp as [|x la lb _ IH|x y la|la lb lc _ IH1 _ IH2]; simpl; [done| | |by etrans].
  - destruct (p x); [by constructor|done].
  - destruct (p x), (p y); try done. apply Permutation_swap.
Qed.

(** X28.  Clearing a generated day leaves the lunch block alone: after
    [generate] has built the schedule of the day of the settings, for
    tasks whose ids are not ["lunch"], [clearToday] leaves in that day
    exactly the fixed lunch block when a lunch window is configured and
    nothing otherwise, and the unplaced summary shows every task
    that is not done with its whole rounded duration. *)
Theorem clearToday_after_generate `{Host} (uid : nat → string) (st st' : State)
    (out : Schedule.t) (lunch : option (Z * Z)) :
  generate uid st = Some (st', out) →
  getLunchBlock st = Some lunch →
  (∀ t, t ∈ tasks st → Task.done t = false → Task.id t ≠ "lunch") →
  getScheduleForDate (clearToday st') (Settings.date (settings st)) = fixedBlocks lunch
  ∧ computeUnplaced (clearToday st') (Settings.date (settings st))
    = omap (λ t, if Task.done t then None
                 else if 0 <? roundDiv5 (Task.duration t) * 5
                      then Some (t, roundDiv5 (Task.duration t) * 5) else None)
        (tasks st).
Proof.
  unfold generate.
  intros (day & lunch' & ts & _ & Hlunch' & Hts & -> & ->)%buildSchedule_Some Hlunch Hids.
  assert (lunch' = lunch) as -> by congruence. simpl.
  set (dateKey := Settings.date (settings st)).
  set (placed := dayBlocks (allocate day uid (mkAlloc (fixedBlocks lunch) [] 0) ts)).
  assert (Hkeep : List.filter (λ b, String.eqb (Block.taskId b) "lunch") placed
            = fixedBlocks lunch).
  { destruct (allocate_origin day uid lunch ts) as (rest & Hp & Hrest). fold placed in Hp.
    pose proof (filter_Permutation_app (λ b, String.eqb (Block.taskId b) "lunch")
                  _ _ _ Hp) as Hf.
    rewrite (filter_all _ (fixedBlocks lunch)) in Hf.
    2: { intros x Hx. destruct lunch; simpl in Hx.
         - by apply list_elem_of_singleton in Hx as ->.
         - by apply elem_of_nil in Hx. }
    rewrite (filter_nothing _ rest), app_nil_r in Hf.
    2: { intros x (t & Ht & ->)%Hrest. apply String.eqb_neq.
         rewrite (sortTasks_Permutation _ _ _ Hts) in Ht.
         unfold tasksToSchedule in Ht.
         apply elem_of_filter in Ht as [Ht Hd%negb_true_iff]. by apply Hids. }
    destruct lunch as [l|]; simpl in *.
    - by apply Permutation_singleton_r in Hf.
    - by apply Permutation_nil_r in Hf. }
  assert (Hsched : getScheduleForDate
                     (clearToday (setSchedule st dateKey placed)) dateKey
                   = fixedBlocks lunch).
  { unfold getScheduleForDate, clearToday, setSchedule; simpl. fold dateKey.
    rewrite !lookup_insert_eq. simpl. rewrite Hkeep.
    by destruct lunch. }
  split; [done|].
  unfold computeUnplaced. rewrite Hsched.
  assert (Hnone : List.filter (λ b, negb (String.eqb (Block.taskId b) "lunch"))
            (fixedBlocks lunch) = []) by by destruct lunch.
  rewrite Hnone. simpl. apply omap_ext_in. intros t _.
  destruct (Task.done t); [done|].
  rewrite lookup_empty. simpl. rewrite Z.sub_0_r.
  destruct (Z.ltb_spec 0 (roundDiv5 (Task.duration t) * 5)).
  - rewrite Z.max_r by lia.
    by destruct (Z.ltb_spec 0 (roundDiv5 (Task.duration t) * 5)); [|lia].
  - by rewrite Z.max_l by lia.
Qed.

Lemma clearToday_after_generate_witness :
  let st := sampleState "09:00" "18:00" 10 "12:00-13:00"
              [sampleTask "t1" 200 "可" 1; sampleTask "t2" 60 "不可" 2] in
  ∃ st' out,
    @generate utcHost uidA st = Some (st', out)
    ∧ getScheduleForDate (clearToday st') "2026-01-15" = [lunchBlock (720, 780)]
    ∧ (snd <$> computeUnplaced (clearToday st') "2026-01-15") = [200; 60].
Proof.
  intros st.
  eassert (Hg : @generate utcHost uidA st = Some (_, _)) by (vm_compute; reflexivity).
  assert (Hl : getLunchBlock st = Some (Some (720, 780))) by reflexivity.
  assert (Hids : ∀ t, t ∈ tasks st → Task.done t = false → Task.id t ≠ "lunch").
  { intros t [->|[->|[]%elem_of_nil]%elem_of_cons]%elem_of_cons _; discriminate. }
  eexists _, _.
  destruct (@clearToday_after_generate utcHost uidA st _ _ _ Hg Hl Hids) as [H1 H2].
  split; [exact Hg|]. split; [exact H1|].
  exact (eq_trans (f_equal (fmap snd) H2) eq_refl).
Defined.
